(** * replication-manager: the orchestration core of [repmgr.go]

    A shallow embedding of [main] (topology classification, master location,
    preferred-master validation, mode dispatch and the monitoring loop) and
    the properties of the specification that concern it.

    The Go program keeps its topology in process-wide variables that hold
    pointers to [ServerMonitor] objects; [servers], [slaves] and [master]
    alias the same objects.  The embedding therefore has an explicit object
    store ([heap]) and nullable addresses ([ptr]).  Calls that leave the
    file ([newServerMonitor], [refresh], [hasSiblings], [failover],
    [switchover], [display], termbox, [dbhelper.IsSlaveof]) are taken as
    collaborators acting on an abstract outside world. *)

From Stdlib Require Import String Ascii ZArith Lia.
From stdpp Require Import base list strings.

(** ** Constants of the source *)

Definition repmgrVersion : string := "0.5.0-dev".

Definition STATE_FAILED : string := "Failed".
Definition STATE_MASTER : string := "Master".
Definition STATE_SLAVE  : string := "Slave".
Definition STATE_UNCONN : string := "Unconnected".

Definition switchOptions : list string := ["keep"; "kill"]%string.
Definition failOptions   : list string := ["monitor"; "force"; "check"]%string.

(** ** Data model *)

(** Modelled from the spec: the [ServerMonitor] struct is declared outside
    [repmgr.go]; these are the readable fields of a Node Monitor that [main]
    uses (host, IP, display URL, state, serverId, masterServerId, masterHost
    and the replication-configured signal [UsingGtid]).  The connection
    handle [Conn] is opaque: a deferred [Conn.Close()] is recorded by the
    pointer whose handle it was. *)
Record ServerMonitor : Type := mkServerMonitor {
  URL            : string;
  Host           : string;
  IP             : string;
  ServerId       : N;
  MasterServerId : N;
  MasterHost     : string;
  UsingGtid      : string;
  State          : string
}.

Definition withState (sm : ServerMonitor) (s : string) : ServerMonitor :=
  {| URL := URL sm; Host := Host sm; IP := IP sm; ServerId := ServerId sm;
     MasterServerId := MasterServerId sm; MasterHost := MasterHost sm;
     UsingGtid := UsingGtid sm; State := s |}.

(** A pointer to a ServerMonitor: [None] is Go's [nil], [Some a] the object at
    address [a] of the store. *)
Abbreviation ptr := (option nat).
Definition nil_ptr : ptr := None.

(** Command-line flags read by [main]. *)
Record Flags : Type := mkFlags {
  version     : bool;
  user        : string;
  hosts       : string;
  rpluser     : string;
  interactive : bool;
  verbose     : bool;
  prefMaster  : string;
  ignoreSrv   : string;
  failover    : string;
  switchover  : string
}.

(** Arguments of a formatted log line. *)
Inductive LogArg : Type :=
| ArgS (s : string)
| ArgD (z : Z).

(** Observable effects, in the order they happen. *)
Inductive Effect : Type :=
| Println (s : string)                       (* fmt.Println *)
| Logf (fmt : string) (args : list LogArg)   (* log.Printf, log.Println, logprintf *)
| Connect (url : string)                     (* newServerMonitor(url) *)
| Refresh (url : string)                     (* the refresh method *)
| QueryIsSlaveof (host ip : string)          (* dbhelper.IsSlaveof *)
| ConnClose (owner : ptr)                    (* Conn.Close() on the handle of that node *)
| CallFailover (receiver : ptr)              (* master.failover() *)
| CallSwitchover (receiver : ptr)            (* master.switchover() *)
| TermboxInit
| TermboxClose
| TermboxSync
| TlogAdd (s : string)
| Display
| Sleep (seconds : N).

(** termbox events, as far as the loop inspects them. *)
Definition EventKey : N := 0.
Definition KeyCtrlF : N := 6.
Definition KeyCtrlQ : N := 17.
Definition KeyCtrlS : N := 19.

Record TbEvent : Type := mkTbEvent {
  evType : N;
  evKey  : N;
  evCh   : ascii
}.

(** What one [select] of the loop receives. *)
Inductive Input : Type :=
| Tick
| Term (event : TbEvent).

(** [strings.Split(s, ",")]. *)
Fixpoint Split (s : string) : list string :=
  match s with
  | EmptyString => [EmptyString]
  | String c r =>
      if Ascii.eqb c ","%char then EmptyString :: Split r
      else match Split r with
           | h :: t => String c h :: t
           | [] => [String c EmptyString]
           end
  end.

(** Modelled from the spec: [contains] is a helper declared outside
    [repmgr.go]; the spec's "invalid mode value" makes it list membership. *)
Definition contains (l : list string) (x : string) : bool :=
  existsb (String.eqb x) l.

Section Repmgr.

(** The world outside the process: database servers, DNS, the terminal. *)
Context {W : Type}.

(** ** Program state: the package-level variables, the store and the world *)
Record St : Type := mkSt {
  hostList   : list string;
  servers    : list ptr;
  slaves     : list ptr;
  master     : ptr;
  exit       : bool;
  dbUser     : string;
  dbPass     : string;
  rplUser    : string;
  rplPass    : string;
  ignoreList : list string;
  deferred   : list ptr;           (* the calls [main] has deferred, last first *)
  heap       : list ServerMonitor;
  world      : W;
  trace      : list Effect
}.

Definition set_hostList (v : list string) (s : St) : St :=
  mkSt v (servers s) (slaves s) (master s) (exit s) (dbUser s) (dbPass s) (rplUser s)
       (rplPass s) (ignoreList s) (deferred s) (heap s) (world s) (trace s).
Definition set_servers (v : list ptr) (s : St) : St :=
  mkSt (hostList s) v (slaves s) (master s) (exit s) (dbUser s) (dbPass s) (rplUser s)
       (rplPass s) (ignoreList s) (deferred s) (heap s) (world s) (trace s).
Definition set_slaves (v : list ptr) (s : St) : St :=
  mkSt (hostList s) (servers s) v (master s) (exit s) (dbUser s) (dbPass s) (rplUser s)
       (rplPass s) (ignoreList s) (deferred s) (heap s) (world s) (trace s).
Definition set_master (v : ptr) (s : St) : St :=
  mkSt (hostList s) (servers s) (slaves s) v (exit s) (dbUser s) (dbPass s) (rplUser s)
       (rplPass s) (ignoreList s) (deferred s) (heap s) (world s) (trace s).
Definition set_exit (v : bool) (s : St) : St :=
  mkSt (hostList s) (servers s) (slaves s) (master s) v (dbUser s) (dbPass s) (rplUser s)
       (rplPass s) (ignoreList s) (deferred s) (heap s) (world s) (trace s).
Definition set_dbPair (v : string * string) (s : St) : St :=
  mkSt (hostList s) (servers s) (slaves s) (master s) (exit s) (fst v) (snd v) (rplUser s)
       (rplPass s) (ignoreList s) (deferred s) (heap s) (world s) (trace s).
Definition set_rplPair (v : string * string) (s : St) : St :=
  mkSt (hostList s) (servers s) (slaves s) (master s) (exit s) (dbUser s) (dbPass s) (fst v)
       (snd v) (ignoreList s) (deferred s) (heap s) (world s) (trace s).
Definition set_ignoreList (v : list string) (s : St) : St :=
  mkSt (hostList s) (servers s) (slaves s) (master s) (exit s) (dbUser s) (dbPass s) (rplUser s)
       (rplPass s) v (deferred s) (heap s) (world s) (trace s).
Definition set_deferred (v : list ptr) (s : St) : St :=
  mkSt (hostList s) (servers s) (slaves s) (master s) (exit s) (dbUser s) (dbPass s) (rplUser s)
       (rplPass s) (ignoreList s) v (heap s) (world s) (trace s).
Definition set_heap (v : list ServerMonitor) (s : St) : St :=
  mkSt (hostList s) (servers s) (slaves s) (master s) (exit s) (dbUser s) (dbPass s) (rplUser s)
       (rplPass s) (ignoreList s) (deferred s) v (world s) (trace s).
Definition set_world (v : W) (s : St) : St :=
  mkSt (hostList s) (servers s) (slaves s) (master s) (exit s) (dbUser s) (dbPass s) (rplUser s)
       (rplPass s) (ignoreList s) (deferred s) (heap s) v (trace s).
Definition emit (e : Effect) (s : St) : St :=
  mkSt (hostList s) (servers s) (slaves s) (master s) (exit s) (dbUser s) (dbPass s) (rplUser s)
       (rplPass s) (ignoreList s) (deferred s) (heap s) (world s) (trace s ++ [e]).

(** ** Collaborators

    Each call may read and change the outside world.  [refresh] rewrites the
    receiver; [failover], [switchover] and [display] see the store, the
    slave list and the receiver, and may rewrite the stored nodes (the
    returned function is applied to every object, by address), but not the
    package-level variables of [main]. *)
Record Collab : Type := mkCollab {
  (* a helper declared outside the file: cuts a user:password flag in two *)
  splitPair        : string -> string * string;
  (* returns a ServerMonitor pointer and an error; the boolean is [err != nil] *)
  newServerMonitor : W -> string -> W * (ServerMonitor * bool);
  refresh          : W -> ServerMonitor -> W * ServerMonitor;
  hasSiblings      : ServerMonitor -> list ServerMonitor -> bool;
  IsSlaveof        : W -> string -> string -> bool;
  sm_failover      : W -> list ServerMonitor -> list ptr -> ptr ->
                     W * (nat -> ServerMonitor -> ServerMonitor) * (string * Z);
  sm_switchover    : W -> list ServerMonitor -> list ptr -> ptr ->
                     W * (nat -> ServerMonitor -> ServerMonitor) * (string * Z);
  tb_display       : W -> list ServerMonitor -> list ptr ->
                     W * (nat -> ServerMonitor -> ServerMonitor);
  (* the error of termbox.Init(): [None] is nil, [Some txt] one that prints as txt *)
  termbox_Init     : W -> W * option string
}.

(** ** Results and the monad of [main] *)
Inductive Res (A : Type) : Type :=
| Ok (a : A) (s : St)               (* ran to the end *)
| Fatal (msg : string) (s : St)     (* log.Fatal*: diagnostic, then os.Exit(1) *)
| Panic (msg : string) (s : St)     (* run-time panic *)
| Blocked (s : St).                 (* select waits: no further input *)
Arguments Ok {A} a s.
Arguments Fatal {A} msg s.
Arguments Panic {A} msg s.
Arguments Blocked {A} s.

Definition M (A : Type) : Type := St -> Res A.

Definition ret {A} (a : A) : M A := fun s => Ok a s.
Definition bind {A B} (m : M A) (k : A -> M B) : M B :=
  fun s => match m s with
           | Ok a s' => k a s'
           | Fatal msg s' => Fatal msg s'
           | Panic msg s' => Panic msg s'
           | Blocked s' => Blocked s'
           end.

Notation "'let*' x := m 'in' k" := (bind m (fun x => k))
  (at level 10, x name, m at level 100, k at level 200).
Notation "m >>> k" := (bind m (fun _ => k))
  (at level 100, k at level 200, right associativity).

Definition fatal {A} (msg : string) : M A := fun s => Fatal msg s.
Definition panic {A} (msg : string) : M A := fun s => Panic msg s.
Definition blocked {A} : M A := fun s => Blocked s.
Definition get {A} (f : St -> A) : M A := fun s => Ok (f s) s.
Definition modify (f : St -> St) : M unit := fun s => Ok tt (f s).
Definition when (b : bool) (m : M unit) : M unit := if b then m else ret tt.
Definition logf (fmt : string) (args : list LogArg) : M unit :=
  modify (emit (Logf fmt args)).

Definition PANIC_INDEX : string := "index out of range".
Definition PANIC_SLICE : string := "slice bounds out of range".
Definition PANIC_NIL   : string := "invalid memory address or nil pointer dereference".

(** [l[i]] for a Go [int] index. *)
Definition index {A} (l : list A) (i : Z) : M A :=
  if (i <? 0)%Z then panic PANIC_INDEX
  else match l !! Z.to_nat i with
       | Some x => ret x
       | None => panic PANIC_INDEX
       end.

(** [*p]: reading the object behind a pointer. *)
Definition deref (p : ptr) : M ServerMonitor :=
  fun s => match p with
           | None => Panic PANIC_NIL s
           | Some a => match heap s !! a with
                       | Some sm => Ok sm s
                       | None => Panic PANIC_NIL s
                       end
           end.

(** [*p = sm]: writing through a pointer. *)
Definition store (p : ptr) (sm : ServerMonitor) : M unit :=
  fun s => match p with
           | None => Panic PANIC_NIL s
           | Some a => match heap s !! a with
                       | Some _ => Ok tt (set_heap (<[a := sm]> (heap s)) s)
                       | None => Panic PANIC_NIL s
                       end
           end.

(** [p.State = v]. *)
Definition setState (p : ptr) (v : string) : M unit :=
  let* sm := deref p in store p (withState sm v).

(** [for k, x := range l { body }] without [break]. *)
Fixpoint forRange {A} (body : nat -> A -> M unit) (k : nat) (l : list A) : M unit :=
  match l with
  | [] => ret tt
  | x :: r => body k x >>> forRange body (S k) r
  end.

(** [for k, x := range l { body }] where the body answers [true] to [break]. *)
Fixpoint forRangeBreak {A} (body : nat -> A -> M bool) (k : nat) (l : list A) : M unit :=
  match l with
  | [] => ret tt
  | x :: r => let* brk := body k x in
              if brk then ret tt else forRangeBreak body (S k) r
  end.

Variable C : Collab.
Variable cfg : Flags.

(** The call [newServerMonitor(url)]: a new object is allocated whatever the
    outcome (the caller reads [.URL] of the result when [err != nil]). *)
Definition call_newServerMonitor (url : string) : M (ptr * bool) :=
  fun s =>
    let '(w', (sm, err)) := newServerMonitor C (world s) url in
    let a := length (heap s) in
    Ok (Some a, err)
       (emit (Connect url) (set_world w' (set_heap (heap s ++ [sm]) s))).

(** The call [p.refresh()]. *)
Definition call_refresh (p : ptr) : M unit :=
  let* sm := deref p in
  let* sm' := (fun s => let '(w', sm') := refresh C (world s) sm in
                        Ok sm' (emit (Refresh (URL sm)) (set_world w' s))) in
  store p sm'.

(** ** Topology classifier (lines 105-138) *)

(** [servers[k]] read and written. *)
Definition serverAt (k : nat) : M ptr :=
  let* l := get servers in index l (Z.of_nat k).

Definition assignServer (k : nat) (p : ptr) : M unit :=
  fun s => if decide (k < length (servers s))
           then Ok tt (set_servers (<[k := p]> (servers s)) s)
           else Panic PANIC_INDEX s.

(** The body of the loop over [hostList]. *)
Definition classifyHost (k : nat) (url : string) : M unit :=
  let* r := call_newServerMonitor url in
  assignServer k (fst r) >>>
  when (verbose cfg)
    (let* p := serverAt k in let* sm := deref p in
     logf "DEBUG: Creating new server: %v" [ArgS (URL sm)]) >>>
  if snd r then
    (* err != nil *)
    let* p := serverAt k in let* sm := deref p in
    logf "INFO : Server %s is dead." [ArgS (URL sm)] >>>
    let* p := serverAt k in
    setState p STATE_FAILED
    (* continue *)
  else
    (* defer servers[k].Conn.Close(): the receiver is read now, the call
       is made when [main] returns *)
    let* p := serverAt k in let* _ := deref p in
    modify (fun s => set_deferred (p :: deferred s) s) >>>
    when (verbose cfg)
      (let* p := serverAt k in let* sm := deref p in
       logf "DEBUG: Checking if server %s is slave" [ArgS (URL sm)]) >>>
    let* p := serverAt k in
    call_refresh p >>>
    let* p := serverAt k in let* sm := deref p in
    if negb (String.eqb (UsingGtid sm) EmptyString) then
      when (verbose cfg)
        (let* p := serverAt k in let* sm := deref p in
         logf "DEBUG: Server %s is configured as a slave" [ArgS (URL sm)]) >>>
      let* p := serverAt k in
      setState p STATE_SLAVE >>>
      let* p := serverAt k in
      modify (fun s => set_slaves (slaves s ++ [p]) s)
      (* slaveCount++ *)
    else
      when (verbose cfg)
        (let* p := serverAt k in let* sm := deref p in
         logf "DEBUG: Server %s is not a slave. Setting aside" [ArgS (URL sm)]).

(** [servers = make([]*ServerMonitor, hostCount)] and the loop. *)
Definition classify : M unit :=
  let* hl := get hostList in
  modify (set_servers (replicate (length hl) nil_ptr)) >>>
  forRange classifyHost 0 hl.

(** ** Sibling check (lines 140-145) *)

(** The callee walks the slice it is given and reads every element. *)
Fixpoint derefAll (l : list ptr) : M (list ServerMonitor) :=
  match l with
  | [] => ret []
  | p :: r => let* sm := deref p in
              let* rest := derefAll r in
              ret (sm :: rest)
  end.

Definition MSG_MULTI_MASTER : string :=
  "ERROR: Multi-master topologies are not yet supported.".

Definition checkSiblings : M unit :=
  let* sls := get slaves in
  forRange (fun _ sl =>
    let* sm := deref sl in
    let* arg := get slaves in
    let* sib := derefAll arg in
    if negb (hasSiblings C sm sib) then fatal MSG_MULTI_MASTER else ret tt)
    0 sls.

(** ** Master locator (lines 147-183) *)

Definition foundMaster (k : nat) (s : ptr) : M bool :=
  let* p := serverAt k in
  modify (set_master p) >>>
  let* m := get master in
  setState m STATE_MASTER >>>
  when (verbose cfg)
    (let* sm := deref s in
     logf "DEBUG: Server %s was autodetected as a master" [ArgS (URL sm)]) >>>
  ret true.   (* break *)

Definition usesServerIdPath : bool :=
  negb (String.eqb (switchover cfg) EmptyString) || String.eqb (failover cfg) "monitor".

Definition locateMaster : M unit :=
  if usesServerIdPath then
    let* sls := get slaves in
    let* p0 := index sls 0%Z in
    let* s0 := deref p0 in
    let sid := MasterServerId s0 in
    let* svs := get servers in
    forRangeBreak (fun k s =>
      let* sm := deref s in
      if String.eqb (State sm) STATE_UNCONN then
        if N.eqb (ServerId sm) sid then foundMaster k s else ret false
      else ret false) 0 svs
  else
    let* sls := get slaves in
    let* p0 := index sls 0%Z in
    let* s0 := deref p0 in
    let smh := MasterHost s0 in
    let* svs := get servers in
    forRangeBreak (fun k s =>
      let* sm := deref s in
      if String.eqb (State sm) STATE_FAILED then
        if String.eqb (Host sm) smh || String.eqb (IP sm) smh
        then foundMaster k s else ret false
      else ret false) 0 svs.

Definition MSG_NO_MASTER : string := "ERROR: Could not autodetect a master!".

Definition finalCheck : M unit :=
  let* m := get master in
  match m with
  | None => fatal MSG_NO_MASTER
  | Some _ => ret tt
  end.

(** ** Slaves against the declared master (lines 185-192) *)
Definition checkSlaves : M unit :=
  let* sls := get slaves in
  forRange (fun _ sl =>
    when (verbose cfg)
      (let* sm := deref sl in
       let* m := get master in let* mm := deref m in
       logf "DEBUG: Checking if server %s is a slave of server %s" [ArgS (Host sm); ArgS (Host mm)]) >>>
    let* sm := deref sl in
    let* m := get master in let* mm := deref m in
    let* ok := (fun s => Ok (IsSlaveof C (world s) (Host sm) (IP mm))
                            (emit (QueryIsSlaveof (Host sm) (IP mm)) s)) in
    if negb ok then
      logf "WARN : Server %s is not a slave of declared master %s" [ArgS (URL mm); ArgS (Host mm)]
    else ret tt) 0 sls.

(** ** Preferred master (lines 194-205) *)

(** The closure [ret]: is [*prefMaster] one of the entries of [hostList]? *)
Fixpoint prefInHostList (hl : list string) : bool :=
  match hl with
  | [] => false
  | v :: r => if String.eqb v (prefMaster cfg) then true else prefInHostList r
  end.

Definition MSG_PREF_MASTER : string :=
  "ERROR: Preferred master is not included in the hosts option".

Definition checkPrefMaster : M unit :=
  let* hl := get hostList in
  if negb (prefInHostList hl) && negb (String.eqb (prefMaster cfg) EmptyString)
  then fatal MSG_PREF_MASTER else ret tt.

(** ** Promotion calls and the display *)

Definition call_failover : M (string * Z) :=
  fun s =>
    let '(w', touch, r) := sm_failover C (world s) (heap s) (slaves s) (master s) in
    Ok r (emit (CallFailover (master s))
            (set_world w' (set_heap (imap touch (heap s)) s))).

Definition call_switchover : M (string * Z) :=
  fun s =>
    let '(w', touch, r) := sm_switchover C (world s) (heap s) (slaves s) (master s) in
    Ok r (emit (CallSwitchover (master s))
            (set_world w' (set_heap (imap touch (heap s)) s))).

Definition call_display : M unit :=
  fun s =>
    let '(w', touch) := tb_display C (world s) (heap s) (servers s) in
    Ok tt (emit Display (set_world w' (set_heap (imap touch (heap s)) s))).

(** [slaves[i] = p] for a Go [int] index. *)
Definition assignSlave (i : Z) (p : ptr) : M unit :=
  fun s => if (i <? 0)%Z then Panic PANIC_INDEX s
           else if decide (Z.to_nat i < length (slaves s))
           then Ok tt (set_slaves (<[Z.to_nat i := p]> (slaves s)) s)
           else Panic PANIC_INDEX s.

(** [slaves = append(slaves[:i], slaves[i+1:]...)].  [slaves[:i]] needs
    [0 <= i <= cap(slaves)] and [slaves[i+1:]] needs [i+1 <= len(slaves)];
    as [len <= cap], the second bound is the one that decides. *)
Definition removeSlave (i : Z) : M unit :=
  fun s => if (i <? 0)%Z then Panic PANIC_SLICE s
           else if (Z.of_nat (length (slaves s)) <? i + 1)%Z then Panic PANIC_SLICE s
           else Ok tt (set_slaves (take (Z.to_nat i) (slaves s) ++
                                   drop (Z.to_nat (i + 1)) (slaves s)) s).

(** ** The monitoring loop (lines 214-281) *)

(** Ctrl-S: manual switchover (lines 236-245). *)
Definition onCtrlS : M unit :=
  let* r := call_switchover in
  let nmUrl := fst r in
  let nsKey := snd r in
  if negb (String.eqb nmUrl EmptyString) && (0 <=? nsKey)%Z then
    when (verbose cfg)
      (let* sls := get slaves in
       let* p := index sls nsKey in
       let* sm := deref p in
       logf "DEBUG: Reinstancing new master: %s and new slave: %s [%d]"
            [ArgS nmUrl; ArgS (URL sm); ArgD nsKey]) >>>
    let* r1 := call_newServerMonitor nmUrl in
    modify (set_master (fst r1)) >>>
    let* sls := get slaves in
    let* p := index sls nsKey in
    let* sm := deref p in
    let* r2 := call_newServerMonitor (URL sm) in
    assignSlave nsKey (fst r2)
  else ret tt.

(** One received event; the result is the local [command]. *)
Definition handleInput (i : Input) (command : string) : M string :=
  match i with
  | Tick => call_display >>> ret command
  | Term event =>
      let* command :=
        (if N.eqb (evType event) EventKey then
           (if N.eqb (evKey event) KeyCtrlS then onCtrlS else ret tt) >>>
           let* command :=
             (if N.eqb (evKey event) KeyCtrlF
              then modify (set_exit true) >>> ret "failover"%string
              else ret command) in
           (if N.eqb (evKey event) KeyCtrlQ then modify (set_exit true) else ret tt) >>>
           ret command
         else ret command) in
      (if Ascii.eqb (evCh event) "s"%char then modify (emit TermboxSync) else ret tt) >>>
      ret command
  end.

(** The check at the end of the loop body (lines 259-262). *)
Definition detectFailure (command : string) : M string :=
  let* m := get master in
  let* mm := deref m in
  if String.eqb (State mm) STATE_FAILED && negb (interactive cfg)
  then modify (set_exit true) >>> ret "failover"%string
  else ret command.

Definition iteration (i : Input) (command : string) : M string :=
  let* command := handleInput i command in
  detectFailure command.

(** What follows the label [MainLoop] up to the [for] (lines 215-228). *)
Definition MSG_TERMBOX : string := "Termbox initialization error".

Definition enterMainLoop : M unit :=
  let* err := (fun s => let '(w', e) := termbox_Init C (world s) in
                        Ok e (emit TermboxInit (set_world w' s))) in
  match err with
  | Some txt => fatal (MSG_TERMBOX +:+ " " +:+ txt)   (* log.Fatalln(msg, err) *)
  | None => ret tt
  end >>>
  (* tlog = NewTermLog(20) *)
  (if negb (String.eqb (failover cfg) EmptyString)
   then modify (emit (TlogAdd "Monitor started in failover mode"))
   else modify (emit (TlogAdd "Monitor started in switchover mode")))
  (* termboxChan := new_tb_chan(); ticker := time.NewTicker(3s); var command string *).

Definition MSG_RESTART : string :=
  "###### Restarting monitor console in 5 seconds. Press Ctrl-C to exit".

(** [case "failover"] up to the [goto] (lines 266-278). *)
Definition restartAfterFailover : M unit :=
  modify (emit TermboxClose) >>>
  let* r := call_failover in
  let nmUrl := fst r in
  let nmKey := snd r in
  (if negb (String.eqb nmUrl EmptyString) then
     when (verbose cfg) (logf "DEBUG: Reinstancing new master: %s" [ArgS nmUrl]) >>>
     let* r1 := call_newServerMonitor nmUrl in
     modify (set_master (fst r1)) >>>
     (* Remove new master from slave slice *)
     removeSlave nmKey
   else ret tt) >>>
  logf MSG_RESTART [] >>>
  modify (emit (Sleep 5)) >>>
  modify (set_exit false).

(** The [for exit == false] loop and what follows it.  Every pass of the
    body takes one input, and a restart always takes at least one pass, so
    the inputs bound the run; with none left the [select] waits. *)
Fixpoint monitor (inputs : list Input) (command : string) : M unit :=
  match inputs with
  | [] => blocked
  | i :: rest =>
      let* command := iteration i command in
      let* ex := get exit in
      if negb ex then monitor rest command
      else if String.eqb command "failover" then
        restartAfterFailover >>>
        (* goto MainLoop *)
        enterMainLoop >>>
        let* ex := get exit in
        if negb ex then monitor rest EmptyString
        else modify (emit TermboxClose)
      else modify (emit TermboxClose)
  end.

Definition MainLoop (inputs : list Input) : M unit :=
  enterMainLoop >>>
  let* ex := get exit in
  if negb ex then monitor inputs EmptyString
  else modify (emit TermboxClose).

(** ** Mode dispatch (lines 207-282) *)
Definition dispatch (inputs : list Input) : M unit :=
  if String.eqb (failover cfg) "force" then
    call_failover >>> ret tt
  else if negb (String.eqb (switchover cfg) EmptyString) && negb (interactive cfg) then
    call_switchover >>> ret tt
  else MainLoop inputs.

(** ** Start-up validation (lines 67-103) *)
Definition validateFlags : M unit :=
  when (version cfg)
    (modify (emit (Println ("MariaDB Replication Manager version " +:+ repmgrVersion)))) >>>
  (if negb (String.eqb (hosts cfg) EmptyString)
   then modify (set_hostList (Split (hosts cfg)))
   else fatal "ERROR: No hosts list specified.") >>>
  (if String.eqb (user cfg) EmptyString
   then fatal "ERROR: No master user/pair specified." else ret tt) >>>
  modify (set_dbPair (splitPair C (user cfg))) >>>
  (if String.eqb (rpluser cfg) EmptyString
   then fatal "ERROR: No replication user/pair specified." else ret tt) >>>
  modify (set_rplPair (splitPair C (rpluser cfg))) >>>
  (if String.eqb (switchover cfg) EmptyString && String.eqb (failover cfg) EmptyString
   then fatal "ERROR: None of the switchover or failover modes are set." else ret tt) >>>
  (if negb (String.eqb (switchover cfg) EmptyString) && negb (String.eqb (failover cfg) EmptyString)
   then fatal "ERROR: Both switchover and failover modes are set." else ret tt) >>>
  (if negb (contains failOptions (failover cfg)) && negb (String.eqb (failover cfg) EmptyString)
   then fatal ("ERROR: Incorrect failover mode: " +:+ failover cfg) else ret tt) >>>
  (if negb (contains switchOptions (switchover cfg)) && negb (String.eqb (switchover cfg) EmptyString)
   then fatal ("ERROR: Incorrect switchover mode: " +:+ switchover cfg) else ret tt) >>>
  (if negb (String.eqb (ignoreSrv cfg) EmptyString)
   then modify (set_ignoreList (Split (ignoreSrv cfg))) else ret tt).

(** ** [main] *)
Definition bootstrap : M unit :=
  classify >>>
  checkSiblings >>>
  locateMaster >>>
  finalCheck.

(** The statements of [main], in order. *)
Definition mainBody (inputs : list Input) : M unit :=
  validateFlags >>>
  bootstrap >>>
  checkSlaves >>>
  checkPrefMaster >>>
  dispatch inputs.

(** The deferred calls run, last registered first. *)
Definition runDeferred (s : St) : St :=
  set_deferred [] (fold_left (fun s' p => emit (ConnClose p) s') (deferred s) s).

(** How [main] is left: its deferred calls run when it returns and when it
    panics; [log.Fatal] ends the process through [os.Exit] without them. *)
Definition atReturn (r : Res unit) : Res unit :=
  match r with
  | Ok a s => Ok a (runDeferred s)
  | Panic msg s => Panic msg (runDeferred s)
  | Fatal msg s => Fatal msg s
  | Blocked s => Blocked s
  end.

Definition main (inputs : list Input) : M unit :=
  fun s => atReturn (mainBody inputs s).

(** The process image at start: every package-level variable is zero. *)
Definition initSt (w : W) : St :=
  mkSt [] [] [] nil_ptr false EmptyString EmptyString EmptyString EmptyString [] []
       [] w [].

(** The state of the node behind a pointer, if there is one. *)
Definition nodeAt (h : list ServerMonitor) (p : ptr) : option ServerMonitor :=
  match p with
  | None => None
  | Some a => h !! a
  end.

Definition stateAt (h : list ServerMonitor) (p : ptr) : option string :=
  State <$> nodeAt h p.

(** ** What the collaborators answer during classification *)

(** The answers for one host: the node as connected (and refreshed when the
    connection succeeded) and whether the connection failed. *)
Definition probe (w : W) (url : string) : W * (ServerMonitor * bool) :=
  let '(w1, (sm, err)) := newServerMonitor C w url in
  if err then (w1, (sm, true))
  else let '(w2, sm') := refresh C w1 sm in (w2, (sm', false)).

(** The answers for a host list, host after host. *)
Fixpoint probes (w : W) (urls : list string) : list (ServerMonitor * bool) :=
  match urls with
  | [] => []
  | u :: r => let '(w', a) := probe w u in a :: probes w' r
  end.

(** The class the specification gives a host: Failed when the connection
    failed, Slave when replication is configured, Unconnected otherwise. *)
Definition classOf (a : ServerMonitor * bool) : string :=
  if snd a then STATE_FAILED
  else if negb (String.eqb (UsingGtid (fst a)) EmptyString) then STATE_SLAVE
  else STATE_UNCONN.

(** The node the classifier leaves in the store for such an answer. *)
Definition finalNode (a : ServerMonitor * bool) : ServerMonitor :=
  if snd a then withState (fst a) STATE_FAILED
  else if negb (String.eqb (UsingGtid (fst a)) EmptyString) then withState (fst a) STATE_SLAVE
  else fst a.

(** The addresses, from [a] on, of the hosts classified as Slave. *)
Fixpoint slaveAddrs (a : nat) (prs : list (ServerMonitor * bool)) : list nat :=
  match prs with
  | [] => []
  | pr :: r => (if bool_decide (classOf pr = STATE_SLAVE) then [a] else [])
               ++ slaveAddrs (S a) r
  end.

(** Modelled from the spec: [newServerMonitor] and [refresh] are declared
    outside [repmgr.go].  A node whose connection succeeded starts as
    Unconnected ("otherwise leave as Unconnected"), and a refresh updates
    the replication facts only, never the state. *)
Definition NodeMonitorContract : Prop :=
  (forall w url, snd (snd (newServerMonitor C w url)) = false ->
                 State (fst (snd (newServerMonitor C w url))) = STATE_UNCONN) /\
  (forall w sm, State (snd (refresh C w sm)) = State sm).

(** The state after [servers[k]], at address [a], was designated. *)
Definition elected (st : St) (a : nat) (sm : ServerMonitor) : St :=
  mkSt (hostList st) (servers st) (slaves st) (Some a) (exit st)
       (dbUser st) (dbPass st) (rplUser st) (rplPass st) (ignoreList st) (deferred st)
       (<[a := withState sm STATE_MASTER]> (heap st)) (world st)
       (trace st ++
          (if verbose cfg
           then [Logf "DEBUG: Server %s was autodetected as a master" [ArgS (URL sm)]]
           else [])).


(** The shape both scanning loops of the locator share: two nested tests on
    the node, then the designation. *)
Definition scanBody (c1 c2 : ServerMonitor -> bool) (k : nat) (s : ptr) : M bool :=
  let* sm := deref s in
  if c1 sm then (if c2 sm then foundMaster k s else ret false)
  else ret false.

Definition passedOver (c1 c2 : ServerMonitor -> bool) (st : St) (p : ptr) : Prop :=
  exists sm, nodeAt (heap st) p = Some sm /\ c1 sm && c2 sm = false.

(** What the two paths look for, in the words of the specification. *)
Definition matchesServerId (sid : N) (sm : ServerMonitor) : Prop :=
  State sm = STATE_UNCONN /\ ServerId sm = sid.

Definition matchesHost (smh : string) (sm : ServerMonitor) : Prop :=
  State sm = STATE_FAILED /\ (Host sm = smh \/ IP sm = smh).

(** A node the scan reads and passes over. *)
Definition skipped (P : ServerMonitor -> Prop) (st : St) (p : ptr) : Prop :=
  exists sm, nodeAt (heap st) p = Some sm /\ ~ P sm.

(** The state right after a promotion call answered: the world moved on,
    the callee rewrote the stored nodes, and the call is on the trace. *)
Definition afterCall (e : Effect) (w' : W)
    (touch : nat -> ServerMonitor -> ServerMonitor) (st : St) : St :=
  emit e (set_world w' (set_heap (imap touch (heap st)) st)).

(** The state right after [newServerMonitor(url)] returned. *)
Definition afterConnect (url : string) (st : St) : St :=
  emit (Connect url)
    (set_world (fst (newServerMonitor C (world st) url))
       (set_heap (heap st ++ [fst (snd (newServerMonitor C (world st) url))]) st)).

(** ** The trace only grows *)

(** The state a run ends in, however it ends. *)
Definition final {A} (r : Res A) : St :=
  match r with
  | Ok _ s => s
  | Fatal _ s => s
  | Panic _ s => s
  | Blocked s => s
  end.

Definition extends (s s' : St) : Prop :=
  exists tr, trace s' = trace s ++ tr.

Definition appendOnly {A} (m : M A) : Prop :=
  forall s, extends s (final (m s)).

End Repmgr.

Arguments Ok {W A} a s.
Arguments Fatal {W A} msg s.
Arguments Panic {W A} msg s.
Arguments Blocked {W A} s.

(** The flags of a run in failover mode [m]: no switchover mode is set (both
    at once do not pass the start-up validation). *)
Definition failoverFlags (cfg : Flags) (m : string) : Flags :=
  mkFlags (version cfg) (user cfg) (hosts cfg) (rpluser cfg) (interactive cfg)
          (verbose cfg) (prefMaster cfg) (ignoreSrv cfg) m EmptyString.

(** ** A scripted outside world

    A small cluster to run the program on: a table of hosts (reachable or
    not, with the facts a refresh reads), the answers of the coming
    promotion calls, and the outages the coming displays will notice. *)
Module Cluster.

Record HostEntry : Type := mkHost {
  h_url            : string;
  h_host           : string;
  h_ip             : string;
  h_up             : bool;
  h_serverId       : N;
  h_masterServerId : N;
  h_masterHost     : string;
  h_usingGtid      : string
}.

Record World : Type := mkWorld {
  table      : list HostEntry;
  promotions : list (string * Z);
  outages    : list (list string)
}.

Fixpoint lookupHost (t : list HostEntry) (url : string) : option HostEntry :=
  match t with
  | [] => None
  | h :: r => if String.eqb (h_url h) url then Some h else lookupHost r url
  end.

Definition blank (url host ip st : string) : ServerMonitor :=
  mkServerMonitor url host ip 0 0 EmptyString EmptyString st.

Definition connect (w : World) (url : string) : World * (ServerMonitor * bool) :=
  match lookupHost (table w) url with
  | Some h => if h_up h then (w, (blank url (h_host h) (h_ip h) STATE_UNCONN, false))
              else (w, (blank url (h_host h) (h_ip h) STATE_FAILED, true))
  | None => (w, (blank url url EmptyString STATE_FAILED, true))
  end.

Definition readFacts (w : World) (sm : ServerMonitor) : World * ServerMonitor :=
  match lookupHost (table w) (URL sm) with
  | Some h => (w, mkServerMonitor (URL sm) (Host sm) (IP sm) (h_serverId h)
                    (h_masterServerId h) (h_masterHost h) (h_usingGtid h) (State sm))
  | None => (w, sm)
  end.

Definition sameMaster (sm : ServerMonitor) (sib : list ServerMonitor) : bool :=
  forallb (fun sl => N.eqb (MasterServerId sm) (MasterServerId sl)) sib.

Definition untouched (_ : nat) (sm : ServerMonitor) : ServerMonitor := sm.

Definition promote (w : World) (_ : list ServerMonitor) (_ : list ptr) (_ : ptr)
  : World * (nat -> ServerMonitor -> ServerMonitor) * (string * Z) :=
  match promotions w with
  | [] => (w, untouched, (EmptyString, (-1)%Z))
  | r :: rest => (mkWorld (table w) rest (outages w), untouched, r)
  end.

Definition markFailed (dead : list string) (_ : nat) (sm : ServerMonitor) : ServerMonitor :=
  if existsb (String.eqb (URL sm)) dead then withState sm STATE_FAILED else sm.

Definition redraw (w : World) (_ : list ServerMonitor) (_ : list ptr)
  : World * (nat -> ServerMonitor -> ServerMonitor) :=
  match outages w with
  | [] => (w, untouched)
  | dead :: rest => (mkWorld (table w) (promotions w) rest, markFailed dead)
  end.

(** [user:password] cut at the first colon. *)
Fixpoint cutAtColon (s : string) : string * string :=
  match s with
  | EmptyString => (EmptyString, EmptyString)
  | String c r => if Ascii.eqb c ":"%char then (EmptyString, r)
                  else (String c (fst (cutAtColon r)), snd (cutAtColon r))
  end.

Definition collab : @Collab World :=
  mkCollab cutAtColon connect readFacts sameMaster (fun _ _ _ => true)
           promote promote redraw (fun w => (w, None)).

(** Three hosts: [h1] is the master, [h2] and [h3] replicate from it. *)
Definition h1 : string := "h1:3306".
Definition h2 : string := "h2:3306".
Definition h3 : string := "h3:3306".

Definition three (up1 up2 up3 : bool) : list HostEntry :=
  [ mkHost h1 "h1" "10.0.0.1" up1 100 0 EmptyString EmptyString;
    mkHost h2 "h2" "10.0.0.2" up2 101 100 "10.0.0.1" "Slave_Pos";
    mkHost h3 "h3" "10.0.0.3" up3 102 100 "10.0.0.1" "Slave_Pos" ].

Definition healthy : list HostEntry := three true true true.
Definition masterDown : list HostEntry := three false true true.
Definition allDown : list HostEntry := three false false false.

Definition flags (fo so : string) (inter : bool) (pref : string) : Flags :=
  mkFlags false "root:pw" "h1:3306,h2:3306,h3:3306" "repl:pw" inter false pref EmptyString fo so.

(** [h3] replicates from somebody else. *)
Definition splitBrain : list HostEntry :=
  [ mkHost h1 "h1" "10.0.0.1" true 100 0 EmptyString EmptyString;
    mkHost h2 "h2" "10.0.0.2" true 101 100 "10.0.0.1" "Slave_Pos";
    mkHost h3 "h3" "10.0.0.3" true 102 999 "10.0.0.9" "Slave_Pos" ].

(** A fresh process in which only the host list, [hl], has been set. *)
Definition boot (hl : list string) (w : World) : @St World :=
  set_hostList hl (initSt w).

Definition quiet (t : list HostEntry) : World := mkWorld t [] [].

(** The state the classifier leaves. *)
Definition classified (hl : list string) (t : list HostEntry) : @St World :=
  final (classify collab (flags "monitor" EmptyString true EmptyString) (boot hl (quiet t))).

(** The state at the head of the monitoring loop: [main] run without
    inputs stops there, waiting. *)
Definition atLoopHead (cfg : Flags) (w : World) : @St World :=
  final (main collab cfg [] (initSt w)).

Definition cfgMonitor : Flags := flags "monitor" EmptyString true EmptyString.
Definition cfgCheck   : Flags := flags "check" EmptyString true EmptyString.
Definition cfgAuto    : Flags := flags "monitor" EmptyString false EmptyString.
Definition cfgKeep    : Flags := flags EmptyString "keep" true EmptyString.
Definition cfgPref    : Flags := flags "monitor" EmptyString true "d".

(** The flags of [cfgPref] with a switchover mode set beside the failover
    mode. *)
Definition cfgBothModes : Flags := flags "monitor" "keep" true "d".

(** The host list with the master in second place. *)
Definition swapped : list string := [h2; h1; h3].

(** The state a run without inputs ends in. *)
Definition endOfRun (cfg : Flags) (w : World) : @St World :=
  final (main collab cfg [] (initSt w)).

(** Worlds for the loop: the next display notices that [h1] is gone and the
    next promotion answers [h2], slave 0; a promotion that answers an index
    past the slave list; one that answers a negative index. *)
Definition wOutage : World := mkWorld healthy [(h2, 0%Z)] [[h1]].
Definition wPromote : World := mkWorld healthy [(h2, 0%Z)] [].
Definition wPastEnd : World := mkWorld healthy [(h2, 5%Z)] [].
Definition wNegative : World := mkWorld healthy [(h2, (-1)%Z)] [].

Definition ctrlS : Input := Term (mkTbEvent EventKey KeyCtrlS "a").

End Cluster.


(** ** Further descriptions of what [main] does *)

Section Descriptions.
Context {W : Type}.
Variable C : @Collab W.
Variable cfg : Flags.

(** The flag combinations that pass the start-up validation. *)
Definition flagsAccepted : Prop :=
  hosts cfg <> EmptyString /\ user cfg <> EmptyString /\ rpluser cfg <> EmptyString /\
  ((switchover cfg = EmptyString /\ failover cfg ∈ failOptions) \/
   (failover cfg = EmptyString /\ switchover cfg ∈ switchOptions)).

(** The state after the version line was printed, if it was asked for. *)
(** What an accepted command line leaves in the package-level variables:
    the host list, both credential pairs and, when [-ignore-servers] is
    set, the ignore list. *)
Definition configured (st : @St W) : @St W :=
  let st1 := set_rplPair (splitPair C (rpluser cfg))
               (set_dbPair (splitPair C (user cfg))
                  (set_hostList (Split (hosts cfg)) st)) in
  if negb (String.eqb (ignoreSrv cfg) EmptyString)
  then set_ignoreList (Split (ignoreSrv cfg)) st1 else st1.

Definition announce (st : @St W) : @St W :=
  if version cfg
  then emit (Println ("MariaDB Replication Manager version " +:+ repmgrVersion)) st
  else st.

(** What the check of one slave [sm] against the master [mm] puts on the
    trace (lines 186-191). *)
Definition slaveReport (w : W) (mm sm : ServerMonitor) : list Effect :=
  (if verbose cfg
   then [Logf "DEBUG: Checking if server %s is a slave of server %s"
              [ArgS (Host sm); ArgS (Host mm)]]
   else []) ++
  [QueryIsSlaveof (Host sm) (IP mm)] ++
  (if IsSlaveof C w (Host sm) (IP mm) then []
   else [Logf "WARN : Server %s is not a slave of declared master %s"
              [ArgS (URL mm); ArgS (Host mm)]]).

(** A state with more on its trace and nothing else changed. *)
Definition logged (tr : list Effect) (st : @St W) : @St W :=
  mkSt (hostList st) (servers st) (slaves st) (master st) (exit st)
       (dbUser st) (dbPass st) (rplUser st) (rplPass st) (ignoreList st) (deferred st)
       (heap st) (world st) (trace st ++ tr).

(** The state after the [switch event.Ch] of the loop body (lines 254-257). *)
Definition synced (ev : TbEvent) (st : @St W) : @St W :=
  if Ascii.eqb (evCh ev) "s" then emit TermboxSync st else st.

(** Inputs the loop body has no handler for: ticks, events that are not
    key events, and keys other than Ctrl-S, Ctrl-F and Ctrl-Q. *)
Definition passive (i : Input) : Prop :=
  match i with
  | Tick => True
  | Term ev => evType ev <> EventKey \/
               (evKey ev <> KeyCtrlS /\ evKey ev <> KeyCtrlF /\ evKey ev <> KeyCtrlQ)
  end.

(** The state after [display()] returned (line 232). *)
Definition afterDisplay (st : @St W) : @St W :=
  emit Display
    (set_world (fst (tb_display C (world st) (heap st) (servers st)))
       (set_heap (imap (snd (tb_display C (world st) (heap st) (servers st))) (heap st))
          st)).

(** The modes that never enter the monitoring loop (lines 209-212). *)
Definition directMode : Prop :=
  failover cfg = "force"%string \/
  (switchover cfg <> EmptyString /\ interactive cfg = false).

(** ** Pointers that can be followed *)

(** A pointer that is not nil and lies inside a store of [n] objects. *)
Definition validIn (n : nat) (p : ptr) : Prop :=
  exists a, p = Some a /\ a < n.

(** Every pointer of [servers] and [slaves] can be followed. *)
Definition listsSound (st : @St W) : Prop :=
  Forall (validIn (length (heap st))) (servers st) /\
  Forall (validIn (length (heap st))) (slaves st).

(** The topology of the monitoring loop: the lists and [master]. *)
Definition sound (st : @St W) : Prop :=
  listsSound st /\ validIn (length (heap st)) (master st).

(** The topology while the master is being located: [master] is still nil
    or can be followed, and so can every pointer of the list [l], a copy
    of [servers] or [slaves] a loop ranges over. *)
Definition loose (l : list ptr) (st : @St W) : Prop :=
  listsSound st /\ Forall (validIn (length (heap st))) l /\
  (master st = nil_ptr \/ validIn (length (heap st)) (master st)).

(** A run that does not end in a nil-pointer dereference. *)
Definition noNilPanic {A} (r : @Res W A) : Prop :=
  match r with
  | Panic msg _ => msg <> PANIC_NIL
  | _ => True
  end.

(** From states that satisfy [P] the computation does not dereference nil,
    and when it runs to its end the result and state satisfy [Q]. *)
Definition triple {A} (P : @St W -> Prop) (m : @M W A) (Q : A -> @St W -> Prop) : Prop :=
  forall s, P s ->
    match m s with
    | Ok a s' => Q a s'
    | Panic msg _ => msg <> PANIC_NIL
    | _ => True
    end.

End Descriptions.
(** * Properties *)

Section Properties.
Context {W : Type} (C : @Collab W) (cfg : Flags).

Lemma bind_ok {A B} (m : @M W A) (k : A -> @M W B) s a s' :
  m s = Ok a s' -> bind m k s = k a s'.
Proof. intros H. unfold bind. now rewrite H. Qed.

Lemma bind_assoc_at {A B D} (m : @M W A) (f : A -> @M W B) (g : B -> @M W D) s :
  bind (bind m f) g s = bind m (fun x => bind (f x) g) s.
Proof. unfold bind. destruct (m s); reflexivity. Qed.

Lemma bind_ret_at {A B} (a : A) (k : A -> @M W B) s : bind (ret a) k s = k a s.
Proof. reflexivity. Qed.

Lemma bind_modify_at {B} (f : St -> St) (k : unit -> @M W B) s :
  bind (modify f) k s = k tt (f s).
Proof. reflexivity. Qed.

Lemma bind_logf_at {B} fmt args (k : unit -> @M W B) s :
  bind (logf fmt args) k s = k tt (emit (Logf fmt args) s).
Proof. reflexivity. Qed.

Lemma bind_get_at {A B} (f : St -> A) (k : A -> @M W B) s :
  bind (get f) k s = k (f s) s.
Proof. reflexivity. Qed.

Lemma St_eq (a b : @St W) :
  hostList a = hostList b -> servers a = servers b -> slaves a = slaves b ->
  master a = master b -> exit a = exit b ->
  dbUser a = dbUser b -> dbPass a = dbPass b ->
  rplUser a = rplUser b -> rplPass a = rplPass b ->
  ignoreList a = ignoreList b -> deferred a = deferred b ->
  heap a = heap b -> world a = world b -> trace a = trace b -> a = b.
Proof. destruct a, b; cbn; intros; subst; reflexivity. Qed.

Lemma Ok_state_inj {A} (a a' : A) (s s' : @St W) : Ok a s = Ok a' s' -> s = s'.
Proof. intros H. now inversion H. Qed.

Lemma bind_ext_at {A B} (m : @M W A) (k1 k2 : A -> @M W B) s :
  (forall a s', k1 a s' = k2 a s') -> bind m k1 s = bind m k2 s.
Proof. intros H. unfold bind. destruct (m s); auto. Qed.

Ltac mnorm :=
  repeat first [ rewrite bind_assoc_at | rewrite bind_ret_at | rewrite bind_modify_at
               | rewrite bind_logf_at | rewrite bind_get_at ].

Lemma index_nat_ok {A} (l : list A) (k : nat) (x : A) (s : @St W) :
  l !! k = Some x -> index l (Z.of_nat k) s = Ok x s.
Proof.
  intros H. unfold index.
  destruct (Z.ltb_spec (Z.of_nat k) 0); [lia|].
  rewrite Nat2Z.id, H. reflexivity.
Qed.

Lemma serverAt_ok (k : nat) (s : @St W) p :
  servers s !! k = Some p -> serverAt k s = Ok p s.
Proof.
  intros H. unfold serverAt, get, bind. now apply index_nat_ok.
Qed.

Lemma deref_ok a (s : @St W) sm :
  heap s !! a = Some sm -> deref (Some a) s = Ok sm s.
Proof. intros H. unfold deref. now rewrite H. Qed.

Lemma setState_ok a (s : @St W) sm v :
  heap s !! a = Some sm ->
  setState (Some a) v s = Ok tt (set_heap (<[a := withState sm v]> (heap s)) s).
Proof.
  intros H. unfold setState, bind. rewrite (deref_ok _ _ _ H).
  unfold store. now rewrite H.
Qed.

Lemma call_refresh_ok a (s : @St W) sm :
  heap s !! a = Some sm ->
  call_refresh C (Some a) s =
  Ok tt (set_heap (<[a := snd (refresh C (world s) sm)]> (heap s))
           (emit (Refresh (URL sm)) (set_world (fst (refresh C (world s) sm)) s))).
Proof.
  intros H. unfold call_refresh. rewrite (bind_ok _ _ _ _ _ (deref_ok _ _ _ H)).
  unfold bind. destruct (refresh C (world s) sm) as [w' sm'] eqn:Hr. cbn.
  unfold store. cbn. now rewrite H.
Qed.

Lemma insert_last {A} (l : list A) (x y : A) :
  <[length l := y]> (l ++ [x]) = l ++ [y].
Proof.
  rewrite insert_app_r_alt by lia. now rewrite Nat.sub_diag.
Qed.

Lemma states_distinct :
  STATE_SLAVE <> STATE_FAILED /\ STATE_SLAVE <> STATE_UNCONN /\
  STATE_FAILED <> STATE_UNCONN /\ STATE_MASTER <> STATE_SLAVE /\
  STATE_MASTER <> STATE_FAILED /\ STATE_MASTER <> STATE_UNCONN.
Proof. repeat split; discriminate. Qed.

Lemma classifyHost_step k url (st : @St W) :
  k < length (servers st) ->
  exists tr,
    classifyHost C cfg k url st =
    Ok tt (mkSt (hostList st)
                (<[k := Some (length (heap st))]> (servers st))
                (slaves st ++
                   (if bool_decide (classOf (snd (probe C (world st) url)) = STATE_SLAVE)
                    then [Some (length (heap st))] else []))
                (master st) (exit st)
                (dbUser st) (dbPass st) (rplUser st) (rplPass st) (ignoreList st)
                (if snd (snd (probe C (world st) url)) then deferred st
                 else Some (length (heap st)) :: deferred st)
                (heap st ++ [finalNode (snd (probe C (world st) url))])
                (fst (probe C (world st) url))
                (trace st ++ Connect url :: tr)).
Proof.
  intros Hk. unfold classifyHost, probe, classOf, finalNode, call_newServerMonitor.
  unfold bind at 1.
  destruct (newServerMonitor C (world st) url) as [w1 [sm err]] eqn:Hn.
  cbn [fst snd].
  unfold bind at 1. unfold assignServer at 1. cbn [servers emit set_world set_heap].
  rewrite decide_True by lia.
  set (a := length (heap st)).
  assert (Hsrv : (<[k:=Some a]> (servers st)) !! k = Some (Some a))
    by (apply list_lookup_insert_eq; exact Hk).
  assert (Hh : (heap st ++ [sm]) !! a = Some sm)
    by (apply list_lookup_middle; reflexivity).
  destruct err.
  - destruct (verbose cfg); cbn [when].
    all: repeat (first [ rewrite bind_assoc_at
                 | rewrite bind_ret_at | rewrite bind_logf_at | rewrite bind_modify_at
                 | rewrite bind_get_at
                 | erewrite bind_ok by (apply serverAt_ok; cbn; exact Hsrv)
                 | erewrite bind_ok by (apply deref_ok; cbn; exact Hh) ]).
    all: erewrite setState_ok by (cbn; exact Hh).
    all: eexists; apply f_equal; apply St_eq; cbn; try reflexivity.
    all: subst a; rewrite ?insert_last, ?app_nil_r, <- ?app_assoc; reflexivity.
  - destruct (refresh C w1 sm) as [w2 sm'] eqn:Hr. cbn [fst snd].
    assert (Hh' : (<[a := sm']> (heap st ++ [sm])) !! a = Some sm').
    { subst a. rewrite insert_last. apply list_lookup_middle. reflexivity. }
    destruct (verbose cfg); cbn [when].
    all: repeat (first [ rewrite bind_assoc_at
                 | rewrite bind_ret_at | rewrite bind_logf_at | rewrite bind_modify_at
                 | rewrite bind_get_at
                 | erewrite bind_ok by (apply serverAt_ok; cbn; exact Hsrv)
                 | erewrite bind_ok by (apply deref_ok; cbn; exact Hh)
                 | erewrite bind_ok by (apply call_refresh_ok; cbn; exact Hh) ]).
    all: cbn [world emit set_servers set_world set_heap set_deferred heap]; rewrite Hr; cbn [fst snd].
    all: erewrite bind_ok by (apply deref_ok; cbn; exact Hh').
    all: destruct (negb (UsingGtid sm' =? EmptyString)%string); cbn [when].
    all: repeat (first [ rewrite bind_assoc_at
                 | rewrite bind_ret_at | rewrite bind_logf_at | rewrite bind_modify_at
                 | rewrite bind_get_at
                 | erewrite bind_ok by (apply serverAt_ok; cbn; exact Hsrv)
                 | erewrite bind_ok by (apply deref_ok; cbn; exact Hh')
                 | erewrite bind_ok by (apply setState_ok; cbn; exact Hh') ]).
    all: unfold logf, modify, ret; eexists; apply f_equal; apply St_eq; cbn; try reflexivity.
    all: subst a; rewrite ?list_insert_insert_eq, ?insert_last; try reflexivity.
    all: try (rewrite <- ?app_assoc; reflexivity).
    all: try (rewrite bool_decide_true by reflexivity; reflexivity).
    all: rewrite bool_decide_false by discriminate; now rewrite app_nil_r.
Qed.



Lemma probes_length w urls : length (probes C w urls) = length urls.
Proof.
  revert w. induction urls as [|u r IH]; intros w; cbn; [reflexivity|].
  destruct (probe C w u) as [w' a]. cbn. now rewrite IH.
Qed.

Lemma classify_loop urls : forall k (st : @St W),
  k + length urls = length (servers st) ->
  exists st',
    forRange (classifyHost C cfg) k urls st = Ok tt st' /\
    hostList st' = hostList st /\ master st' = master st /\ exit st' = exit st /\
    length (servers st') = length (servers st) /\
    take k (servers st') = take k (servers st) /\
    drop k (servers st') = map Some (seq (length (heap st)) (length urls)) /\
    heap st' = heap st ++ map finalNode (probes C (world st) urls) /\
    slaves st' = slaves st ++
                 map Some (slaveAddrs (length (heap st)) (probes C (world st) urls)) /\
    (exists tr, trace st' = trace st ++ tr /\ forall u, u ∈ urls -> Connect u ∈ tr).
Proof.
  induction urls as [|u r IH]; intros k st Hlen.
  - exists st. cbn in *. rewrite !app_nil_r.
    repeat split; try reflexivity.
    + apply drop_ge. lia.
    + exists []. rewrite app_nil_r. split; [reflexivity|]. intros u Hu. inversion Hu.
  - cbn [forRange length] in *.
    destruct (classifyHost_step k u st) as [tr Hstep]; [lia|].
    rewrite (bind_ok _ _ _ _ _ Hstep).
    match type of Hstep with _ = Ok tt ?s => set (st1 := s) in * end.
    destruct (IH (S k) st1)
      as (st' & Hrun & Hhl & Hm & Hex & Hl & Htk & Hdr & Hhp & Hsl & tr' & Htr & Hcon).
    { subst st1. cbn. rewrite length_insert. lia. }
    exists st'. subst st1. cbn in Hhl, Hm, Hex, Hl, Htk, Hdr, Hhp, Hsl, Htr.
    rewrite length_insert in Hl.
    cbn [probes]. destruct (probe C (world st) u) as [w1 pr] eqn:Hp. cbn [fst snd] in *.
    rewrite length_app in Hdr, Hsl. cbn [length] in Hdr, Hsl.
    rewrite Nat.add_1_r in Hdr, Hsl.
    assert (Hk : servers st' !! k = Some (Some (length (heap st)))).
    { transitivity (take (S k) (servers st') !! k);
        [symmetry; apply lookup_take_lt; lia|].
      rewrite Htk, lookup_take_lt by lia.
      apply list_lookup_insert_eq. lia. }
    repeat split; try assumption.
    + rewrite (take_S_r _ _ _ Hk) in Htk.
      erewrite take_S_r in Htk by (apply list_lookup_insert_eq; lia).
      apply app_inj_tail in Htk. destruct Htk as [Htk _].
      rewrite Htk. apply take_insert_ge. lia.
    + rewrite (drop_S _ _ _ Hk). cbn [seq map]. now rewrite Hdr.
    + rewrite Hhp. cbn [map]. now rewrite <- app_assoc.
    + rewrite Hsl. cbn [slaveAddrs]. rewrite <- app_assoc. f_equal.
      rewrite map_app. f_equal. now destruct (bool_decide _).
    + exists (Connect u :: tr ++ tr'). split.
      * rewrite Htr, <- app_assoc. reflexivity.
      * intros u' Hu'. apply elem_of_cons in Hu'. destruct Hu' as [->|Hu'].
        -- apply elem_of_cons. now left.
        -- apply elem_of_cons. right. apply elem_of_app. right. now apply Hcon.
Qed.

(** The classifier never stops the run; this is the state it leaves. *)
Lemma classify_closed (st : @St W) :
  exists st',
    classify C cfg st = Ok tt st' /\
    hostList st' = hostList st /\ master st' = master st /\ exit st' = exit st /\
    servers st' = map Some (seq (length (heap st)) (length (hostList st))) /\
    heap st' = heap st ++ map finalNode (probes C (world st) (hostList st)) /\
    slaves st' = slaves st ++
       map Some (slaveAddrs (length (heap st)) (probes C (world st) (hostList st))) /\
    (exists tr, trace st' = trace st ++ tr /\
                forall u, u ∈ hostList st -> Connect u ∈ tr).
Proof.
  unfold classify. rewrite bind_get_at, bind_modify_at.
  set (st0 := set_servers _ st).
  destruct (classify_loop (hostList st) 0 st0)
    as (st' & Hrun & Hhl & Hm & Hex & Hl & _ & Hdr & Hhp & Hsl & Htr).
  { subst st0. cbn. now rewrite length_replicate. }
  subst st0. cbn in Hhl, Hm, Hex, Hl, Hdr, Hhp, Hsl, Htr. rewrite drop_0 in Hdr.
  exists st'. repeat split; assumption.
Qed.

Lemma classOf_cases pr :
  (classOf pr = STATE_SLAVE /\ snd pr = false /\ UsingGtid (fst pr) <> EmptyString) \/
  (classOf pr = STATE_FAILED /\ snd pr = true) \/
  (classOf pr = STATE_UNCONN /\ snd pr = false /\ UsingGtid (fst pr) = EmptyString).
Proof.
  unfold classOf. destruct pr as [sm err]; cbn. destruct err.
  - right; left. split; reflexivity.
  - destruct (String.eqb_spec (UsingGtid sm) EmptyString); cbn.
    + right; right. repeat split; assumption.
    + left. repeat split; assumption.
Qed.

Lemma finalNode_gtid pr : UsingGtid (finalNode pr) = UsingGtid (fst pr).
Proof.
  unfold finalNode. destruct (snd pr); [reflexivity|].
  destruct (negb _); reflexivity.
Qed.

Lemma probe_state w u :
  NodeMonitorContract C ->
  State (finalNode (snd (probe C w u))) = classOf (snd (probe C w u)).
Proof.
  intros [Hn Hr]. unfold probe, finalNode, classOf.
  specialize (Hn w u).
  destruct (newServerMonitor C w u) as [w1 [sm err]]. cbn in Hn.
  destruct err; cbn; [reflexivity|].
  specialize (Hr w1 sm).
  destruct (refresh C w1 sm) as [w2 sm']. cbn in *.
  destruct (negb _); cbn; [reflexivity|].
  rewrite Hr. now apply Hn.
Qed.

Lemma probes_state urls : forall w pr,
  NodeMonitorContract C -> pr ∈ probes C w urls ->
  State (finalNode pr) = classOf pr.
Proof.
  induction urls as [|u r IH]; intros w pr HC Hin; cbn in Hin.
  - inversion Hin.
  - pose proof (probe_state w u HC) as Hs.
    destruct (probe C w u) as [w' a]. cbn in Hs.
    apply elem_of_cons in Hin. destruct Hin as [->|Hin]; [exact Hs|].
    now apply (IH w').
Qed.

Lemma filter_slaves prs : forall a (h : list ServerMonitor),
  (forall i pr, prs !! i = Some pr ->
     h !! (a + i) = Some (finalNode pr) /\ State (finalNode pr) = classOf pr) ->
  filter (fun p => stateAt h p = Some STATE_SLAVE) (map Some (seq a (length prs)))
  = map Some (slaveAddrs a prs).
Proof.
  induction prs as [|pr r IH]; intros a h Hh; [reflexivity|].
  cbn [length seq map slaveAddrs].
  destruct (Hh 0 pr eq_refl) as [H0 Hst]. rewrite Nat.add_0_r in H0.
  assert (Hr : filter (fun p => stateAt h p = Some STATE_SLAVE)
                 (map Some (seq (S a) (length r))) = map Some (slaveAddrs (S a) r)).
  { apply IH. intros i pr' Hi. specialize (Hh (S i) pr' Hi).
    now rewrite Nat.add_succ_r in Hh. }
  rewrite map_app, <- Hr.
  assert (Hs : stateAt h (Some a) = Some (classOf pr)).
  { unfold stateAt, nodeAt. rewrite H0. cbn. now rewrite Hst. }
  destruct (bool_decide_reflect (classOf pr = STATE_SLAVE)) as [Hc|Hc].
  - rewrite filter_cons_True; [reflexivity|]. now rewrite Hs, Hc.
  - rewrite filter_cons_False; [reflexivity|]. rewrite Hs. congruence.
Qed.

(** C7: for a host list of any size N the classifier never stops the run
    and leaves exactly N entries in [servers]; the node behind entry [k] is
    in exactly one of three states, Failed when the connection to host [k]
    failed, Slave when it succeeded and the refreshed [UsingGtid] is not
    empty, Unconnected when it succeeded and [UsingGtid] is empty; and
    [slaves] holds exactly the entries of [servers] whose node is a Slave,
    in the order of the host list. *)
Theorem classify_partition (st : @St W) :
  NodeMonitorContract C ->
  slaves st = [] ->
  exists st',
    classify C cfg st = Ok tt st' /\
    length (servers st') = length (hostList st) /\
    (forall k, k < length (hostList st) ->
       exists p sm pr,
         servers st' !! k = Some p /\
         nodeAt (heap st') p = Some sm /\
         probes C (world st) (hostList st) !! k = Some pr /\
         UsingGtid sm = UsingGtid (fst pr) /\
         ((State sm = STATE_SLAVE /\ snd pr = false /\ UsingGtid sm <> EmptyString) \/
          (State sm = STATE_FAILED /\ snd pr = true) \/
          (State sm = STATE_UNCONN /\ snd pr = false /\ UsingGtid sm = EmptyString))) /\
    slaves st' =
      filter (fun p => stateAt (heap st') p = Some STATE_SLAVE) (servers st').
Proof.
  intros HC Hs0.
  destruct (classify_closed st) as (st' & Hrun & _ & _ & _ & Hdr & Hhp & Hsl & _).
  assert (Hl : length (servers st') = length (hostList st))
    by (now rewrite Hdr, length_map, length_seq).
  rewrite Hs0 in Hsl. cbn in Hsl.
  set (prs := probes C (world st) (hostList st)) in *.
  assert (Hlen : length prs = length (hostList st)) by apply probes_length.
  assert (Hnodes : forall i pr, prs !! i = Some pr ->
            heap st' !! (length (heap st) + i) = Some (finalNode pr) /\
            State (finalNode pr) = classOf pr).
  { intros i pr Hi. split.
    - rewrite Hhp. rewrite lookup_app_r by lia.
      replace (length (heap st) + i - length (heap st)) with i by lia.
      rewrite list_lookup_fmap, Hi. reflexivity.
    - apply (probes_state (hostList st) (world st)); [exact HC|].
      apply list_elem_of_lookup. eauto. }
  exists st'. split; [exact Hrun|]. split; [exact Hl|]. split.
  - intros k Hk.
    destruct (lookup_lt_is_Some_2 prs k) as [pr Hpr]; [lia|].
    destruct (Hnodes k pr Hpr) as [Hnode Hst].
    exists (Some (length (heap st) + k)), (finalNode pr), pr.
    split.
    { rewrite Hdr, list_lookup_fmap, lookup_seq_lt by lia. reflexivity. }
    split; [exact Hnode|]. split; [exact Hpr|].
    split; [apply finalNode_gtid|].
    rewrite Hst, finalNode_gtid. apply classOf_cases.
  - rewrite Hsl, Hdr, <- Hlen. symmetry. now apply filter_slaves.
Qed.

(** ** Sibling check *)

Lemma derefAll_ok (st : @St W) : forall l nodes,
  Forall2 (fun p sm => nodeAt (heap st) p = Some sm) l nodes ->
  derefAll l st = Ok nodes st.
Proof.
  induction 1 as [|p sm l nodes Hp _ IH]; [reflexivity|].
  cbn [derefAll]. destruct p as [a|]; [|discriminate].
  rewrite (bind_ok _ _ _ _ _ (deref_ok _ _ _ Hp)).
  rewrite (bind_ok _ _ _ _ _ IH). reflexivity.
Qed.

Lemma checkSiblings_loop (st : @St W) sibs : forall l nodes k,
  Forall2 (fun p sm => nodeAt (heap st) p = Some sm) (slaves st) sibs ->
  Forall2 (fun p sm => nodeAt (heap st) p = Some sm) l nodes ->
  forRange (fun _ sl =>
    bind (deref sl) (fun sm =>
    bind (get slaves) (fun arg =>
    bind (derefAll arg) (fun sib =>
    if negb (hasSiblings C sm sib) then fatal MSG_MULTI_MASTER else ret tt))))
    k l st
  = if forallb (fun sm => hasSiblings C sm sibs) nodes
    then Ok tt st else Fatal MSG_MULTI_MASTER st.
Proof.
  intros l nodes k Hall Hl. revert k.
  induction Hl as [|p sm l nodes Hp _ IH]; intros k; [reflexivity|].
  cbn [forRange forallb]. destruct p as [a|]; [|discriminate].
  rewrite bind_assoc_at.
  rewrite (bind_ok _ _ _ _ _ (deref_ok _ _ _ Hp)).
  rewrite bind_assoc_at, bind_get_at, bind_assoc_at.
  rewrite (bind_ok _ _ _ _ _ (derefAll_ok st _ _ Hall)).
  destruct (hasSiblings C sm sibs); cbn [negb andb].
  - rewrite bind_ret_at. apply IH.
  - reflexivity.
Qed.

Lemma checkSiblings_run (st : @St W) sibs :
  Forall2 (fun p sm => nodeAt (heap st) p = Some sm) (slaves st) sibs ->
  checkSiblings C st
  = if forallb (fun sm => hasSiblings C sm sibs) sibs
    then Ok tt st else Fatal MSG_MULTI_MASTER st.
Proof.
  intros Hall. unfold checkSiblings. rewrite bind_get_at.
  now apply checkSiblings_loop.
Qed.

(** C4: when [hasSiblings] answers false for some slave against the slave
    list, the run ends with the multi-master diagnostic whatever would come
    next (the master locator is never entered and the state is the one the
    classifier left); when it answers true for every slave, the check
    changes nothing and the run goes on with what comes next. *)
Theorem siblings_disagreement_is_fatal (st : @St W) (sibs : list ServerMonitor) :
  Forall2 (fun p sm => nodeAt (heap st) p = Some sm) (slaves st) sibs ->
  (Exists (fun sm => hasSiblings C sm sibs = false) sibs ->
     forall next : @M W unit,
       bind (checkSiblings C) (fun _ => next) st = Fatal MSG_MULTI_MASTER st) /\
  (Forall (fun sm => hasSiblings C sm sibs = true) sibs ->
     forall next : @M W unit,
       bind (checkSiblings C) (fun _ => next) st = next st).
Proof.
  intros Hall. split; intros H next; unfold bind at 1;
    rewrite (checkSiblings_run st sibs Hall).
  - replace (forallb (fun sm => hasSiblings C sm sibs) sibs) with false; [reflexivity|].
    symmetry. apply not_true_is_false. intros Hf.
    rewrite forallb_forall in Hf. apply Exists_exists in H.
    destruct H as (sm & Hin & Hsm). apply list_elem_of_In in Hin.
    specialize (Hf sm Hin). congruence.
  - replace (forallb (fun sm => hasSiblings C sm sibs) sibs) with true; [reflexivity|].
    symmetry. apply forallb_forall. intros sm Hin.
    rewrite Forall_forall in H. apply H. now apply list_elem_of_In.
Qed.


Lemma index_out_of_range {A} (l : list A) (i : Z) (s : @St W) :
  (i < 0 \/ Z.of_nat (length l) <= i)%Z -> index l i s = Panic PANIC_INDEX s.
Proof.
  intros H. unfold index. destruct (Z.ltb_spec i 0); [reflexivity|].
  rewrite lookup_ge_None_2 by lia. reflexivity.
Qed.

Lemma index_in_range {A} (l : list A) (i : Z) (x : A) (s : @St W) :
  (0 <= i)%Z -> l !! Z.to_nat i = Some x -> index l i s = Ok x s.
Proof.
  intros Hi H. unfold index. destruct (Z.ltb_spec i 0); [lia|].
  now rewrite H.
Qed.

(** ** Master locator *)

Lemma foundMaster_ok k a sm (st : @St W) :
  servers st !! k = Some (Some a) ->
  heap st !! a = Some sm ->
  foundMaster cfg k (Some a) st = Ok true (elected cfg st a sm).
Proof.
  intros Hk Ha. unfold foundMaster, elected.
  rewrite (bind_ok _ _ _ _ _ (serverAt_ok _ _ _ Hk)).
  rewrite bind_modify_at, bind_get_at. cbn [master set_master].
  erewrite bind_ok by (apply setState_ok; cbn; exact Ha).
  assert (Hlt : a < length (heap st)) by (eapply lookup_lt_Some; eauto).
  destruct (verbose cfg); cbn [when].
  - rewrite bind_assoc_at.
    erewrite bind_ok
      by (apply deref_ok; cbn; apply list_lookup_insert_eq; exact Hlt).
    rewrite bind_logf_at. reflexivity.
  - rewrite bind_ret_at. unfold ret. apply f_equal, St_eq; cbn; try reflexivity.
    now rewrite app_nil_r.
Qed.

Lemma scan_none (c1 c2 : ServerMonitor -> bool) (st : @St W) : forall l k,
  Forall (passedOver c1 c2 st) l ->
  forRangeBreak (scanBody cfg c1 c2) k l st = Ok tt st.
Proof.
  induction l as [|p l IH]; intros k Hl; [reflexivity|].
  inversion Hl as [|? ? (sm & Hp & Hc) Hl']; subst.
  destruct p as [a|]; [|discriminate].
  cbn [forRangeBreak]. unfold scanBody at 1. rewrite bind_assoc_at.
  rewrite (bind_ok _ _ _ _ _ (deref_ok _ _ _ Hp)).
  destruct (c1 sm); [destruct (c2 sm); [discriminate|]|];
    rewrite bind_ret_at; now apply IH.
Qed.

Lemma scan_found (c1 c2 : ServerMonitor -> bool) (st : @St W) a sm l2 :
  forall l1 k,
  servers st !! (k + length l1) = Some (Some a) ->
  Forall (passedOver c1 c2 st) l1 ->
  heap st !! a = Some sm -> c1 sm = true -> c2 sm = true ->
  forRangeBreak (scanBody cfg c1 c2) k (l1 ++ Some a :: l2) st
  = Ok tt (elected cfg st a sm).
Proof.
  induction l1 as [|p l1 IH]; intros k Hk Hl Ha H1 H2.
  - cbn [app forRangeBreak]. unfold scanBody. rewrite bind_assoc_at.
    rewrite (bind_ok _ _ _ _ _ (deref_ok _ _ _ Ha)). rewrite H1, H2.
    cbn in Hk. rewrite Nat.add_0_r in Hk.
    rewrite (bind_ok _ _ _ _ _ (foundMaster_ok _ _ _ _ Hk Ha)). reflexivity.
  - inversion Hl as [|? ? (sm' & Hp & Hc) Hl']; subst.
    destruct p as [a'|]; [|discriminate].
    cbn [app forRangeBreak]. unfold scanBody at 1. rewrite bind_assoc_at.
    rewrite (bind_ok _ _ _ _ _ (deref_ok _ _ _ Hp)).
    assert (Hstep : forRangeBreak (scanBody cfg c1 c2) (S k) (l1 ++ Some a :: l2) st
                    = Ok tt (elected cfg st a sm)).
    { apply IH; try assumption. cbn [length] in Hk.
      now rewrite Nat.add_succ_r in Hk. }
    destruct (c1 sm'); [destruct (c2 sm'); [discriminate|]|];
      rewrite bind_ret_at; exact Hstep.
Qed.


Lemma skipped_serverId sid (st : @St W) l :
  Forall (skipped (matchesServerId sid) st) l ->
  Forall (passedOver (fun sm => String.eqb (State sm) STATE_UNCONN)
                     (fun sm => N.eqb (ServerId sm) sid) st) l.
Proof.
  intros HF. eapply Forall_impl; [exact HF|]. intros p (sm & Hp & Hn). exists sm. split; [exact Hp|].
  apply not_true_is_false. intros Hb. apply Hn.
  apply andb_true_iff in Hb. destruct Hb as [H1 H2].
  split; [now apply String.eqb_eq | now apply N.eqb_eq].
Qed.

Lemma skipped_host smh (st : @St W) l :
  Forall (skipped (matchesHost smh) st) l ->
  Forall (passedOver (fun sm => String.eqb (State sm) STATE_FAILED)
                     (fun sm => String.eqb (Host sm) smh || String.eqb (IP sm) smh)
                     st) l.
Proof.
  intros HF. eapply Forall_impl; [exact HF|]. intros p (sm & Hp & Hn). exists sm. split; [exact Hp|].
  apply not_true_is_false. intros Hb. apply Hn.
  apply andb_true_iff in Hb. destruct Hb as [H1 H2].
  split; [now apply String.eqb_eq|].
  apply orb_true_iff in H2. destruct H2 as [H2|H2]; apply String.eqb_eq in H2; auto.
Qed.

Lemma usesServerIdPath_true :
  switchover cfg <> EmptyString \/ failover cfg = "monitor"%string ->
  usesServerIdPath cfg = true.
Proof.
  unfold usesServerIdPath. intros [H|H].
  - apply orb_true_iff. left. apply negb_true_iff. now apply String.eqb_neq.
  - apply orb_true_iff. right. now apply String.eqb_eq.
Qed.

Lemma usesServerIdPath_false :
  switchover cfg = EmptyString -> failover cfg <> "monitor"%string ->
  usesServerIdPath cfg = false.
Proof.
  unfold usesServerIdPath. intros H1 H2.
  apply orb_false_iff. split.
  - apply negb_false_iff. now apply String.eqb_eq.
  - now apply String.eqb_neq.
Qed.

(** C1: on the switchover / monitor-failover path the locator takes the
    [MasterServerId] of the first slave, passes over the nodes of [servers]
    in order, and designates the first Unconnected node whose [ServerId] is
    that identity: [master] points to it and its [State] is Master; with no
    such node (and [master] still nil) the run ends with the
    could-not-autodetect diagnostic. *)
Theorem locate_master_by_server_id (st : @St W) p0 rest s0 :
  switchover cfg <> EmptyString \/ failover cfg = "monitor"%string ->
  slaves st = p0 :: rest ->
  nodeAt (heap st) p0 = Some s0 ->
  (forall l1 a l2 sm,
     servers st = l1 ++ Some a :: l2 ->
     Forall (skipped (matchesServerId (MasterServerId s0)) st) l1 ->
     heap st !! a = Some sm ->
     matchesServerId (MasterServerId s0) sm ->
     bind (locateMaster cfg) (fun _ => finalCheck) st = Ok tt (elected cfg st a sm) /\
     servers st !! length l1 = Some (master (elected cfg st a sm)) /\
     stateAt (heap (elected cfg st a sm)) (Some a) = Some STATE_MASTER) /\
  (master st = nil_ptr ->
   Forall (skipped (matchesServerId (MasterServerId s0)) st) (servers st) ->
   bind (locateMaster cfg) (fun _ => finalCheck) st = Fatal MSG_NO_MASTER st).
Proof.
  intros Hmode Hsl Hp0.
  assert (Hhead : forall B (k : ServerMonitor -> @M W B),
            bind (get slaves) (fun sls => bind (index sls 0%Z) (fun p =>
              bind (deref p) k)) st = k s0 st).
  { intros B k. rewrite bind_get_at, Hsl.
    erewrite bind_ok by (apply (index_in_range _ 0%Z p0); [lia|reflexivity]).
    destruct p0 as [a0|]; [|discriminate].
    now rewrite (bind_ok _ _ _ _ _ (deref_ok _ _ _ Hp0)). }
  split.
  - intros l1 a l2 sm Hsv Hl1 Ha [Hst Hid].
    assert (Hk : servers st !! (0 + length l1) = Some (Some a)).
    { rewrite Hsv. cbn. apply list_lookup_middle. reflexivity. }
    split; [|split].
    + unfold bind at 1, locateMaster. rewrite (usesServerIdPath_true Hmode).
      rewrite Hhead, bind_get_at. rewrite Hsv at 1.
      erewrite (scan_found (fun sm => String.eqb (State sm) STATE_UNCONN)
                  (fun sm => N.eqb (ServerId sm) (MasterServerId s0)));
        [reflexivity | exact Hk | now apply skipped_serverId | exact Ha
        | now apply String.eqb_eq | now apply N.eqb_eq].
    + exact Hk.
    + unfold stateAt, nodeAt, elected. cbn.
      rewrite list_lookup_insert_eq by (eapply lookup_lt_Some; eauto).
      reflexivity.
  - intros Hm Hall.
    unfold bind at 1, locateMaster. rewrite (usesServerIdPath_true Hmode).
    rewrite Hhead, bind_get_at.
    rewrite (scan_none (fun sm => String.eqb (State sm) STATE_UNCONN)
               (fun sm => N.eqb (ServerId sm) (MasterServerId s0)))
      by now apply skipped_serverId.
    unfold finalCheck. rewrite bind_get_at, Hm. reflexivity.
Qed.

(** C2: on the forced-failover path (failover mode other than monitor) the
    locator takes the [MasterHost] of the first slave, passes over the nodes
    of [servers] in order, and designates the first Failed node whose [Host]
    or [IP] is that location; with no such node (and [master] still nil) the
    run ends fatally. *)
Theorem locate_master_by_host (st : @St W) p0 rest s0 :
  switchover cfg = EmptyString -> failover cfg <> "monitor"%string ->
  slaves st = p0 :: rest ->
  nodeAt (heap st) p0 = Some s0 ->
  (forall l1 a l2 sm,
     servers st = l1 ++ Some a :: l2 ->
     Forall (skipped (matchesHost (MasterHost s0)) st) l1 ->
     heap st !! a = Some sm ->
     matchesHost (MasterHost s0) sm ->
     bind (locateMaster cfg) (fun _ => finalCheck) st = Ok tt (elected cfg st a sm) /\
     servers st !! length l1 = Some (master (elected cfg st a sm)) /\
     stateAt (heap (elected cfg st a sm)) (Some a) = Some STATE_MASTER) /\
  (master st = nil_ptr ->
   Forall (skipped (matchesHost (MasterHost s0)) st) (servers st) ->
   bind (locateMaster cfg) (fun _ => finalCheck) st = Fatal MSG_NO_MASTER st).
Proof.
  intros Hso Hfo Hsl Hp0.
  assert (Hhead : forall B (k : ServerMonitor -> @M W B),
            bind (get slaves) (fun sls => bind (index sls 0%Z) (fun p =>
              bind (deref p) k)) st = k s0 st).
  { intros B k. rewrite bind_get_at, Hsl.
    erewrite bind_ok by (apply (index_in_range _ 0%Z p0); [lia|reflexivity]).
    destruct p0 as [a0|]; [|discriminate].
    now rewrite (bind_ok _ _ _ _ _ (deref_ok _ _ _ Hp0)). }
  split.
  - intros l1 a l2 sm Hsv Hl1 Ha [Hst Hloc].
    assert (Hk : servers st !! (0 + length l1) = Some (Some a)).
    { rewrite Hsv. cbn. apply list_lookup_middle. reflexivity. }
    split; [|split].
    + unfold bind at 1, locateMaster. rewrite (usesServerIdPath_false Hso Hfo).
      rewrite Hhead, bind_get_at. rewrite Hsv at 1.
      erewrite (scan_found (fun sm => String.eqb (State sm) STATE_FAILED)
                  (fun sm => String.eqb (Host sm) (MasterHost s0)
                             || String.eqb (IP sm) (MasterHost s0)));
        [reflexivity | exact Hk | now apply skipped_host | exact Ha
        | now apply String.eqb_eq | ].
      apply orb_true_iff. destruct Hloc as [H|H]; [left|right]; now apply String.eqb_eq.
    + exact Hk.
    + unfold stateAt, nodeAt, elected. cbn.
      rewrite list_lookup_insert_eq by (eapply lookup_lt_Some; eauto).
      reflexivity.
  - intros Hm Hall.
    unfold bind at 1, locateMaster. rewrite (usesServerIdPath_false Hso Hfo).
    rewrite Hhead, bind_get_at.
    rewrite (scan_none (fun sm => String.eqb (State sm) STATE_FAILED)
               (fun sm => String.eqb (Host sm) (MasterHost s0)
                          || String.eqb (IP sm) (MasterHost s0)))
      by now apply skipped_host.
    unfold finalCheck. rewrite bind_get_at, Hm. reflexivity.
Qed.


(** ** Empty slave list *)

Lemma locateMaster_no_slaves (st : @St W) :
  slaves st = [] -> locateMaster cfg st = Panic PANIC_INDEX st.
Proof.
  intros Hs. unfold locateMaster.
  destruct (usesServerIdPath cfg); rewrite bind_get_at, Hs; reflexivity.
Qed.

Lemma slaveAddrs_none prs : forall a,
  (forall pr, pr ∈ prs -> snd pr = true \/ UsingGtid (fst pr) = EmptyString) ->
  slaveAddrs a prs = [].
Proof.
  induction prs as [|pr r IH]; intros a H; [reflexivity|].
  cbn [slaveAddrs]. rewrite IH by (intros pr' Hin; apply H; now apply elem_of_cons; right).
  rewrite bool_decide_false; [reflexivity|].
  destruct (classOf_cases pr) as [(Hc & He & Hg)|[(Hc & _)|(Hc & _)]].
  - destruct (H pr) as [H1|H1]; [apply elem_of_cons; now left| |]; congruence.
  - rewrite Hc. discriminate.
  - rewrite Hc. discriminate.
Qed.

(** C8: when no host ends up in the slave list (every connection fails, or
    every connected host reports no replication), both locator paths index
    the empty list and the start-up panics with index out of range; it does
    not end with the could-not-autodetect diagnostic. *)
Theorem empty_slave_list_panics (st : @St W) :
  slaves st = [] ->
  (forall pr, pr ∈ probes C (world st) (hostList st) ->
              snd pr = true \/ UsingGtid (fst pr) = EmptyString) ->
  exists st',
    bootstrap C cfg st = Panic PANIC_INDEX st' /\
    slaves st' = [] /\ master st' = master st /\
    bootstrap C cfg st <> Fatal MSG_NO_MASTER st'.
Proof.
  intros Hs Hall.
  destruct (classify_closed st) as (st' & Hrun & _ & Hm & _ & _ & _ & Hsl & _).
  rewrite Hs, (slaveAddrs_none _ _ Hall) in Hsl. cbn in Hsl.
  assert (Hb : bootstrap C cfg st = Panic PANIC_INDEX st').
  { unfold bootstrap. rewrite (bind_ok _ _ _ _ _ Hrun).
    unfold bind at 1, checkSiblings. rewrite bind_get_at, Hsl. cbn [forRange].
    unfold ret. unfold bind. now rewrite (locateMaster_no_slaves st' Hsl). }
  exists st'. repeat split; try assumption. rewrite Hb. discriminate.
Qed.


(** ** Promotion calls *)

Lemma call_failover_eq (st : @St W) w' touch r :
  sm_failover C (world st) (heap st) (slaves st) (master st) = (w', touch, r) ->
  call_failover C st = Ok r (afterCall (CallFailover (master st)) w' touch st).
Proof. intros H. unfold call_failover. now rewrite H. Qed.

Lemma call_switchover_eq (st : @St W) w' touch r :
  sm_switchover C (world st) (heap st) (slaves st) (master st) = (w', touch, r) ->
  call_switchover C st = Ok r (afterCall (CallSwitchover (master st)) w' touch st).
Proof. intros H. unfold call_switchover. now rewrite H. Qed.

Lemma call_newServerMonitor_eq (st : @St W) url :
  call_newServerMonitor C url st
  = Ok (Some (length (heap st)), snd (snd (newServerMonitor C (world st) url)))
       (afterConnect C url st).
Proof.
  unfold call_newServerMonitor, afterConnect.
  now destruct (newServerMonitor C (world st) url) as [w1 [sm err]].
Qed.

Lemma removeSlave_out_of_range (i : Z) (s : @St W) :
  (i < 0 \/ Z.of_nat (length (slaves s)) <= i)%Z ->
  removeSlave i s = Panic PANIC_SLICE s.
Proof.
  intros H. unfold removeSlave. destruct (Z.ltb_spec i 0); [reflexivity|].
  destruct (Z.ltb_spec (Z.of_nat (length (slaves s))) (i + 1)); [reflexivity|lia].
Qed.

Lemma removeSlave_in_range (i : Z) (s : @St W) :
  (0 <= i < Z.of_nat (length (slaves s)))%Z ->
  removeSlave i s = Ok tt (set_slaves (delete (Z.to_nat i) (slaves s)) s).
Proof.
  intros H. unfold removeSlave. destruct (Z.ltb_spec i 0); [lia|].
  destruct (Z.ltb_spec (Z.of_nat (length (slaves s))) (i + 1)); [lia|].
  rewrite delete_take_drop.
  replace (Z.to_nat (i + 1)) with (S (Z.to_nat i)) by lia. reflexivity.
Qed.

(** C9: after [failover()] answered, the exit path looks at the URL only.
    With a non-empty URL and an index outside the slave list the removal
    panics, after [master] was already replaced; the Ctrl-S handler given
    the same kind of answer with a negative index changes nothing beyond
    what the call itself did. *)
Theorem failover_index_is_not_validated (st : @St W) w' touch url key :
  url <> EmptyString ->
  (key < 0 \/ Z.of_nat (length (slaves st)) <= key)%Z ->
  (sm_failover C (world st) (heap st) (slaves st) (master st) = (w', touch, (url, key)) ->
   exists st',
     restartAfterFailover C cfg st = Panic PANIC_SLICE st' /\
     master st' = Some (length (heap st)) /\ slaves st' = slaves st) /\
  (sm_switchover C (world st) (heap st) (slaves st) (master st) = (w', touch, (url, key)) ->
   (key < 0)%Z ->
   onCtrlS C cfg st = Ok tt (afterCall (CallSwitchover (master st)) w' touch st)).
Proof.
  intros Hurl Hkey. split.
  - intros Hcall. unfold restartAfterFailover.
    rewrite bind_modify_at. erewrite bind_ok by (apply call_failover_eq; exact Hcall).
    cbn [fst snd]. apply String.eqb_neq in Hurl. rewrite Hurl. cbn [negb].
    rewrite !bind_assoc_at.
    destruct (verbose cfg); cbn [when];
      rewrite ?bind_logf_at, ?bind_ret_at, bind_assoc_at;
      rewrite (bind_ok _ _ _ _ _ (call_newServerMonitor_eq _ _));
      rewrite bind_assoc_at, bind_modify_at;
      unfold bind; rewrite removeSlave_out_of_range by exact Hkey;
      eexists; (split; [reflexivity|]); cbn; rewrite length_imap; split; reflexivity.
  - intros Hcall Hneg. unfold onCtrlS.
    erewrite bind_ok by (apply call_switchover_eq; exact Hcall).
    cbn [fst snd]. destruct (Z.leb_spec 0 key); [lia|].
    rewrite andb_false_r. reflexivity.
Qed.


(** ** The monitoring loop *)

Lemma assignSlave_in_range (i : Z) (q : ptr) (s : @St W) :
  (0 <= i)%Z -> Z.to_nat i < length (slaves s) ->
  assignSlave i q s = Ok tt (set_slaves (<[Z.to_nat i := q]> (slaves s)) s).
Proof.
  intros Hi Hlt. unfold assignSlave. destruct (Z.ltb_spec i 0); [lia|].
  now rewrite decide_True.
Qed.

Lemma handleInput_ctrlS (st st2 : @St W) ch cmd :
  onCtrlS C cfg st = Ok tt st2 ->
  handleInput C cfg (Term (mkTbEvent EventKey KeyCtrlS ch)) cmd st
  = Ok cmd (if Ascii.eqb ch "s" then emit TermboxSync st2 else st2).
Proof.
  intros H. unfold handleInput. cbn [evType evKey evCh].
  change (N.eqb EventKey EventKey) with true.
  change (N.eqb KeyCtrlS KeyCtrlS) with true.
  change (N.eqb KeyCtrlS KeyCtrlF) with false.
  change (N.eqb KeyCtrlS KeyCtrlQ) with false. cbn iota.
  rewrite !bind_assoc_at. rewrite (bind_ok _ _ _ _ _ H).
  repeat first [rewrite bind_assoc_at | rewrite bind_ret_at].
  destruct (Ascii.eqb ch "s"); [rewrite bind_modify_at|rewrite bind_ret_at]; reflexivity.
Qed.

Lemma monitor_continues (st st3 : @St W) i rest cmd cmd' :
  iteration C cfg i cmd st = Ok cmd' st3 -> exit st3 = false ->
  monitor C cfg (i :: rest) cmd st = monitor C cfg rest cmd' st3.
Proof.
  intros Hit Hex. cbn [monitor]. rewrite (bind_ok _ _ _ _ _ Hit).
  rewrite bind_get_at, Hex. reflexivity.
Qed.

Lemma detectFailure_quiet (st : @St W) m sm cmd :
  master st = Some m -> heap st !! m = Some sm ->
  interactive cfg = true \/ State sm <> STATE_FAILED ->
  detectFailure cfg cmd st = Ok cmd st.
Proof.
  intros Hm Hsm Hq. unfold detectFailure.
  rewrite bind_get_at, Hm. rewrite (bind_ok _ _ _ _ _ (deref_ok _ _ _ Hsm)).
  destruct Hq as [Hi|Hs].
  - rewrite Hi. now rewrite andb_false_r.
  - apply String.eqb_neq in Hs. now rewrite Hs.
Qed.

(** C5: a Ctrl-S event in the monitoring loop.  When [switchover()] answers
    a non-empty URL and an index that names a slot of the slave list, the
    handler puts a newly connected node behind [master] and another in that
    slot, and nothing else changes: the other slots, the length of the
    slave list, [servers], the nodes already stored and the exit flag are
    as the call left them.  When the answer is empty (no URL, or a negative
    index) the handler changes nothing.  The event as the loop body handles
    it leaves exactly the state the handler left (with [termbox.Sync]
    recorded when the event carries the character s): the host list,
    [servers], [slaves], [master], the store and the exit flag are those of
    the handler.  With the exit flag clear the loop goes on with the next
    input from that state, unless the failure detection at the end of the
    body fires; in interactive mode, or when the master's node is not
    Failed, it does not. *)
Theorem manual_switchover_frame (st : @St W) w' touch url key :
  sm_switchover C (world st) (heap st) (slaves st) (master st)
    = (w', touch, (url, key)) ->
  let st1 := afterCall (CallSwitchover (master st)) w' touch st in
  (url <> EmptyString -> (0 <= key)%Z ->
   forall a sm,
     slaves st !! Z.to_nat key = Some (Some a) ->
     heap st1 !! a = Some sm ->
     exists st2,
       onCtrlS C cfg st = Ok tt st2 /\
       master st2 = Some (length (heap st)) /\
       nodeAt (heap st2) (master st2) = Some (fst (snd (newServerMonitor C w' url))) /\
       slaves st2 = <[Z.to_nat key := Some (S (length (heap st)))]> (slaves st) /\
       (exists w2, nodeAt (heap st2) (Some (S (length (heap st))))
                   = Some (fst (snd (newServerMonitor C w2 (URL sm))))) /\
       length (slaves st2) = length (slaves st) /\
       (forall j, j <> Z.to_nat key -> slaves st2 !! j = slaves st !! j) /\
       servers st2 = servers st /\ hostList st2 = hostList st /\
       exit st2 = exit st /\
       (forall b, b < length (heap st) -> heap st2 !! b = heap st1 !! b)) /\
  (url = EmptyString \/ (key < 0)%Z -> onCtrlS C cfg st = Ok tt st1) /\
  (forall st2, onCtrlS C cfg st = Ok tt st2 ->
   forall ch cmd rest,
     let ev := Term (mkTbEvent EventKey KeyCtrlS ch) in
     let st3 := if Ascii.eqb ch "s" then emit TermboxSync st2 else st2 in
     handleInput C cfg ev cmd st = Ok cmd st3 /\
     hostList st3 = hostList st2 /\ servers st3 = servers st2 /\
     slaves st3 = slaves st2 /\ master st3 = master st2 /\
     heap st3 = heap st2 /\ exit st3 = exit st2 /\
     (exit st2 = false ->
      (detectFailure cfg cmd st3 = Ok cmd st3 ->
       monitor C cfg (ev :: rest) cmd st = monitor C cfg rest cmd st3) /\
      (forall m sm,
         master st2 = Some m -> heap st2 !! m = Some sm ->
         interactive cfg = true \/ State sm <> STATE_FAILED ->
         monitor C cfg (ev :: rest) cmd st = monitor C cfg rest cmd st3))).
Proof.
  intros Hcall st1. split; [|split].
  - intros Hurl Hkey a sm Hslot Hnode.
    assert (Hlen1 : length (heap st1) = length (heap st))
      by (subst st1; cbn; apply length_imap).
    assert (Ha : a < length (heap st)) by (rewrite <- Hlen1; eapply lookup_lt_Some; eauto).
    assert (Hk : Z.to_nat key < length (slaves st)) by (eapply lookup_lt_Some; eauto).
    unfold onCtrlS.
    rewrite (bind_ok _ _ _ _ _ (call_switchover_eq _ _ _ _ Hcall)).
    cbn [fst snd]. fold st1.
    apply String.eqb_neq in Hurl. rewrite Hurl.
    destruct (Z.leb_spec 0 key); [|lia]. cbn [negb andb].
    set (st1v := if verbose cfg
                 then emit (Logf "DEBUG: Reinstancing new master: %s and new slave: %s [%d]"
                              [ArgS url; ArgS (URL sm); ArgD key]) st1
                 else st1).
    assert (Hv : forall B (k : unit -> @M W B),
              bind (when (verbose cfg)
                 (bind (get slaves) (fun sls => bind (index sls key) (fun p =>
                    bind (deref p) (fun sm0 =>
                      logf "DEBUG: Reinstancing new master: %s and new slave: %s [%d]"
                        [ArgS url; ArgS (URL sm0); ArgD key]))))) k st1 = k tt st1v).
    { intros B k. subst st1v. destruct (verbose cfg); cbn [when]; [|reflexivity].
      mnorm. erewrite bind_ok by (apply index_in_range; [lia|exact Hslot]).
      mnorm. erewrite bind_ok by (apply deref_ok; exact Hnode).
      mnorm. reflexivity. }
    rewrite Hv.
    assert (Hf1 : heap st1v = heap st1 /\ slaves st1v = slaves st /\ world st1v = w'
                  /\ servers st1v = servers st /\ hostList st1v = hostList st
                  /\ exit st1v = exit st).
    { subst st1v. destruct (verbose cfg); repeat split. }
    destruct Hf1 as (Hh1 & Hs1 & Hw1 & Hsv1 & Hhl1 & Hex1).
    rewrite (bind_ok _ _ _ _ _ (call_newServerMonitor_eq _ _)).
    rewrite bind_modify_at, bind_get_at. cbn [fst].
    set (st2 := set_master _ (afterConnect C url st1v)).
    assert (Hslot2 : slaves st2 !! Z.to_nat key = Some (Some a))
      by (subst st2; cbn; now rewrite Hs1).
    assert (Hnode2 : heap st2 !! a = Some sm).
    { subst st2. cbn. rewrite Hh1. rewrite lookup_app_l by lia. exact Hnode. }
    erewrite bind_ok by (apply index_in_range; [lia|exact Hslot2]).
    erewrite bind_ok by (apply deref_ok; exact Hnode2).
    rewrite (bind_ok _ _ _ _ _ (call_newServerMonitor_eq _ _)). cbn [fst].
    rewrite assignSlave_in_range; [|lia|cbn; now rewrite Hs1].
    eexists. split; [reflexivity|].
    cbn. rewrite Hh1, Hs1, Hw1, Hsv1, Hhl1, Hex1, Hlen1.
    rewrite length_app, Hlen1. cbn [length]. rewrite Nat.add_1_r.
    repeat split.
    + rewrite lookup_app_l by (rewrite length_app; cbn [length]; lia).
      rewrite lookup_app_r by lia. rewrite Hlen1, Nat.sub_diag. reflexivity.
    + eexists. rewrite lookup_app_r by (rewrite length_app; cbn [length]; lia).
      rewrite length_app, Hlen1. cbn [length].
      replace (S (length (heap st)) - (length (heap st) + 1)) with 0 by lia.
      reflexivity.
    + apply length_insert.
    + intros j Hj. apply list_lookup_insert_ne. congruence.
    + intros b Hb. rewrite <- app_assoc. rewrite lookup_app_l by lia. reflexivity.
  - intros Hempty. unfold onCtrlS.
    rewrite (bind_ok _ _ _ _ _ (call_switchover_eq _ _ _ _ Hcall)).
    cbn [fst snd]. fold st1. destruct Hempty as [->|Hneg].
    + reflexivity.
    + destruct (Z.leb_spec 0 key); [lia|]. now rewrite andb_false_r.
  - intros st2 Hrun ch cmd rest ev st3.
    pose proof (handleInput_ctrlS st st2 ch cmd Hrun) as Hh. fold st3 in Hh.
    assert (Hfr : hostList st3 = hostList st2 /\ servers st3 = servers st2 /\
                  slaves st3 = slaves st2 /\ master st3 = master st2 /\
                  heap st3 = heap st2 /\ exit st3 = exit st2)
      by (subst st3; destruct (Ascii.eqb ch "s"); repeat split).
    destruct Hfr as (H1 & H2 & H3 & H4 & H5 & H6).
    split; [exact Hh|]. do 6 (split; [assumption|]).
    intros Hfalse.
    assert (Hgo : detectFailure cfg cmd st3 = Ok cmd st3 ->
                  monitor C cfg (ev :: rest) cmd st = monitor C cfg rest cmd st3).
    { intros Hdet. apply monitor_continues.
      - unfold iteration. rewrite (bind_ok _ _ _ _ _ Hh). exact Hdet.
      - congruence. }
    split; [exact Hgo|].
    intros m sm Hm Hsm Hq. apply Hgo.
    apply (detectFailure_quiet st3 m sm); [congruence|congruence|exact Hq].
Qed.


Lemma detectFailure_fires (st : @St W) m sm cmd :
  master st = Some m -> heap st !! m = Some sm ->
  State sm = STATE_FAILED -> interactive cfg = false ->
  detectFailure cfg cmd st = Ok "failover"%string (set_exit true st).
Proof.
  intros Hm Hsm Hst Hi. unfold detectFailure.
  rewrite bind_get_at, Hm. rewrite (bind_ok _ _ _ _ _ (deref_ok _ _ _ Hsm)).
  rewrite Hst, Hi. reflexivity.
Qed.

Lemma monitor_restarts (st0 st_e st_r : @St W) i rest cmd :
  iteration C cfg i cmd st0 = Ok "failover"%string st_e ->
  exit st_e = true ->
  restartAfterFailover C cfg st_e = Ok tt st_r ->
  monitor C cfg (i :: rest) cmd st0 = MainLoop C cfg rest st_r.
Proof.
  intros Hit Hex Hre. cbn [monitor]. rewrite (bind_ok _ _ _ _ _ Hit).
  rewrite bind_get_at, Hex. cbn [negb]. change (String.eqb "failover" "failover") with true.
  cbn iota. rewrite (bind_ok _ _ _ _ _ Hre). reflexivity.
Qed.

(** C3: with the interactive flag off, a loop body that ends with the
    master's [State] being Failed records the command "failover" and sets
    the exit flag, whatever the input was.  The loop is then left,
    [failover()] is called on the master, and on a non-empty answer that
    names a slave the master reference is replaced by a newly connected
    node and that slave leaves the slave list; the restart message is
    logged, the program sleeps 5 seconds, clears the exit flag and goes back
    to the label [MainLoop] with the remaining inputs. *)
Theorem automatic_failover_restarts_monitor
    (st0 st : @St W) i rest cmd cmd1 m sm w' touch url key p :
  interactive cfg = false ->
  handleInput C cfg i cmd st0 = Ok cmd1 st ->
  master st = Some m -> heap st !! m = Some sm -> State sm = STATE_FAILED ->
  sm_failover C (world st) (heap st) (slaves st) (Some m) = (w', touch, (url, key)) ->
  url <> EmptyString -> (0 <= key)%Z -> slaves st !! Z.to_nat key = Some p ->
  iteration C cfg i cmd st0 = Ok "failover"%string (set_exit true st) /\
  exists st_r,
    restartAfterFailover C cfg (set_exit true st) = Ok tt st_r /\
    master st_r = Some (length (heap st)) /\
    nodeAt (heap st_r) (master st_r) = Some (fst (snd (newServerMonitor C w' url))) /\
    slaves st_r = delete (Z.to_nat key) (slaves st) /\
    servers st_r = servers st /\
    exit st_r = false /\
    trace st_r = trace st ++ [TermboxClose; CallFailover (Some m)]
                  ++ (if verbose cfg
                      then [Logf "DEBUG: Reinstancing new master: %s" [ArgS url]]
                      else [])
                  ++ [Connect url; Logf MSG_RESTART []; Sleep 5] /\
    monitor C cfg (i :: rest) cmd st0 = MainLoop C cfg rest st_r.
Proof.
  intros Hi Hin Hm Hsm Hst Hcall Hurl Hkey Hp.
  assert (Hit : iteration C cfg i cmd st0 = Ok "failover"%string (set_exit true st)).
  { unfold iteration. rewrite (bind_ok _ _ _ _ _ Hin).
    now apply (detectFailure_fires st m sm). }
  split; [exact Hit|].
  assert (Hk : Z.to_nat key < length (slaves st)) by (eapply lookup_lt_Some; eauto).
  set (st_e := emit TermboxClose (set_exit true st)).
  set (st_a := afterCall (CallFailover (Some m)) w' touch st_e).
  set (st_v := if verbose cfg
               then emit (Logf "DEBUG: Reinstancing new master: %s" [ArgS url]) st_a
               else st_a).
  set (st_c := set_master (Some (length (heap st_v))) (afterConnect C url st_v)).
  assert (Hfv : heap st_v = imap touch (heap st) /\ slaves st_v = slaves st /\
                world st_v = w' /\ servers st_v = servers st /\
                trace st_v = trace st ++ [TermboxClose; CallFailover (Some m)]
                  ++ (if verbose cfg
                      then [Logf "DEBUG: Reinstancing new master: %s" [ArgS url]]
                      else [])).
  { subst st_v st_a st_e. destruct (verbose cfg); cbn; rewrite <- ?app_assoc;
      repeat split. }
  destruct Hfv as (Hhv & Hsv & Hwv & Hsrv & Htv).
  assert (Hre : restartAfterFailover C cfg (set_exit true st)
                = Ok tt (set_exit false (emit (Sleep 5) (emit (Logf MSG_RESTART [])
                    (set_slaves (delete (Z.to_nat key) (slaves st_c)) st_c))))).
  { unfold restartAfterFailover. rewrite bind_modify_at. fold st_e.
    assert (Hc : call_failover C st_e = Ok (url, key) st_a).
    { unfold call_failover. subst st_a st_e.
      cbn [world heap slaves master emit set_exit]. rewrite Hm, Hcall. reflexivity. }
    rewrite (bind_ok _ _ _ _ _ Hc). cbn [fst snd].
    apply String.eqb_neq in Hurl. rewrite Hurl. cbn [negb].
    assert (Hv : forall B (k : unit -> @M W B),
              bind (when (verbose cfg)
                      (logf "DEBUG: Reinstancing new master: %s" [ArgS url])) k st_a
              = k tt st_v).
    { intros B k. subst st_v. now destruct (verbose cfg). }
    mnorm. rewrite Hv. mnorm.
    rewrite (bind_ok _ _ _ _ _ (call_newServerMonitor_eq _ _)). cbn [fst].
    mnorm. fold st_c.
    rewrite (bind_ok _ _ _ _ _ (removeSlave_in_range key st_c
               ltac:(subst st_c; cbn; rewrite Hsv; lia))).
    mnorm. reflexivity. }
  eexists. split; [exact Hre|].
  assert (Hlen : length (heap st_v) = length (heap st))
    by (rewrite Hhv; apply length_imap).
  split; [|split; [|split; [|split; [|split; [|split]]]]].
  - cbn. now rewrite Hlen.
  - cbn. rewrite Hlen, Hwv. rewrite lookup_app_r by lia.
    rewrite Hlen, Nat.sub_diag. reflexivity.
  - cbn. now rewrite Hsv.
  - cbn. exact Hsrv.
  - reflexivity.
  - cbn. rewrite Htv. rewrite <- !app_assoc. reflexivity.
  - eapply monitor_restarts; [exact Hit|reflexivity|exact Hre].
Qed.


(** ** Failover modes "check" and "monitor" *)

Lemma monitor_check_as_monitor inputs : forall cmd (st : @St W),
  monitor C (failoverFlags cfg "check") inputs cmd st
  = monitor C (failoverFlags cfg "monitor") inputs cmd st.
Proof.
  induction inputs as [|i rest IH]; intros cmd st; [reflexivity|].
  cbn [monitor].
  change (iteration C (failoverFlags cfg "check"))
    with (iteration C (failoverFlags cfg "monitor")).
  change (restartAfterFailover C (failoverFlags cfg "check"))
    with (restartAfterFailover C (failoverFlags cfg "monitor")).
  change (enterMainLoop C (failoverFlags cfg "check"))
    with (enterMainLoop C (failoverFlags cfg "monitor")).
  apply bind_ext_at; intros c s. apply bind_ext_at; intros ex s'.
  destruct (negb ex); [apply IH|].
  destruct (String.eqb c "failover"); [|reflexivity].
  apply bind_ext_at; intros [] s1. apply bind_ext_at; intros [] s2.
  apply bind_ext_at; intros ex2 s3.
  destruct (negb ex2); [apply IH|reflexivity].
Qed.

(** C10, as the code has it: from the mode dispatch on, failover modes
    "check" and "monitor" are the same program: neither takes the direct
    force-failover or direct-switchover branch, both enter the monitoring
    loop, log the same start-up line and run the same loop.  The master
    locator before it does tell them apart: "monitor" scans Unconnected
    nodes by server id, "check" scans Failed nodes by host or IP. *)
Theorem check_is_monitor_from_dispatch_on inputs (st : @St W) :
  dispatch C (failoverFlags cfg "check") inputs st
    = dispatch C (failoverFlags cfg "monitor") inputs st /\
  dispatch C (failoverFlags cfg "check") inputs st
    = MainLoop C (failoverFlags cfg "check") inputs st /\
  dispatch C (failoverFlags cfg "monitor") inputs st
    = MainLoop C (failoverFlags cfg "monitor") inputs st /\
  enterMainLoop C (failoverFlags cfg "check") st
    = enterMainLoop C (failoverFlags cfg "monitor") st /\
  (snd (termbox_Init C (world st)) = None ->
   enterMainLoop C (failoverFlags cfg "check") st
   = Ok tt (emit (TlogAdd "Monitor started in failover mode")
              (emit TermboxInit (set_world (fst (termbox_Init C (world st))) st)))) /\
  usesServerIdPath (failoverFlags cfg "monitor") = true /\
  usesServerIdPath (failoverFlags cfg "check") = false.
Proof.
  assert (Hm : MainLoop C (failoverFlags cfg "check") inputs st
               = MainLoop C (failoverFlags cfg "monitor") inputs st).
  { unfold MainLoop.
    change (enterMainLoop C (failoverFlags cfg "check"))
      with (enterMainLoop C (failoverFlags cfg "monitor")).
    apply bind_ext_at; intros [] s. apply bind_ext_at; intros ex s'.
    destruct (negb ex); [|reflexivity].
    apply monitor_check_as_monitor. }
  split; [exact Hm|]. do 3 (split; [reflexivity|]).
  split; [|split; reflexivity].
  intros Hinit. unfold enterMainLoop. unfold bind at 1.
  destruct (termbox_Init C (world st)) as [w' e]. cbn in Hinit. subst e.
  reflexivity.
Qed.


(** ** Effects are only ever appended to the trace *)

Lemma extends_refl (s : @St W) : extends s s.
Proof. exists []. now rewrite app_nil_r. Qed.

Lemma extends_trans (s1 s2 s3 : @St W) :
  extends s1 s2 -> extends s2 s3 -> extends s1 s3.
Proof.
  intros [t1 H1] [t2 H2]. exists (t1 ++ t2). now rewrite H2, H1, app_assoc.
Qed.

Lemma extends_same_trace (s s' : @St W) : trace s' = trace s -> extends s s'.
Proof. intros H. exists []. now rewrite app_nil_r. Qed.

Lemma extends_emit e (s : @St W) : extends s (emit e s).
Proof. now exists [e]. Qed.

Lemma appendOnly_ret {A} (a : A) : appendOnly (@ret W A a).
Proof. intros s. apply extends_refl. Qed.

Lemma appendOnly_fatal {A} msg : appendOnly (@fatal W A msg).
Proof. intros s. apply extends_refl. Qed.

Lemma appendOnly_panic {A} msg : appendOnly (@panic W A msg).
Proof. intros s. apply extends_refl. Qed.

Lemma appendOnly_blocked {A} : appendOnly (@blocked W A).
Proof. intros s. apply extends_refl. Qed.

Lemma appendOnly_get {A} (f : @St W -> A) : appendOnly (get f).
Proof. intros s. apply extends_refl. Qed.

Lemma appendOnly_modify (f : @St W -> @St W) :
  (forall s, extends s (f s)) -> appendOnly (modify f).
Proof. intros H s. apply H. Qed.

Lemma appendOnly_bind {A B} (m : @M W A) (k : A -> @M W B) :
  appendOnly m -> (forall a, appendOnly (k a)) -> appendOnly (bind m k).
Proof.
  intros Hm Hk s. unfold bind. specialize (Hm s).
  destruct (m s) as [a s'| | |]; cbn in *; try exact Hm.
  eapply extends_trans; [exact Hm|apply Hk].
Qed.

Lemma appendOnly_when b (m : @M W unit) : appendOnly m -> appendOnly (when b m).
Proof. intros H. destruct b; [exact H|apply appendOnly_ret]. Qed.

Lemma appendOnly_logf fmt args : appendOnly (@logf W fmt args).
Proof. intros s. apply extends_emit. Qed.

Lemma appendOnly_index {A} (l : list A) i : appendOnly (@index W A l i).
Proof.
  intros s. unfold index. destruct (i <? 0)%Z; [apply extends_refl|].
  destruct (l !! Z.to_nat i); apply extends_refl.
Qed.

Lemma appendOnly_deref p : appendOnly (@deref W p).
Proof.
  intros s. unfold deref. destruct p as [a|]; [|apply extends_refl].
  destruct (heap s !! a); apply extends_refl.
Qed.

Lemma appendOnly_store p sm : appendOnly (@store W p sm).
Proof.
  intros s. unfold store. destruct p as [a|]; [|apply extends_refl].
  destruct (heap s !! a); [apply extends_same_trace; reflexivity|apply extends_refl].
Qed.

Lemma appendOnly_serverAt k : appendOnly (@serverAt W k).
Proof.
  unfold serverAt. apply appendOnly_bind; [apply appendOnly_get|].
  intros l. apply appendOnly_index.
Qed.

Lemma appendOnly_setState p v : appendOnly (@setState W p v).
Proof.
  unfold setState. apply appendOnly_bind; [apply appendOnly_deref|].
  intros sm. apply appendOnly_store.
Qed.

Lemma appendOnly_assignSlave i q : appendOnly (@assignSlave W i q).
Proof.
  intros s. unfold assignSlave. destruct (i <? 0)%Z; [apply extends_refl|].
  destruct (decide _); [apply extends_same_trace; reflexivity|apply extends_refl].
Qed.

Lemma appendOnly_removeSlave i : appendOnly (@removeSlave W i).
Proof.
  intros s. unfold removeSlave. destruct (i <? 0)%Z; [apply extends_refl|].
  destruct (_ <? _)%Z; [apply extends_refl|apply extends_same_trace; reflexivity].
Qed.

Lemma appendOnly_call_newServerMonitor url : appendOnly (call_newServerMonitor C url).
Proof.
  intros s. rewrite call_newServerMonitor_eq. eexists [_]; reflexivity.
Qed.

Lemma appendOnly_call_failover : appendOnly (call_failover C).
Proof.
  intros s. unfold call_failover.
  destruct (sm_failover C _ _ _ _) as [[w' t] r]. eexists [_]; reflexivity.
Qed.

Lemma appendOnly_call_switchover : appendOnly (call_switchover C).
Proof.
  intros s. unfold call_switchover.
  destruct (sm_switchover C _ _ _ _) as [[w' t] r]. eexists [_]; reflexivity.
Qed.

Lemma appendOnly_call_display : appendOnly (call_display C).
Proof.
  intros s. unfold call_display.
  destruct (tb_display C _ _ _) as [w' t]. eexists [_]; reflexivity.
Qed.

Lemma appendOnly_forRange {A} (body : nat -> A -> @M W unit) :
  (forall k x, appendOnly (body k x)) ->
  forall l k, appendOnly (forRange body k l).
Proof.
  intros Hb. induction l as [|x l IH]; intros k; cbn [forRange].
  - apply appendOnly_ret.
  - apply appendOnly_bind; [apply Hb|]. intros _. apply IH.
Qed.

Lemma appendOnly_forRangeBreak {A} (body : nat -> A -> @M W bool) :
  (forall k x, appendOnly (body k x)) ->
  forall l k, appendOnly (forRangeBreak body k l).
Proof.
  intros Hb. induction l as [|x l IH]; intros k; cbn [forRangeBreak].
  - apply appendOnly_ret.
  - apply appendOnly_bind; [apply Hb|]. intros [|]; [apply appendOnly_ret|apply IH].
Qed.

Lemma appendOnly_derefAll l : appendOnly (@derefAll W l).
Proof.
  induction l as [|p l IH]; cbn [derefAll]; [apply appendOnly_ret|].
  apply appendOnly_bind; [apply appendOnly_deref|]. intros sm.
  apply appendOnly_bind; [exact IH|]. intros r. apply appendOnly_ret.
Qed.

Ltac mono :=
  repeat first
    [ apply appendOnly_ret | apply appendOnly_fatal | apply appendOnly_panic
    | apply appendOnly_blocked | apply appendOnly_get | apply appendOnly_logf
    | apply appendOnly_index | apply appendOnly_deref | apply appendOnly_store
    | apply appendOnly_serverAt | apply appendOnly_setState
    | apply appendOnly_assignSlave | apply appendOnly_removeSlave
    | apply appendOnly_call_newServerMonitor | apply appendOnly_call_failover
    | apply appendOnly_call_switchover | apply appendOnly_call_display
    | apply appendOnly_derefAll
    | apply appendOnly_when
    | apply appendOnly_forRange; intros
    | apply appendOnly_forRangeBreak; intros
    | apply appendOnly_bind; [|intros]
    | apply appendOnly_modify; intros;
        first [apply extends_emit | apply extends_same_trace; reflexivity]
    | match goal with
      | |- appendOnly (if ?b then _ else _) => destruct b
      | |- appendOnly (match ?x with None => _ | Some _ => _ end) => destruct x
      end ].

Lemma appendOnly_checkSiblings : appendOnly (checkSiblings C).
Proof. unfold checkSiblings. mono. Qed.

Lemma appendOnly_foundMaster k s : appendOnly (@foundMaster W cfg k s).
Proof. unfold foundMaster. mono. Qed.

Lemma appendOnly_locateMaster : appendOnly (@locateMaster W cfg).
Proof.
  unfold locateMaster.
  destruct (usesServerIdPath cfg); mono; apply appendOnly_foundMaster.
Qed.

Lemma appendOnly_finalCheck : appendOnly (@finalCheck W).
Proof. unfold finalCheck. mono. Qed.

Lemma appendOnly_checkSlaves : appendOnly (checkSlaves C cfg).
Proof.
  unfold checkSlaves. mono.
Qed.

Lemma appendOnly_checkPrefMaster : appendOnly (@checkPrefMaster W cfg).
Proof. unfold checkPrefMaster. mono. Qed.

Lemma appendOnly_onCtrlS : appendOnly (onCtrlS C cfg).
Proof. unfold onCtrlS. mono. Qed.

Lemma appendOnly_iteration i cmd : appendOnly (iteration C cfg i cmd).
Proof.
  unfold iteration, handleInput, detectFailure.
  destruct i as [|event]; mono; apply appendOnly_onCtrlS.
Qed.

Lemma appendOnly_enterMainLoop : appendOnly (enterMainLoop C cfg).
Proof.
  unfold enterMainLoop. mono.
  intros s. destruct (termbox_Init C (world s)) as [w' e]. eexists [_]; reflexivity.
Qed.

Lemma appendOnly_restartAfterFailover : appendOnly (restartAfterFailover C cfg).
Proof. unfold restartAfterFailover. mono. Qed.

Lemma appendOnly_monitor inputs : forall cmd, appendOnly (monitor C cfg inputs cmd).
Proof.
  induction inputs as [|i rest IH]; intros cmd; cbn [monitor]; [mono|].
  apply appendOnly_bind; [apply appendOnly_iteration|]. intros c.
  apply appendOnly_bind; [apply appendOnly_get|]. intros ex.
  destruct (negb ex); [apply IH|].
  destruct (String.eqb c "failover"); [|mono].
  apply appendOnly_bind; [apply appendOnly_restartAfterFailover|]. intros _.
  apply appendOnly_bind; [apply appendOnly_enterMainLoop|]. intros _.
  apply appendOnly_bind; [apply appendOnly_get|]. intros ex2.
  destruct (negb ex2); [apply IH|mono].
Qed.

Lemma appendOnly_dispatch inputs : appendOnly (dispatch C cfg inputs).
Proof.
  unfold dispatch, MainLoop.
  destruct (String.eqb (failover cfg) "force"); [mono|].
  destruct (_ && _); [mono|].
  apply appendOnly_bind; [apply appendOnly_enterMainLoop|]. intros _.
  apply appendOnly_bind; [apply appendOnly_get|]. intros ex.
  destruct (negb ex); [apply appendOnly_monitor|mono].
Qed.


(** ** Preferred master *)

Lemma prefInHostList_spec hl :
  prefInHostList cfg hl = true <-> prefMaster cfg ∈ hl.
Proof.
  induction hl as [|v r IH]; cbn [prefInHostList].
  - split; [discriminate|]. intros H. inversion H.
  - destruct (String.eqb_spec v (prefMaster cfg)) as [->|Hne].
    + split; [intros _; apply elem_of_cons; now left|reflexivity].
    + rewrite IH. split; [intros H; apply elem_of_cons; now right|].
      intros H. apply elem_of_cons in H. destruct H as [H|H]; [congruence|exact H].
Qed.

Lemma checkPrefMaster_eq (st : @St W) :
  checkPrefMaster cfg st
  = if bool_decide (prefMaster cfg <> EmptyString /\ prefMaster cfg ∉ hostList st)
    then Fatal MSG_PREF_MASTER st else Ok tt st.
Proof.
  unfold checkPrefMaster. rewrite bind_get_at.
  destruct (bool_decide_reflect
              (prefMaster cfg <> EmptyString /\ prefMaster cfg ∉ hostList st)) as [[H1 H2]|H].
  - apply String.eqb_neq in H1. rewrite H1.
    destruct (prefInHostList cfg (hostList st)) eqn:Hp; [|reflexivity].
    apply prefInHostList_spec in Hp. contradiction.
  - destruct (prefInHostList cfg (hostList st)) eqn:Hp; [reflexivity|].
    destruct (String.eqb_spec (prefMaster cfg) EmptyString); [reflexivity|].
    exfalso. apply H. split; [assumption|].
    intros Hin. apply prefInHostList_spec in Hin. congruence.
Qed.

Lemma validateFlags_result (st : @St W) :
  match validateFlags C cfg st with
  | Ok _ s' => hostList s' = Split (hosts cfg) /\ extends st s'
  | Fatal msg _ => msg <> MSG_PREF_MASTER
  | _ => False
  end.
Proof.
  unfold validateFlags, when, bind, modify, ret, fatal.
  repeat match goal with
         | |- context [if ?b then _ else _] => destruct b; cbn
         end;
    try discriminate;
    (split; [reflexivity|]);
    first [apply extends_same_trace; reflexivity | eexists [_]; reflexivity].
Qed.

Lemma atReturn_fatal (r : @Res W unit) msg s :
  atReturn r = Fatal msg s -> r = Fatal msg s.
Proof. destruct r; cbn; congruence. Qed.

(** The preferred-master check comes after classification and master
    location: whatever the cluster and the flags, a run of [main] that ends
    with its diagnostic has by then attempted a connection to every host of
    the list. *)
Lemma pref_master_fatal_follows_connections :
  forall (w : W) inputs st',
    main C cfg inputs (initSt w) = Fatal MSG_PREF_MASTER st' ->
    forall u, u ∈ Split (hosts cfg) -> Connect u ∈ trace st'.
Proof.
  intros w inputs st' Hmain u Hu. unfold main in Hmain.
  apply atReturn_fatal in Hmain. unfold mainBody in Hmain.
  pose proof (validateFlags_result (initSt w)) as Hv.
  unfold bind at 1 in Hmain.
  destruct (validateFlags C cfg (initSt w)) as [[] sv|msg sv| |];
    [|congruence|contradiction|contradiction].
  destruct Hv as [Hhl _].
  unfold bootstrap in Hmain. rewrite bind_assoc_at in Hmain.
  destruct (classify_closed sv) as (st1 & Hrun & _ & _ & _ & _ & _ & _ & tr & Htr & Hcon).
  rewrite (bind_ok _ _ _ _ _ Hrun) in Hmain.
  match type of Hmain with ?T st1 = _ =>
    assert (Hmono : appendOnly T)
  end.
  { apply appendOnly_bind.
    - apply appendOnly_bind; [apply appendOnly_checkSiblings|]. intros _.
      apply appendOnly_bind; [apply appendOnly_locateMaster|]. intros _.
      apply appendOnly_finalCheck.
    - intros _. apply appendOnly_bind; [apply appendOnly_checkSlaves|]. intros _.
      apply appendOnly_bind; [apply appendOnly_checkPrefMaster|]. intros _.
      apply appendOnly_dispatch. }
  specialize (Hmono st1). rewrite Hmain in Hmono. cbn in Hmono.
  destruct Hmono as [tr' Htr']. rewrite Htr', Htr.
  apply elem_of_app. left. apply elem_of_app. right.
  apply Hcon. now rewrite Hhl.
Qed.


(** ** Start-up validation (lines 67-103) *)

Lemma contains_spec l x : contains l x = true <-> x ∈ l.
Proof.
  unfold contains. rewrite existsb_exists. split.
  - intros (y & Hin & Hy). apply String.eqb_eq in Hy. subst y.
    now apply list_elem_of_In.
  - intros Hin. exists x. split; [now apply list_elem_of_In|apply String.eqb_refl].
Qed.

Lemma not_in_options_empty l : Forall (fun o => o <> EmptyString) l -> EmptyString ∉ l.
Proof.
  intros H Hin. rewrite Forall_forall in H. now apply (H _ Hin).
Qed.

Lemma validateFlags_run (st : @St W) :
  (flagsAccepted cfg ->
   validateFlags C cfg st = Ok tt (configured C cfg (announce cfg st))) /\
  (~ flagsAccepted cfg ->
   exists msg s',
     validateFlags C cfg st = Fatal msg s' /\
     servers s' = servers st /\ slaves s' = slaves st /\ master s' = master st /\
     exit s' = exit st /\ deferred s' = deferred st /\
     heap s' = heap st /\ world s' = world st /\
     trace s' = trace (announce cfg st)).
Proof.
  assert (Hfe : EmptyString ∉ failOptions)
    by (apply not_in_options_empty; repeat constructor; discriminate).
  assert (Hse : EmptyString ∉ switchOptions)
    by (apply not_in_options_empty; repeat constructor; discriminate).
  unfold flagsAccepted, validateFlags, announce, configured.
  destruct (String.eqb_spec (hosts cfg) EmptyString) as [Hh|Hh];
  destruct (String.eqb_spec (user cfg) EmptyString) as [Hu|Hu];
  destruct (String.eqb_spec (rpluser cfg) EmptyString) as [Hr|Hr];
  destruct (String.eqb_spec (switchover cfg) EmptyString) as [Hs|Hs];
  destruct (String.eqb_spec (failover cfg) EmptyString) as [Hf|Hf];
  destruct (contains failOptions (failover cfg)) eqn:Hcf;
  destruct (contains switchOptions (switchover cfg)) eqn:Hcs;
  try (apply contains_spec in Hcf); try (apply contains_spec in Hcs);
  try (apply not_true_iff_false in Hcf; rewrite contains_spec in Hcf);
  try (apply not_true_iff_false in Hcs; rewrite contains_spec in Hcs);
  (split;
   [ intros (H1 & H2 & H3 & [[H4 H5]|[H4 H5]]);
     try congruence; try (exfalso; rewrite ?H4, ?Hs, ?Hf in *; tauto);
     destruct (version cfg); destruct (String.eqb (ignoreSrv cfg) EmptyString);
     reflexivity
   | intros Hn;
     try (exfalso; apply Hn; tauto);
     destruct (version cfg); do 2 eexists; cbn;
     (split; [reflexivity|repeat split]) ]).
Qed.

(** X1: the start-up validation lets a run through exactly when a host
    list, a user and a replication user are given and exactly one of the
    two modes is set, to one of its allowed values.  It then leaves the
    host list split at the commas, both credential pairs as [splitPair]
    cuts them and, when [-ignore-servers] is set, the ignore list, after
    printing the version line when asked (the version flag does not end
    the run), and changes nothing else.  Otherwise [main] ends with a
    diagnostic before anything is connected or deferred: the topology
    variables, the store and the outside world are untouched and nothing
    but the version line was printed. *)
Theorem start_up_validation (st : @St W) inputs :
  (flagsAccepted cfg ->
   validateFlags C cfg st = Ok tt (configured C cfg (announce cfg st))) /\
  (~ flagsAccepted cfg ->
   exists msg s',
     main C cfg inputs st = Fatal msg s' /\
     servers s' = servers st /\ slaves s' = slaves st /\ master s' = master st /\
     exit s' = exit st /\ deferred s' = deferred st /\
     heap s' = heap st /\ world s' = world st /\
     trace s' = trace (announce cfg st)).
Proof.
  destruct (validateFlags_run st) as [Hok Hbad]. split; [exact Hok|].
  intros Hn. destruct (Hbad Hn) as (msg & s' & Hrun & Hrest).
  exists msg, s'. split; [|exact Hrest].
  unfold main, mainBody, bind. now rewrite Hrun.
Qed.

(** ** The host list (line 73) *)

Lemma Split_not_nil s : Split s <> [].
Proof.
  destruct s as [|c r]; cbn [Split]; [discriminate|].
  destruct (Ascii.eqb c ","); [discriminate|].
  destruct (Split r); discriminate.
Qed.

Lemma concat_cons_char c h t :
  String.concat "," (String c h :: t) = String c (String.concat "," (h :: t)).
Proof. destruct t; reflexivity. Qed.

Lemma Split_spec s :
  String.concat "," (Split s) = s /\
  length (Split s)
    = S (length (filter (fun c => c = ","%char) (list_ascii_of_string s))) /\
  Forall (fun h => ","%char ∉ list_ascii_of_string h) (Split s).
Proof.
  induction s as [|c r [IHc [IHl IHf]]].
  - repeat split; try reflexivity. repeat constructor. cbn. intros H; inversion H.
  - cbn [Split list_ascii_of_string].
    destruct (Ascii.eqb_spec c ","%char) as [->|Hc].
    + repeat split.
      * pose proof (Split_not_nil r) as Hn.
        cbn [String.concat]. destruct (Split r) as [|h t]; [congruence|].
        cbn. now rewrite <- IHc.
      * rewrite filter_cons_True by reflexivity. cbn [length]. now rewrite IHl.
      * constructor; [cbn; intros H; inversion H|exact IHf].
    + pose proof (Split_not_nil r) as Hn.
      destruct (Split r) as [|h t]; [congruence|].
      repeat split.
      * rewrite concat_cons_char. now rewrite IHc.
      * rewrite filter_cons_False by congruence. exact IHl.
      * inversion IHf as [|? ? Hh Ht]; subst. constructor; [|exact Ht].
        cbn. intros H. apply elem_of_cons in H. destruct H as [H|H]; [congruence|auto].
Qed.

(** X2: when the start-up validation passes, the host list is the [-hosts]
    flag cut at its commas: joining the entries with commas gives the flag
    back, no entry contains a comma, and there is one entry more than the
    flag has commas (a leading, trailing or doubled comma yields a host
    with an empty URL); the classifier then runs to its end with exactly
    that many entries in [servers]. *)
Theorem host_list_split (st st' : @St W) :
  validateFlags C cfg st = Ok tt st' ->
  String.concat "," (hostList st') = hosts cfg /\
  Forall (fun h => ","%char ∉ list_ascii_of_string h) (hostList st') /\
  length (hostList st')
    = S (length (filter (fun c => c = ","%char) (list_ascii_of_string (hosts cfg)))) /\
  exists s2, classify C cfg st' = Ok tt s2 /\
             length (servers s2) = length (hostList st').
Proof.
  intros Hrun. pose proof (validateFlags_result st) as Hres.
  rewrite Hrun in Hres. destruct Hres as [Hhl _].
  destruct (Split_spec (hosts cfg)) as (Hc & Hl & Hf).
  rewrite Hhl. repeat split; auto.
  destruct (classify_closed st') as (s2 & Hcl & _ & _ & _ & Hsv & _).
  exists s2. split; [exact Hcl|].
  now rewrite Hsv, length_map, length_seq, Hhl.
Qed.

(** ** Slaves against the declared master (lines 185-192) *)

Lemma logged_logged tr1 tr2 (st : @St W) :
  logged tr2 (logged tr1 st) = logged (tr1 ++ tr2) st.
Proof. apply St_eq; cbn; try reflexivity. now rewrite app_assoc. Qed.

Lemma emit_logged e tr (st : @St W) : emit e (logged tr st) = logged (tr ++ [e]) st.
Proof. apply St_eq; cbn; try reflexivity. now rewrite app_assoc. Qed.

Lemma checkSlaves_body (st : @St W) a m mm sm tr :
  master st = Some m -> heap st !! m = Some mm -> heap st !! a = Some sm ->
  forall B (next : unit -> @M W B),
  bind
    (bind (when (verbose cfg)
      (bind (deref (Some a)) (fun sm =>
       bind (get master) (fun m => bind (deref m) (fun mm =>
       logf "DEBUG: Checking if server %s is a slave of server %s"
            [ArgS (Host sm); ArgS (Host mm)]))))) (fun _ =>
    bind (deref (Some a)) (fun sm =>
    bind (get master) (fun m => bind (deref m) (fun mm =>
    bind (fun s => Ok (IsSlaveof C (world s) (Host sm) (IP mm))
                      (emit (QueryIsSlaveof (Host sm) (IP mm)) s)) (fun ok =>
    if negb ok then
      logf "WARN : Server %s is not a slave of declared master %s"
           [ArgS (URL mm); ArgS (Host mm)]
    else ret tt)))))) next (logged tr st)
  = next tt (logged (tr ++ slaveReport C cfg (world st) mm sm) st).
Proof.
  intros Hm Hmm Hsm B next.
  assert (Hd : forall tr', deref (Some a) (logged tr' st) = Ok sm (logged tr' st))
    by (intros tr'; apply deref_ok; exact Hsm).
  assert (Hdm : forall tr', deref (Some m) (logged tr' st) = Ok mm (logged tr' st))
    by (intros tr'; apply deref_ok; exact Hmm).
  assert (Hq : forall tr' D (k' : bool -> @M W D),
            bind (fun s => Ok (IsSlaveof C (world s) (Host sm) (IP mm))
                              (emit (QueryIsSlaveof (Host sm) (IP mm)) s)) k'
                 (logged tr' st)
            = k' (IsSlaveof C (world st) (Host sm) (IP mm))
                 (logged (tr' ++ [QueryIsSlaveof (Host sm) (IP mm)]) st)).
  { intros tr' D k'. unfold bind at 1. cbn [world logged]. now rewrite emit_logged. }
  assert (Hlog : forall tr' fmt args D (k' : unit -> @M W D),
            bind (logf fmt args) k' (logged tr' st)
            = k' tt (logged (tr' ++ [Logf fmt args]) st)).
  { intros. rewrite bind_logf_at. now rewrite emit_logged. }
  rewrite bind_assoc_at. unfold slaveReport.
  destruct (verbose cfg); cbn [when].
  - rewrite !bind_assoc_at, (bind_ok _ _ _ _ _ (Hd _)).
    rewrite !bind_assoc_at, bind_get_at. cbn [master logged]. rewrite Hm.
    rewrite !bind_assoc_at, (bind_ok _ _ _ _ _ (Hdm _)).
    rewrite Hlog.
    rewrite !bind_assoc_at, (bind_ok _ _ _ _ _ (Hd _)).
    rewrite !bind_assoc_at, bind_get_at. cbn [master logged]. rewrite Hm.
    rewrite !bind_assoc_at, (bind_ok _ _ _ _ _ (Hdm _)).
    rewrite !bind_assoc_at, Hq.
    destruct (IsSlaveof C (world st) (Host sm) (IP mm)); cbn [negb].
    + rewrite bind_ret_at. rewrite <- !app_assoc. now rewrite app_nil_r.
    + rewrite Hlog. now rewrite <- !app_assoc.
  - rewrite bind_ret_at.
    rewrite !bind_assoc_at, (bind_ok _ _ _ _ _ (Hd _)).
    rewrite !bind_assoc_at, bind_get_at. cbn [master logged]. rewrite Hm.
    rewrite !bind_assoc_at, (bind_ok _ _ _ _ _ (Hdm _)).
    rewrite !bind_assoc_at, Hq.
    destruct (IsSlaveof C (world st) (Host sm) (IP mm)); cbn [negb].
    + rewrite bind_ret_at. reflexivity.
    + rewrite Hlog. rewrite <- ?app_assoc. reflexivity.
Qed.

(** X3: the check of the slaves against the elected master never stops
    the run and changes nothing but the trace: for every slave, in order,
    one [IsSlaveof] query and, when the answer is no, one warning (which
    prints the master's URL and host). *)
Theorem slave_mismatch_only_warns (st : @St W) m mm nodes :
  master st = Some m -> heap st !! m = Some mm ->
  Forall2 (fun p sm => nodeAt (heap st) p = Some sm) (slaves st) nodes ->
  checkSlaves C cfg st
  = Ok tt (logged (concat (map (slaveReport C cfg (world st) mm) nodes)) st).
Proof.
  intros Hm Hmm Hl. unfold checkSlaves. rewrite bind_get_at.
  assert (E : st = logged [] st)
    by (apply St_eq; cbn; try reflexivity; now rewrite app_nil_r).
  rewrite E at 2.
  change (concat (map (slaveReport C cfg (world st) mm) nodes))
    with ([] ++ concat (map (slaveReport C cfg (world st) mm) nodes)).
  generalize (@nil Effect) as tr. generalize 0 as k.
  induction Hl as [|p sm l nodes Hp _ IH]; intros k tr.
  - cbn. now rewrite app_nil_r.
  - destruct p as [a|]; [|discriminate]. cbn [forRange map concat].
    cbn beta. rewrite (checkSlaves_body st a m mm sm tr Hm Hmm Hp).
    rewrite IH. now rewrite app_assoc.
Qed.

(** ** Inputs of the monitoring loop (lines 229-263) *)

Lemma handleInput_tick (st : @St W) cmd :
  handleInput C cfg Tick cmd st = Ok cmd (afterDisplay C st).
Proof.
  unfold handleInput, afterDisplay. unfold bind at 1. unfold call_display.
  now destruct (tb_display C (world st) (heap st) (servers st)) as [w' touch].
Qed.

Lemma handleInput_passive_event (st : @St W) ev cmd :
  passive (Term ev) -> handleInput C cfg (Term ev) cmd st = Ok cmd (synced ev st).
Proof.
  intros Hp. unfold handleInput, synced. cbn in Hp.
  destruct (N.eqb_spec (evType ev) EventKey) as [Ht|Ht].
  - destruct Hp as [Hp|(HS & HF & HQ)]; [contradiction|].
    apply N.eqb_neq in HS, HF, HQ. rewrite HS, HF, HQ. mnorm.
    destruct (Ascii.eqb (evCh ev) "s"); mnorm; reflexivity.
  - mnorm. destruct (Ascii.eqb (evCh ev) "s"); mnorm; reflexivity.
Qed.

Lemma handleInput_ctrlQ (st : @St W) ev cmd :
  evType ev = EventKey -> evKey ev = KeyCtrlQ ->
  handleInput C cfg (Term ev) cmd st = Ok cmd (synced ev (set_exit true st)).
Proof.
  intros Ht Hk. unfold handleInput, synced. rewrite Ht, Hk.
  change (N.eqb EventKey EventKey) with true.
  change (N.eqb KeyCtrlQ KeyCtrlS) with false.
  change (N.eqb KeyCtrlQ KeyCtrlF) with false.
  change (N.eqb KeyCtrlQ KeyCtrlQ) with true. cbn iota. mnorm.
  destruct (Ascii.eqb (evCh ev) "s"); mnorm; reflexivity.
Qed.

Lemma handleInput_ctrlF (st : @St W) ev cmd :
  evType ev = EventKey -> evKey ev = KeyCtrlF ->
  handleInput C cfg (Term ev) cmd st
  = Ok "failover"%string (synced ev (set_exit true st)).
Proof.
  intros Ht Hk. unfold handleInput, synced. rewrite Ht, Hk.
  change (N.eqb EventKey EventKey) with true.
  change (N.eqb KeyCtrlF KeyCtrlS) with false.
  change (N.eqb KeyCtrlF KeyCtrlF) with true.
  change (N.eqb KeyCtrlF KeyCtrlQ) with false. cbn iota. mnorm.
  destruct (Ascii.eqb (evCh ev) "s"); mnorm; reflexivity.
Qed.

(** X4: in interactive mode, ticks, events that are not key events and
    keys other than Ctrl-S, Ctrl-F and Ctrl-Q never end the monitoring and
    never touch the topology variables: after any number of them the loop
    is still waiting for input with the same [servers], [slaves] and
    [master], the exit flag off, and no node added to or dropped from the
    store. *)
Theorem passive_inputs_keep_monitoring inputs : forall (st : @St W) cmd m,
  interactive cfg = true ->
  Forall passive inputs ->
  exit st = false -> master st = Some m -> m < length (heap st) ->
  exists st',
    monitor C cfg inputs cmd st = Blocked st' /\
    servers st' = servers st /\ slaves st' = slaves st /\ master st' = master st /\
    hostList st' = hostList st /\ exit st' = false /\
    length (heap st') = length (heap st).
Proof.
  induction inputs as [|i rest IH]; intros st cmd m Hi Hp Hex Hm Hlt.
  - exists st. repeat split; assumption.
  - inversion Hp as [|? ? Hpi Hprest]; subst.
    assert (Hstep : exists st1,
              handleInput C cfg i cmd st = Ok cmd st1 /\
              servers st1 = servers st /\ slaves st1 = slaves st /\
              master st1 = master st /\ hostList st1 = hostList st /\
              exit st1 = exit st /\ length (heap st1) = length (heap st)).
    { destruct i as [|ev].
      - eexists. split; [apply handleInput_tick|].
        cbn. rewrite length_imap. repeat split.
      - eexists. split; [apply handleInput_passive_event; exact Hpi|].
        unfold synced. destruct (Ascii.eqb (evCh ev) "s"); repeat split. }
    destruct Hstep as (st1 & Hh & Hsv & Hsl & Hm1 & Hhl & Hex1 & Hlen).
    destruct (lookup_lt_is_Some_2 (heap st1) m) as [sm Hsm]; [lia|].
    assert (Hit : iteration C cfg i cmd st = Ok cmd st1).
    { unfold iteration. rewrite (bind_ok _ _ _ _ _ Hh).
      apply (detectFailure_quiet st1 m sm); [congruence|exact Hsm|now left]. }
    rewrite (monitor_continues st st1 i rest cmd cmd Hit) by congruence.
    destruct (IH st1 cmd m Hi Hprest) as (st' & Hrun & H1 & H2 & H3 & H4 & H5 & H6);
      [congruence|congruence|lia|].
    exists st'. split; [exact Hrun|]. repeat split; congruence.
Qed.

Lemma trace_runDeferred (s : @St W) :
  trace (runDeferred s) = trace s ++ map ConnClose (deferred s).
Proof.
  unfold runDeferred. cbn [trace set_deferred].
  generalize (deferred s) as l. revert s.
  assert (H : forall l (s : @St W),
            trace (fold_left (fun s' p => emit (ConnClose p) s') l s)
            = trace s ++ map ConnClose l).
  { induction l as [|p l IH]; intros s; cbn [fold_left map].
    - now rewrite app_nil_r.
    - rewrite IH. cbn [trace emit]. now rewrite <- app_assoc. }
  intros s l. apply H.
Qed.

(** X5: Ctrl-Q with no command pending sets the exit flag; unless the
    failure detection at the end of the body fires (interactive off and the
    master Failed), the loop is left and termbox is closed: no failover is
    attempted and the inputs that follow are never read.  [main] then
    returns, and its deferred [Conn.Close()] calls run, last registered
    first: after the optional [termbox.Sync] and [termbox.Close], the run
    ends with one close per connection whose close was deferred. *)
Theorem quit_key_ends_the_run (st : @St W) ev rest cmd m sm :
  evType ev = EventKey -> evKey ev = KeyCtrlQ ->
  cmd <> "failover"%string ->
  master st = Some m -> heap st !! m = Some sm ->
  interactive cfg = true \/ State sm <> STATE_FAILED ->
  let stQ := emit TermboxClose (synced ev (set_exit true st)) in
  monitor C cfg (Term ev :: rest) cmd st = Ok tt stQ /\
  (forall s0 inputs,
     mainBody C cfg inputs s0 = monitor C cfg (Term ev :: rest) cmd st ->
     main C cfg inputs s0 = Ok tt (runDeferred stQ)) /\
  deferred (runDeferred stQ) = [] /\
  trace (runDeferred stQ)
  = trace st ++ (if Ascii.eqb (evCh ev) "s" then [TermboxSync] else [])
    ++ TermboxClose :: map ConnClose (deferred st).
Proof.
  intros Ht Hk Hc Hm Hsm Hq stQ.
  assert (Hit : iteration C cfg (Term ev) cmd st = Ok cmd (synced ev (set_exit true st))).
  { unfold iteration. rewrite (bind_ok _ _ _ _ _ (handleInput_ctrlQ st ev cmd Ht Hk)).
    apply (detectFailure_quiet _ m sm); [| |exact Hq];
      unfold synced; destruct (Ascii.eqb (evCh ev) "s"); assumption. }
  assert (Hrun : monitor C cfg (Term ev :: rest) cmd st = Ok tt stQ).
  { cbn [monitor]. rewrite (bind_ok _ _ _ _ _ Hit). rewrite bind_get_at.
    replace (exit (synced ev (set_exit true st))) with true
      by (unfold synced; destruct (Ascii.eqb (evCh ev) "s"); reflexivity).
    cbn [negb]. apply String.eqb_neq in Hc. rewrite Hc. reflexivity. }
  split; [exact Hrun|]. split; [|split].
  - intros s0 inputs Hbody. unfold main. rewrite Hbody, Hrun. reflexivity.
  - reflexivity.
  - rewrite trace_runDeferred. subst stQ. unfold synced.
    destruct (Ascii.eqb (evCh ev) "s"); cbn; now rewrite <- ?app_assoc.
Qed.

(** X6: Ctrl-F always leaves the loop for the failover path, whatever the
    interactive flag and the state of the master: the exit flag is set,
    [failover()] is called and the program goes back to [MainLoop] with the
    inputs that remain. *)
Theorem failover_key_takes_the_exit_path (st : @St W) ev rest cmd m sm :
  evType ev = EventKey -> evKey ev = KeyCtrlF ->
  master st = Some m -> heap st !! m = Some sm ->
  monitor C cfg (Term ev :: rest) cmd st
  = bind (restartAfterFailover C cfg) (fun _ => MainLoop C cfg rest)
         (synced ev (set_exit true st)).
Proof.
  intros Ht Hk Hm Hsm.
  assert (Hit : iteration C cfg (Term ev) cmd st
                = Ok "failover"%string (synced ev (set_exit true st))).
  { unfold iteration. rewrite (bind_ok _ _ _ _ _ (handleInput_ctrlF st ev cmd Ht Hk)).
    unfold detectFailure. rewrite bind_get_at.
    replace (master (synced ev (set_exit true st))) with (Some m)
      by (unfold synced; destruct (Ascii.eqb (evCh ev) "s"); now rewrite <- Hm).
    erewrite bind_ok
      by (apply deref_ok; unfold synced; destruct (Ascii.eqb (evCh ev) "s"); exact Hsm).
    destruct (String.eqb (State sm) STATE_FAILED && negb (interactive cfg));
      [|reflexivity].
    rewrite bind_modify_at. unfold ret. f_equal.
    unfold synced. destruct (Ascii.eqb (evCh ev) "s"); reflexivity. }
  cbn [monitor]. rewrite (bind_ok _ _ _ _ _ Hit). rewrite bind_get_at.
  replace (exit (synced ev (set_exit true st))) with true
    by (unfold synced; destruct (Ascii.eqb (evCh ev) "s"); reflexivity).
  reflexivity.
Qed.

(** X7: when [failover()] answers an empty URL the exit path reconnects
    nothing and removes nothing, whatever index came with it: [master],
    [slaves] and [servers] are as before, no node is added to the store,
    and the program still logs the restart, sleeps 5 seconds and clears the
    exit flag. *)
Theorem failover_without_result_restarts_unchanged (st : @St W) w' touch key :
  sm_failover C (world st) (heap st) (slaves st) (master st)
    = (w', touch, (EmptyString, key)) ->
  restartAfterFailover C cfg st
  = Ok tt (set_exit false
             (logged [Logf MSG_RESTART []; Sleep 5]
                (afterCall (CallFailover (master st)) w' touch (emit TermboxClose st)))) /\
  forall st_r, restartAfterFailover C cfg st = Ok tt st_r ->
    master st_r = master st /\ slaves st_r = slaves st /\ servers st_r = servers st /\
    length (heap st_r) = length (heap st) /\ exit st_r = false /\
    trace st_r = trace st ++ [TermboxClose; CallFailover (master st);
                              Logf MSG_RESTART []; Sleep 5].
Proof.
  intros Hcall.
  assert (Hrun : restartAfterFailover C cfg st
    = Ok tt (set_exit false
               (logged [Logf MSG_RESTART []; Sleep 5]
                  (afterCall (CallFailover (master st)) w' touch (emit TermboxClose st))))).
  { unfold restartAfterFailover. rewrite bind_modify_at.
    assert (Hc : call_failover C (emit TermboxClose st)
                 = Ok (EmptyString, key)
                      (afterCall (CallFailover (master st)) w' touch (emit TermboxClose st))).
    { unfold call_failover. cbn [world heap slaves master emit]. now rewrite Hcall. }
    rewrite (bind_ok _ _ _ _ _ Hc). cbn [fst snd]. cbn [String.eqb negb]. mnorm.
    unfold modify. apply f_equal, St_eq; cbn; try reflexivity.
    now rewrite <- !app_assoc. }
  split; [exact Hrun|].
  intros st_r Hr. rewrite Hrun in Hr. apply Ok_state_inj in Hr. subst st_r.
  cbn. rewrite length_imap. repeat split. now rewrite <- !app_assoc.
Qed.

(** X8: failover mode "force" and non-interactive switchover never enter
    the monitoring loop: the promotion is called once, its answer is
    dropped ([master], [slaves] and [servers] stay as they are) and [main]
    returns; the inputs play no part. *)
Theorem direct_modes_return_at_once (st : @St W) :
  directMode cfg ->
  exists s',
    (forall inputs, dispatch C cfg inputs st = Ok tt s') /\
    master s' = master st /\ slaves s' = slaves st /\ servers s' = servers st /\
    exit s' = exit st /\ length (heap s') = length (heap st) /\
    (exists e, trace s' = trace st ++ [e] /\
               (e = CallFailover (master st) \/ e = CallSwitchover (master st))).
Proof.
  intros Hd. unfold dispatch.
  destruct (String.eqb_spec (failover cfg) "force") as [Hf|Hf].
  - destruct (sm_failover C (world st) (heap st) (slaves st) (master st))
      as [[w' touch] r] eqn:Hc.
    eexists. split.
    + intros inputs. rewrite (bind_ok _ _ _ _ _ (call_failover_eq st w' touch r Hc)).
      reflexivity.
    + cbn. rewrite length_imap. repeat split. eexists. split; [reflexivity|now left].
  - destruct Hd as [Hd|[Hs Hi]]; [contradiction|].
    apply String.eqb_neq in Hs. rewrite Hs, Hi. cbn [negb andb].
    destruct (sm_switchover C (world st) (heap st) (slaves st) (master st))
      as [[w' touch] r] eqn:Hc.
    eexists. split.
    + intros inputs. rewrite (bind_ok _ _ _ _ _ (call_switchover_eq st w' touch r Hc)).
      reflexivity.
    + cbn. rewrite length_imap. repeat split. eexists. split; [reflexivity|now right].
Qed.

(** ** No nil dereference *)

Lemma triple_conseq {A} (P P' : @St W -> Prop) (Q Q' : A -> @St W -> Prop) m :
  triple P m Q -> (forall s, P' s -> P s) -> (forall a s, Q a s -> Q' a s) ->
  triple P' m Q'.
Proof.
  intros H HP HQ s Hs. specialize (H s (HP s Hs)).
  destruct (m s); auto.
Qed.

Lemma triple_bind {A B} (P : @St W -> Prop) (Q : A -> @St W -> Prop)
    (R : B -> @St W -> Prop) m k :
  triple P m Q -> (forall a, triple (Q a) (k a) R) -> triple P (bind m k) R.
Proof.
  intros Hm Hk s Hs. unfold bind. specialize (Hm s Hs).
  destruct (m s) as [a s'| | |]; auto. apply (Hk a s' Hm).
Qed.

Lemma triple_ret {A} (P : @St W -> Prop) (a : A) :
  triple P (ret a) (fun a' s => P s /\ a' = a).
Proof. intros s Hs. cbn. auto. Qed.

Lemma triple_get {A} (P : @St W -> Prop) (f : @St W -> A) :
  triple P (get f) (fun a s => P s /\ a = f s).
Proof. intros s Hs. cbn. auto. Qed.

Lemma triple_modify (P : @St W -> Prop) f :
  triple P (modify f) (fun _ s' => exists s, P s /\ s' = f s).
Proof. intros s Hs. cbn. eauto. Qed.

Lemma triple_logf (P : @St W -> Prop) fmt args :
  triple P (logf fmt args) (fun _ s' => exists s, P s /\ s' = emit (Logf fmt args) s).
Proof. apply triple_modify. Qed.

Lemma triple_fatal {A} (P : @St W -> Prop) (Q : A -> @St W -> Prop) msg :
  triple P (fatal msg) Q.
Proof. intros s Hs. exact I. Qed.

Lemma triple_index {A} (P : @St W -> Prop) (l : list A) i :
  triple P (index l i) (fun x s => P s /\ x ∈ l).
Proof.
  intros s Hs. unfold index. destruct (i <? 0)%Z; [discriminate|].
  destruct (l !! Z.to_nat i) eqn:Hl; [|discriminate].
  cbn. split; [exact Hs|]. eapply list_elem_of_lookup_2. exact Hl.
Qed.

Lemma triple_deref (P : @St W -> Prop) p :
  (forall s, P s -> validIn (length (heap s)) p) ->
  triple P (deref p) (fun _ s => P s).
Proof.
  intros Hv s Hs. destruct (Hv s Hs) as (a & -> & Ha). unfold deref.
  destruct (lookup_lt_is_Some_2 (heap s) a Ha) as [sm Hsm]. now rewrite Hsm.
Qed.

Lemma triple_setState (P : @St W -> Prop) p v :
  (forall s, P s -> validIn (length (heap s)) p) ->
  triple P (setState p v)
    (fun _ s' => exists s a sm, P s /\ s' = set_heap (<[a := sm]> (heap s)) s).
Proof.
  intros Hv s Hs. destruct (Hv s Hs) as (a & -> & Ha).
  destruct (lookup_lt_is_Some_2 (heap s) a Ha) as [sm Hsm].
  rewrite (setState_ok a s sm v Hsm). eauto.
Qed.

Lemma triple_connect (P : @St W -> Prop) url :
  triple P (call_newServerMonitor C url)
    (fun r s' => exists s, P s /\ s' = afterConnect C url s /\
                           fst r = Some (length (heap s))).
Proof. intros s Hs. rewrite call_newServerMonitor_eq. cbn. eauto. Qed.

(** How [sound] moves along the state changes of the loop. *)

Lemma validIn_mono n n' p : n <= n' -> validIn n p -> validIn n' p.
Proof. intros Hle (a & -> & Ha). exists a. split; [reflexivity|lia]. Qed.

Lemma listsSound_same (s s' : @St W) :
  servers s' = servers s -> slaves s' = slaves s ->
  length (heap s) <= length (heap s') ->
  listsSound s -> listsSound s'.
Proof.
  intros Hsv Hsl Hlen [H1 H2]. unfold listsSound. rewrite Hsv, Hsl.
  split; eapply Forall_impl; eauto; intros p; now apply validIn_mono.
Qed.

Lemma sound_same (s s' : @St W) :
  servers s' = servers s -> slaves s' = slaves s -> master s' = master s ->
  length (heap s) <= length (heap s') ->
  sound s -> sound s'.
Proof.
  intros Hsv Hsl Hm Hlen [Hl Hmv]. split.
  - now apply (listsSound_same s).
  - rewrite Hm. now apply (validIn_mono (length (heap s))).
Qed.

Lemma triple_call_switchover :
  triple sound (call_switchover C) (fun _ => sound).
Proof.
  intros s Hs. unfold call_switchover.
  destruct (sm_switchover C _ _ _ _) as [[w' touch] r].
  eapply sound_same; [..|exact Hs]; try reflexivity. cbn. now rewrite length_imap.
Qed.

Lemma triple_call_failover :
  triple sound (call_failover C) (fun _ => sound).
Proof.
  intros s Hs. unfold call_failover.
  destruct (sm_failover C _ _ _ _) as [[w' touch] r].
  eapply sound_same; [..|exact Hs]; try reflexivity. cbn. now rewrite length_imap.
Qed.

Lemma triple_call_display :
  triple sound (call_display C) (fun _ => sound).
Proof.
  intros s Hs. unfold call_display.
  destruct (tb_display C _ _ _) as [w' touch].
  eapply sound_same; [..|exact Hs]; try reflexivity. cbn. now rewrite length_imap.
Qed.

(** [master, err = newServerMonitor(url)]. *)
Lemma triple_reconnect_master url :
  triple sound
    (bind (call_newServerMonitor C url) (fun r => modify (set_master (fst r))))
    (fun _ => sound).
Proof.
  intros s [Hl Hm]. unfold bind. rewrite call_newServerMonitor_eq. cbn.
  split.
  - eapply (listsSound_same s); [reflexivity|reflexivity| |exact Hl].
    cbn. rewrite length_app. lia.
  - cbn. exists (length (heap s)). split; [reflexivity|].
    rewrite length_app. cbn. lia.
Qed.

Ltac nxt := let x := fresh in intros x; cbn beta; try clear x.

Ltac keep_sound H :=
  eapply sound_same; [..|exact H]; cbn; try reflexivity;
  rewrite ?length_imap, ?length_app, ?length_insert; cbn; lia.

Lemma triple_pure {A} (a : A) (Q : A -> @St W -> Prop) :
  (forall s, sound s -> Q a s) -> triple sound (ret a) Q.
Proof. intros H s Hs. cbn. auto. Qed.

Lemma triple_update {A} f (k : unit -> @M W A) (Q : A -> @St W -> Prop) :
  (forall s, sound s -> sound (f s)) ->
  triple sound (k tt) Q -> triple sound (bind (modify f) k) Q.
Proof.
  intros Hf Hk. eapply triple_bind; [apply triple_modify|].
  intros []. eapply triple_conseq; [exact Hk| |auto].
  intros s' (s & Hs & ->). auto.
Qed.

(** [slaves[i]] is a pointer that can be followed, when it exists. *)
Lemma triple_slave_at {A} i (k : ptr -> @M W A) (Q : A -> @St W -> Prop) :
  (forall p, triple (fun s => sound s /\ validIn (length (heap s)) p) (k p) Q) ->
  triple sound (bind (get slaves) (fun sls => bind (index sls i) k)) Q.
Proof.
  intros Hk. eapply triple_bind; [apply triple_get|]. intros sls.
  eapply triple_bind; [apply triple_index|]. intros p.
  eapply triple_conseq; [apply Hk| |auto].
  intros s [[Hs ->] Hp]. split; [exact Hs|].
  destruct Hs as [[_ Hsl] _]. rewrite Forall_forall in Hsl. auto.
Qed.

Lemma sound_emit e (s : @St W) : sound s -> sound (emit e s).
Proof. intros H. keep_sound H. Qed.

Lemma sound_set_exit b (s : @St W) : sound s -> sound (set_exit b s).
Proof. intros H. keep_sound H. Qed.

Lemma triple_onCtrlS : triple sound (onCtrlS C cfg) (fun _ => sound).
Proof.
  unfold onCtrlS. eapply triple_bind; [apply triple_call_switchover|].
  intros r. cbn beta zeta.
  destruct (negb (fst r =? EmptyString)%string && (0 <=? snd r)%Z);
    [|apply triple_pure; auto].
  eapply (triple_bind _ (fun _ => sound)).
  { destruct (verbose cfg); cbn [when]; [|apply triple_pure; auto].
    apply triple_slave_at. intros p.
    eapply triple_bind; [apply triple_deref; intros s Hs; apply Hs|].
    intros sm. eapply triple_conseq; [apply triple_logf|intros s Hs; exact Hs|].
    intros ? s' (s & [Hs _] & ->). now apply sound_emit. }
  nxt.
  (* master and slaves[nsKey] are connected anew *)
  eapply (triple_bind _ (fun r1 s' => exists s, sound s /\
            s' = afterConnect C (fst r) s /\ fst r1 = Some (length (heap s))));
    [apply triple_connect|].
  intros r1.
  eapply (triple_bind _ (fun _ => sound)).
  { eapply triple_conseq; [apply triple_modify|intros s Hs; exact Hs|].
    intros ? s' (s1 & (s & [Hl Hm] & -> & Hr) & ->). rewrite Hr. split.
    - eapply (listsSound_same s); [reflexivity|reflexivity| |exact Hl].
      cbn. rewrite length_app. lia.
    - cbn. exists (length (heap s)). split; [reflexivity|].
      rewrite length_app. cbn. lia. }
  nxt. apply triple_slave_at. intros p.
  eapply triple_bind; [apply triple_deref; intros s Hs; apply Hs|].
  intros sm.
  eapply triple_bind; [apply triple_connect|]. intros r2.
  intros s1 (s & [Hs _] & -> & Hr). unfold assignSlave.
  destruct (snd r <? 0)%Z; [discriminate|].
  destruct (decide _) as [Hlt|]; [|discriminate].
  rewrite Hr. destruct Hs as [[Hsv Hsl] Hm]. split; [split|]; cbn.
  - eapply Forall_impl; [exact Hsv|]. intros q. apply validIn_mono.
    rewrite length_app. lia.
  - apply Forall_insert.
    + eapply Forall_impl; [exact Hsl|]. intros q. apply validIn_mono.
      rewrite length_app. lia.
    + exists (length (heap s)). split; [reflexivity|]. rewrite length_app. cbn. lia.
  - eapply validIn_mono; [|exact Hm]. rewrite length_app. lia.
Qed.

Lemma triple_handleInput i cmd :
  triple sound (handleInput C cfg i cmd) (fun _ => sound).
Proof.
  destruct i as [|ev]; cbn [handleInput].
  - eapply triple_bind; [apply triple_call_display|]. nxt.
    apply triple_pure; auto.
  - eapply (triple_bind _ (fun _ => sound)).
    + destruct (evType ev =? EventKey)%N; [|apply triple_pure; auto].
      eapply (triple_bind _ (fun _ => sound)).
      { destruct (evKey ev =? KeyCtrlS)%N; [apply triple_onCtrlS|apply triple_pure; auto]. }
      nxt. eapply (triple_bind _ (fun _ => sound)).
      { destruct (evKey ev =? KeyCtrlF)%N; [|apply triple_pure; auto].
        apply triple_update; [apply sound_set_exit|apply triple_pure; auto]. }
      intros c. eapply (triple_bind _ (fun _ => sound)).
      { destruct (evKey ev =? KeyCtrlQ)%N; [|apply triple_pure; auto].
        eapply triple_conseq; [apply triple_modify|intros s Hs; exact Hs|].
        intros ? s' (s & Hs & ->). now apply sound_set_exit. }
      nxt. apply triple_pure; auto.
    + intros c. eapply (triple_bind _ (fun _ => sound)).
      { destruct (Ascii.eqb _ _); [|apply triple_pure; auto].
        eapply triple_conseq; [apply triple_modify|intros s Hs; exact Hs|].
        intros ? s' (s & Hs & ->). now apply sound_emit. }
      nxt. apply triple_pure; auto.
Qed.

Lemma triple_detectFailure cmd :
  triple sound (@detectFailure W cfg cmd) (fun _ => sound).
Proof.
  unfold detectFailure. eapply triple_bind; [apply triple_get|]. intros m.
  eapply triple_bind.
  { apply triple_deref. intros s [[_ Hm] ->]. exact Hm. }
  intros mm.
  apply (triple_conseq sound _ (fun _ => sound) _);
    [|intros s [Hs _]; exact Hs|intros a s Hs; exact Hs].
  destruct (_ && _); [|apply triple_pure; auto].
  apply triple_update; [apply sound_set_exit|apply triple_pure; auto].
Qed.

Lemma triple_iteration i cmd :
  triple sound (iteration C cfg i cmd) (fun _ => sound).
Proof.
  unfold iteration. eapply triple_bind; [apply triple_handleInput|].
  intros c. apply triple_detectFailure.
Qed.

Lemma triple_enterMainLoop :
  triple sound (enterMainLoop C cfg) (fun _ => sound).
Proof.
  unfold enterMainLoop. eapply (triple_bind _ (fun _ => sound)).
  { intros s Hs. destruct (termbox_Init C (world s)) as [w' e]. keep_sound Hs. }
  intros err. eapply (triple_bind _ (fun _ => sound)).
  { destruct err; [apply triple_fatal|apply triple_pure; auto]. }
  nxt. destruct (negb _);
    (eapply triple_conseq; [apply triple_modify|intros s Hs; exact Hs|];
     intros ? s' (s & Hs & ->); now apply sound_emit).
Qed.

Lemma triple_removeSlave i :
  triple sound (@removeSlave W i) (fun _ => sound).
Proof.
  intros s [[Hsv Hsl] Hm]. unfold removeSlave.
  destruct (i <? 0)%Z; [discriminate|].
  destruct (_ <? _)%Z; [discriminate|].
  split; [split|]; cbn; auto.
  apply Forall_app. split; [now apply Forall_take|now apply Forall_drop].
Qed.

Lemma triple_restartAfterFailover :
  triple sound (restartAfterFailover C cfg) (fun _ => sound).
Proof.
  unfold restartAfterFailover.
  apply triple_update; [apply sound_emit|].
  eapply triple_bind; [apply triple_call_failover|]. intros r. cbn beta zeta.
  eapply (triple_bind _ (fun _ => sound)).
  { destruct (negb _); [|apply triple_pure; auto].
    eapply (triple_bind _ (fun _ => sound)).
    { destruct (verbose cfg); cbn [when]; [|apply triple_pure; auto].
      eapply triple_conseq; [apply triple_logf|intros s Hs; exact Hs|].
      intros ? s' (s & Hs & ->). now apply sound_emit. }
    nxt.
    eapply (triple_bind _ (fun r1 s' => exists s, sound s /\
              s' = afterConnect C (fst r) s /\ fst r1 = Some (length (heap s))));
      [apply triple_connect|].
    intros r1. eapply (triple_bind _ (fun _ => sound)); [|nxt; apply triple_removeSlave].
    eapply triple_conseq; [apply triple_modify|intros s Hs; exact Hs|].
    intros ? s' (s1 & (s & [Hl Hm] & -> & Hr) & ->). rewrite Hr. split.
    - eapply (listsSound_same s); [reflexivity|reflexivity| |exact Hl].
      cbn. rewrite length_app. lia.
    - cbn. exists (length (heap s)). split; [reflexivity|].
      rewrite length_app. cbn. lia. }
  nxt.
  eapply (triple_bind _ (fun _ => sound)).
  { eapply triple_conseq; [apply triple_logf|intros s Hs; exact Hs|].
    intros ? s' (s & Hs & ->). now apply sound_emit. }
  nxt. apply triple_update; [apply sound_emit|].
  eapply triple_conseq; [apply triple_modify|intros s Hs; exact Hs|].
  intros ? s' (s & Hs & ->). now apply sound_set_exit.
Qed.

Lemma triple_close :
  triple sound (modify (emit TermboxClose)) (fun _ : unit => @sound W).
Proof.
  eapply triple_conseq; [apply triple_modify|intros s Hs; exact Hs|].
  intros ? s' (s & Hs & ->). now apply sound_emit.
Qed.

Lemma triple_monitor inputs : forall cmd,
  triple sound (monitor C cfg inputs cmd) (fun _ => sound).
Proof.
  induction inputs as [|i rest IH]; intros cmd; cbn [monitor].
  - intros s Hs. exact I.
  - eapply triple_bind; [apply triple_iteration|]. intros c.
    eapply (triple_bind _ (fun _ => sound)).
    { eapply triple_conseq; [apply triple_get|intros s Hs; exact Hs|].
      intros a s [Hs _]. exact Hs. }
    intros ex. destruct (negb ex); [apply IH|].
    destruct (c =? "failover")%string; [|apply triple_close].
    eapply triple_bind; [apply triple_restartAfterFailover|]. nxt.
    eapply triple_bind; [apply triple_enterMainLoop|]. nxt.
    eapply (triple_bind _ (fun _ => sound)).
    { eapply triple_conseq; [apply triple_get|intros s Hs; exact Hs|].
      intros a s [Hs _]. exact Hs. }
    intros ex'. destruct (negb ex'); [apply IH|apply triple_close].
Qed.

Lemma triple_dispatch inputs :
  triple sound (dispatch C cfg inputs) (fun _ => sound).
Proof.
  unfold dispatch. destruct (failover cfg =? "force")%string.
  { eapply triple_bind; [apply triple_call_failover|]. nxt.
    apply triple_pure; auto. }
  destruct (_ && _).
  { eapply triple_bind; [apply triple_call_switchover|]. nxt.
    apply triple_pure; auto. }
  unfold MainLoop.
  eapply triple_bind; [apply triple_enterMainLoop|]. nxt.
  eapply (triple_bind _ (fun _ => sound)).
  { eapply triple_conseq; [apply triple_get|intros s Hs; exact Hs|].
    intros a s [Hs _]. exact Hs. }
  intros ex. destruct (negb ex); [apply triple_monitor|apply triple_close].
Qed.

(** The start-up part: the pointers the classifier stores are those of the
    nodes it has just allocated. *)

Lemma triple_forRange {A} (I : @St W -> Prop) (body : nat -> A -> @M W unit) l :
  (forall k x, x ∈ l -> triple I (body k x) (fun _ => I)) ->
  forall k, triple I (forRange body k l) (fun _ => I).
Proof.
  induction l as [|x r IH]; intros Hb k; cbn [forRange].
  - intros s Hs. exact Hs.
  - eapply triple_bind; [apply Hb; apply elem_of_cons; now left|].
    nxt. apply IH. intros k' y Hy. apply Hb. apply elem_of_cons. now right.
Qed.

Lemma triple_forRangeBreak {A} (I : @St W -> Prop) (body : nat -> A -> @M W bool) l :
  (forall k x, x ∈ l -> triple I (body k x) (fun _ => I)) ->
  forall k, triple I (forRangeBreak body k l) (fun _ => I).
Proof.
  induction l as [|x r IH]; intros Hb k; cbn [forRangeBreak].
  - intros s Hs. exact Hs.
  - eapply triple_bind; [apply Hb; apply elem_of_cons; now left|].
    intros brk. cbn beta. destruct brk.
    + intros s Hs. exact Hs.
    + apply IH. intros k' y Hy. apply Hb. apply elem_of_cons. now right.
Qed.

Lemma triple_derefAll (P : @St W -> Prop) l :
  (forall s, P s -> Forall (validIn (length (heap s))) l) ->
  triple P (derefAll l) (fun _ => P).
Proof.
  induction l as [|p r IH]; intros Hv; cbn [derefAll].
  - intros s Hs. exact Hs.
  - eapply triple_bind.
    { apply triple_deref. intros s Hs. specialize (Hv s Hs). now inversion Hv. }
    nxt. eapply triple_bind.
    { apply IH. intros s Hs. specialize (Hv s Hs). now inversion Hv. }
    nxt. intros s Hs. exact Hs.
Qed.

Lemma slaveAddrs_bound prs : forall a b,
  b ∈ slaveAddrs a prs -> a <= b < a + length prs.
Proof.
  induction prs as [|pr r IH]; intros a b Hb; cbn [slaveAddrs length] in *.
  - inversion Hb.
  - apply elem_of_app in Hb. destruct Hb as [Hb|Hb].
    + destruct (bool_decide _); [|inversion Hb].
      apply list_elem_of_singleton in Hb. lia.
    + apply IH in Hb. lia.
Qed.

Lemma triple_classify :
  triple (fun s => Forall (validIn (length (heap s))) (slaves s) /\
                   (master s = nil_ptr \/ validIn (length (heap s)) (master s)))
         (classify C cfg) (fun _ s => loose [] s).
Proof.
  intros s [Hsl Hm].
  destruct (classify_closed s) as (s' & -> & _ & Hm' & _ & Hsv & Hhp & Hsl' & _).
  assert (Hlen : length (heap s') = length (heap s) + length (hostList s)).
  { rewrite Hhp, length_app, length_map, probes_length. reflexivity. }
  repeat split.
  - rewrite Hsv, Hlen. apply Forall_forall. intros p Hp.
    apply list_elem_of_fmap in Hp. destruct Hp as (a & -> & Ha).
    apply elem_of_seq in Ha. exists a. split; [reflexivity|lia].
  - rewrite Hsl', Hlen. apply Forall_app. split.
    + eapply Forall_impl; [exact Hsl|]. intros p. apply validIn_mono. lia.
    + apply Forall_forall. intros p Hp.
      apply list_elem_of_fmap in Hp. destruct Hp as (a & -> & Ha).
      apply slaveAddrs_bound in Ha. rewrite probes_length in Ha.
      exists a. split; [reflexivity|lia].
  - constructor.
  - rewrite Hm', Hlen. destruct Hm as [Hm|Hm]; [now left|right].
    eapply validIn_mono; [|exact Hm]. lia.
Qed.

Lemma triple_checkSiblings :
  triple (loose []) (checkSiblings C) (fun _ => loose []).
Proof.
  unfold checkSiblings. eapply triple_bind; [apply triple_get|]. intros sls.
  cbn beta.
  apply (triple_conseq (loose sls) _ (fun _ => loose sls) _).
  - apply triple_forRange. intros _ sl Hsl.
    eapply triple_bind.
    { apply triple_deref. intros s (_ & Hl & _).
      rewrite Forall_forall in Hl. auto. }
    intros sm. cbn beta. eapply triple_bind; [apply triple_get|].
    intros arg. cbn beta. eapply triple_bind.
    { apply triple_derefAll. intros s [([_ Hs] & _) ->]. exact Hs. }
    intros sib. cbn beta. destruct (negb _); [apply triple_fatal|].
    intros s [Hs _]. exact Hs.
  - intros s [(Hl & _ & Hm) ->]. repeat split; try apply Hl; auto.
  - intros _ s (Hl & _ & Hm). repeat split; try apply Hl; auto.
Qed.

Lemma loose_same l (s s' : @St W) :
  servers s' = servers s -> slaves s' = slaves s -> master s' = master s ->
  length (heap s') = length (heap s) ->
  loose l s -> loose l s'.
Proof.
  intros Hsv Hsl Hm Hlen ([H1 H2] & H3 & H4). unfold loose, listsSound.
  rewrite Hsv, Hsl, Hm, Hlen. auto.
Qed.

Lemma triple_serverAt (P : @St W -> Prop) k :
  triple P (serverAt k) (fun p s => P s /\ p ∈ servers s).
Proof.
  intros s Hs. unfold serverAt. rewrite bind_get_at. unfold index.
  destruct (_ <? 0)%Z; [discriminate|].
  destruct (servers s !! _) eqn:Hl; [|discriminate].
  cbn. split; [exact Hs|]. eapply list_elem_of_lookup_2. exact Hl.
Qed.

Lemma triple_foundMaster svs k s :
  s ∈ svs ->
  triple (loose svs) (@foundMaster W cfg k s) (fun _ => loose svs).
Proof.
  intros Hin. unfold foundMaster.
  eapply triple_bind; [apply triple_serverAt|].
  intros p. cbn beta.
  eapply (triple_bind _ (fun _ s' => loose svs s' /\ master s' = p /\
                                     validIn (length (heap s')) p)).
  { eapply triple_conseq; [apply triple_modify|intros s0 Hs; exact Hs|].
    intros ? s' (s0 & [Hs Hp] & ->). destruct Hs as ([Hsv Hsl] & Hl & _).
    assert (Hv : validIn (length (heap s0)) p)
      by (rewrite Forall_forall in Hsv; auto).
    cbn. repeat split; cbn; auto. }
  nxt. eapply triple_bind; [apply triple_get|]. intros m. cbn beta.
  eapply (triple_bind _ (fun _ => loose svs)).
  { eapply triple_conseq; [apply triple_setState|intros s0 HH; exact HH|].
    - intros s0 [(_ & Hp & Hv) ->]. rewrite Hp. exact Hv.
    - intros ? s' (s0 & a & sm & [(Hl & _) _] & ->).
      eapply loose_same; [..|exact Hl]; cbn; try reflexivity.
      apply length_insert. }
  nxt. eapply (triple_bind _ (fun _ => loose svs)).
  { destruct (verbose cfg); cbn [when]; [|intros s0 Hs; exact Hs].
    eapply triple_bind.
    { apply triple_deref. intros s0 (_ & Hl & _).
      rewrite Forall_forall in Hl. auto. }
    intros sm. cbn beta.
    eapply triple_conseq; [apply triple_logf|intros s0 Hs; exact Hs|].
    intros ? s' (s0 & Hl & ->).
    eapply loose_same; [..|exact Hl]; reflexivity. }
  nxt. intros s0 Hs. exact Hs.
Qed.

Lemma triple_scanBody (c1 c2 : ServerMonitor -> bool) svs k s :
  s ∈ svs ->
  triple (loose svs) (@scanBody W cfg c1 c2 k s) (fun _ => loose svs).
Proof.
  intros Hin. unfold scanBody. eapply triple_bind.
  { apply triple_deref. intros s0 (_ & Hl & _).
    rewrite Forall_forall in Hl. auto. }
  intros sm. cbn beta.
  destruct (c1 sm); [|intros s0 Hs; exact Hs].
  destruct (c2 sm); [|intros s0 Hs; exact Hs].
  now apply triple_foundMaster.
Qed.

(** Both paths of the locator: the first slave is read, then [servers] is
    scanned. *)
Lemma triple_locate (sel : ServerMonitor -> ServerMonitor -> bool * bool) :
  triple (loose [])
    (bind (get slaves) (fun sls => bind (index sls 0%Z) (fun p0 =>
       bind (deref p0) (fun s0 => bind (get servers) (fun svs =>
         forRangeBreak (fun k s =>
           bind (deref s) (fun sm =>
             if fst (sel s0 sm)
             then (if snd (sel s0 sm) then @foundMaster W cfg k s else ret false)
             else ret false)) 0 svs)))))
    (fun _ => loose []).
Proof.
  eapply triple_bind; [apply triple_get|]. intros sls. cbn beta.
  eapply triple_bind; [apply triple_index|]. intros p0. cbn beta.
  eapply triple_bind.
  { apply triple_deref. intros s [[([_ Hsl] & _) ->] Hp].
    rewrite Forall_forall in Hsl. auto. }
  intros s0. cbn beta.
  eapply triple_bind; [apply triple_get|]. intros svs. cbn beta.
  apply (triple_conseq (loose svs) _ (fun _ => loose svs) _).
  - apply triple_forRangeBreak. intros k s Hs.
    apply (triple_scanBody (fun sm => fst (sel s0 sm)) (fun sm => snd (sel s0 sm))).
    exact Hs.
  - intros s [[[(Hl & _ & Hm) _] _] ->]. repeat split; try apply Hl; auto.
  - intros ? s (Hl & _ & Hm). repeat split; try apply Hl; auto.
Qed.

Lemma triple_locateMaster :
  triple (loose []) (@locateMaster W cfg) (fun _ => loose []).
Proof.
  unfold locateMaster. destruct (usesServerIdPath cfg).
  - apply (triple_locate (fun s0 sm =>
      ((State sm =? STATE_UNCONN)%string, (ServerId sm =? MasterServerId s0)%N))).
  - apply (triple_locate (fun s0 sm =>
      ((State sm =? STATE_FAILED)%string,
       (Host sm =? MasterHost s0)%string || (IP sm =? MasterHost s0)%string))).
Qed.

Lemma triple_finalCheck :
  triple (loose []) (@finalCheck W) (fun _ => sound).
Proof.
  intros s (Hl & _ & Hm). unfold finalCheck. rewrite bind_get_at.
  destruct (master s) eqn:E; [|exact I].
  cbn. split; [exact Hl|]. rewrite E. destruct Hm as [Hm|Hm]; [discriminate|exact Hm].
Qed.

Lemma triple_bootstrap :
  triple (fun s => Forall (validIn (length (heap s))) (slaves s) /\
                   (master s = nil_ptr \/ validIn (length (heap s)) (master s)))
         (bootstrap C cfg) (fun _ => sound).
Proof.
  unfold bootstrap.
  eapply triple_bind; [apply triple_classify|]. nxt.
  eapply triple_bind; [apply triple_checkSiblings|]. nxt.
  eapply triple_bind; [apply triple_locateMaster|]. nxt.
  apply triple_finalCheck.
Qed.

Lemma triple_checkSlaves :
  triple sound (checkSlaves C cfg) (fun _ => sound).
Proof.
  unfold checkSlaves. eapply triple_bind; [apply triple_get|]. intros sls.
  cbn beta.
  apply (triple_conseq (fun s => sound s /\ Forall (validIn (length (heap s))) sls) _
           (fun _ s => sound s /\ Forall (validIn (length (heap s))) sls) _).
  - apply triple_forRange. intros _ sl Hsl.
    assert (Hd : forall A (k : ServerMonitor -> ServerMonitor -> @M W A) Q,
      (forall sm mm, triple (fun s => sound s /\ Forall (validIn (length (heap s))) sls)
                       (k sm mm) Q) ->
      triple (fun s => sound s /\ Forall (validIn (length (heap s))) sls)
        (bind (deref sl) (fun sm => bind (get master) (fun m =>
           bind (deref m) (fun mm => k sm mm)))) Q).
    { intros A k Q Hk. eapply triple_bind.
      { apply triple_deref. intros s [_ Hl]. rewrite Forall_forall in Hl. auto. }
      intros sm. cbn beta. eapply triple_bind; [apply triple_get|]. intros m.
      cbn beta. eapply triple_bind.
      { apply triple_deref. intros s [[[_ Hm] _] ->]. exact Hm. }
      intros mm. cbn beta.
      eapply triple_conseq; [apply Hk|intros s [Hs _]; exact Hs|auto]. }
    eapply (triple_bind _ (fun _ s => sound s /\ Forall (validIn (length (heap s))) sls)).
    { destruct (verbose cfg); cbn [when]; [|intros s Hs; exact Hs].
      apply Hd. intros sm mm.
      eapply triple_conseq; [apply triple_logf|intros s Hs; exact Hs|].
      intros ? s' (s & [Hs Hl] & ->). split; [now apply sound_emit|exact Hl]. }
    nxt. apply Hd. intros sm mm.
    eapply (triple_bind _ (fun _ s => sound s /\ Forall (validIn (length (heap s))) sls)).
    { intros s [Hs Hl]. cbn. split; [now apply sound_emit|exact Hl]. }
    intros ok. cbn beta. destruct (negb ok); [|intros s Hs; exact Hs].
    eapply triple_conseq; [apply triple_logf|intros s Hs; exact Hs|].
    intros ? s' (s & [Hs Hl] & ->). split; [now apply sound_emit|exact Hl].
  - intros s [Hs ->]. split; [exact Hs|apply Hs].
  - intros ? s [Hs _]. exact Hs.
Qed.

Lemma triple_checkPrefMaster :
  triple sound (@checkPrefMaster W cfg) (fun _ => sound).
Proof.
  unfold checkPrefMaster. eapply triple_bind; [apply triple_get|]. intros hl.
  cbn beta. destruct (_ && _); [apply triple_fatal|].
  intros s [Hs _]. exact Hs.
Qed.

Lemma triple_validateFlags (P : @St W -> Prop) :
  (forall s s', slaves s' = slaves s -> master s' = master s -> heap s' = heap s ->
                P s -> P s') ->
  triple P (validateFlags C cfg) (fun _ => P).
Proof.
  intros HP s Hs.
  unfold validateFlags, when, bind, modify, ret, fatal.
  repeat match goal with
         | |- context [if ?b then _ else _] => destruct b; cbn
         end; auto; (eapply HP; [..|exact Hs]; reflexivity).
Qed.

Lemma sound_runDeferred (s : @St W) : sound s -> sound (runDeferred s).
Proof.
  intros Hs. unfold runDeferred.
  assert (H : forall l (s0 : @St W), sound s0 ->
            sound (fold_left (fun s' p => emit (ConnClose p) s') l s0)).
  { induction l as [|p l IH]; intros s0 H0; cbn [fold_left]; [exact H0|].
    apply IH. now apply sound_emit. }
  specialize (H (deferred s) s Hs).
  eapply sound_same; [..|exact H]; cbn; try reflexivity.
Qed.

Lemma triple_mainBody inputs :
  triple (fun s => Forall (validIn (length (heap s))) (slaves s) /\
                   (master s = nil_ptr \/ validIn (length (heap s)) (master s)))
         (mainBody C cfg inputs) (fun _ => sound).
Proof.
  unfold mainBody.
  eapply triple_bind.
  { apply triple_validateFlags. intros s s' Hsl Hm Hh HP.
    now rewrite Hsl, Hm, Hh. }
  nxt. eapply triple_bind; [apply triple_bootstrap|]. nxt.
  eapply triple_bind; [apply triple_checkSlaves|]. nxt.
  eapply triple_bind; [apply triple_checkPrefMaster|]. nxt.
  apply triple_dispatch.
Qed.

Lemma triple_main inputs :
  triple (fun s => Forall (validIn (length (heap s))) (slaves s) /\
                   (master s = nil_ptr \/ validIn (length (heap s)) (master s)))
         (main C cfg inputs) (fun _ => sound).
Proof.
  intros s Hs. pose proof (triple_mainBody inputs s Hs) as H. unfold main.
  destruct (mainBody C cfg inputs s) as [[] s1|msg s1|msg s1|s1]; cbn; auto.
  now apply sound_runDeferred.
Qed.

(** ** The topology the start-up leaves *)

Lemma nodes_exist (h : list ServerMonitor) l :
  Forall (validIn (length h)) l ->
  exists nodes, Forall2 (fun p sm => nodeAt h p = Some sm) l nodes.
Proof.
  induction 1 as [|p l (a & -> & Ha) _ (nodes & IH)].
  - exists []. constructor.
  - destruct (lookup_lt_is_Some_2 h a Ha) as [sm Hsm].
    exists (sm :: nodes). now constructor.
Qed.

Lemma slaveAddrs_spec prs : forall a b,
  b ∈ slaveAddrs a prs ->
  exists pr, prs !! (b - a) = Some pr /\ a <= b /\ classOf pr = STATE_SLAVE.
Proof.
  induction prs as [|pr r IH]; intros a b Hb; cbn [slaveAddrs] in Hb.
  - inversion Hb.
  - apply elem_of_app in Hb. destruct Hb as [Hb|Hb].
    + destruct (bool_decide_reflect (classOf pr = STATE_SLAVE)) as [Hc|Hc];
        [|inversion Hb].
      apply list_elem_of_singleton in Hb. subst b. exists pr.
      rewrite Nat.sub_diag. auto.
    + destruct (IH _ _ Hb) as (pr' & Hl & Hle & Hc). exists pr'.
      replace (b - a) with (S (b - S a)) by lia. repeat split; auto. lia.
Qed.

Lemma finalNode_slave pr :
  classOf pr = STATE_SLAVE -> State (finalNode pr) = STATE_SLAVE.
Proof.
  unfold classOf, finalNode. destruct (snd pr); [discriminate|].
  destruct (negb _); [reflexivity|discriminate].
Qed.

(** The scan either passes over every node or designates one that passed
    both tests. *)
Lemma scan_total (c1 c2 : ServerMonitor -> bool) (st : @St W) : forall l k,
  (forall i p, l !! i = Some p -> servers st !! (k + i) = Some p) ->
  Forall (validIn (length (heap st))) l ->
  forRangeBreak (scanBody cfg c1 c2) k l st = Ok tt st \/
  exists i a sm,
    servers st !! i = Some (Some a) /\ heap st !! a = Some sm /\
    c1 sm = true /\ c2 sm = true /\
    forRangeBreak (scanBody cfg c1 c2) k l st = Ok tt (elected cfg st a sm).
Proof.
  induction l as [|p l IH]; intros k Hsv Hl; [now left|].
  inversion Hl as [|? ? (a & -> & Ha) Hl']; subst.
  destruct (lookup_lt_is_Some_2 (heap st) a Ha) as [sm Hsm].
  assert (Hk : servers st !! k = Some (Some a)).
  { specialize (Hsv 0 (Some a) eq_refl). now rewrite Nat.add_0_r in Hsv. }
  assert (Hrest : forall i p, l !! i = Some p -> servers st !! (S k + i) = Some p).
  { intros i p Hi. specialize (Hsv (S i) p Hi).
    now rewrite Nat.add_succ_r in Hsv. }
  cbn [forRangeBreak]. unfold scanBody at 1 3. rewrite !bind_assoc_at.
  rewrite !(bind_ok _ _ _ _ _ (deref_ok _ _ _ Hsm)).
  destruct (c1 sm) eqn:H1; [destruct (c2 sm) eqn:H2|].
  - right. exists k, a, sm. repeat split; auto.
    now rewrite (bind_ok _ _ _ _ _ (foundMaster_ok _ _ _ _ Hk Hsm)).
  - rewrite !bind_ret_at. now apply IH.
  - rewrite !bind_ret_at. now apply IH.
Qed.

(** What a completed locator and final check leave, on either path. *)
Lemma locate_total (st st' : @St W) :
  listsSound st -> master st = nil_ptr ->
  bind (locateMaster cfg) (fun _ => finalCheck) st = Ok tt st' ->
  slaves st <> [] /\
  exists i a sm,
    servers st !! i = Some (Some a) /\ heap st !! a = Some sm /\
    (State sm = STATE_UNCONN \/ State sm = STATE_FAILED) /\
    st' = elected cfg st a sm.
Proof.
  intros [Hsv Hsl] Hm Hrun.
  destruct (slaves st) as [|p0 rest] eqn:Es.
  { unfold bind in Hrun. rewrite (locateMaster_no_slaves st Es) in Hrun.
    discriminate. }
  split; [discriminate|].
  inversion Hsl as [|? ? (a0 & -> & Ha0) _]; subst.
  destruct (lookup_lt_is_Some_2 (heap st) a0 Ha0) as [s0 Hs0].
  assert (Hhead : forall B (k : ServerMonitor -> @M W B),
            bind (get slaves) (fun sls => bind (index sls 0%Z) (fun p =>
              bind (deref p) k)) st = k s0 st).
  { intros B k. rewrite bind_get_at, Es.
    erewrite bind_ok by (apply (index_in_range _ 0%Z (Some a0)); [lia|reflexivity]).
    now rewrite (bind_ok _ _ _ _ _ (deref_ok _ _ _ Hs0)). }
  assert (Hfin : forall c1 c2,
    bind (forRangeBreak (scanBody cfg c1 c2) 0 (servers st)) (fun _ => finalCheck) st
      = Ok tt st' ->
    exists i a sm, servers st !! i = Some (Some a) /\ heap st !! a = Some sm /\
      c1 sm = true /\ st' = elected cfg st a sm).
  { intros c1 c2 Hr.
    destruct (scan_total c1 c2 st (servers st) 0) as [Hn|(i & a & sm & Hi & Ha & H1 & _ & Hf)];
      [intros i p Hi; exact Hi|exact Hsv| |].
    - unfold bind at 1 in Hr. rewrite Hn in Hr. unfold finalCheck in Hr.
      rewrite bind_get_at, Hm in Hr. discriminate.
    - unfold bind at 1 in Hr. rewrite Hf in Hr. unfold finalCheck in Hr.
      rewrite bind_get_at in Hr. cbn in Hr. exists i, a, sm.
      repeat split; auto. now inversion Hr. }
  unfold bind at 1 in Hrun. unfold locateMaster in Hrun.
  destruct (usesServerIdPath cfg); rewrite Hhead, bind_get_at in Hrun.
  - destruct (Hfin (fun sm => String.eqb (State sm) STATE_UNCONN)
                   (fun sm => N.eqb (ServerId sm) (MasterServerId s0)))
      as (i & a & sm & Hi & Ha & H1 & ->); [exact Hrun|].
    exists i, a, sm. repeat split; auto. left. now apply String.eqb_eq.
  - destruct (Hfin (fun sm => String.eqb (State sm) STATE_FAILED)
                   (fun sm => String.eqb (Host sm) (MasterHost s0)
                              || String.eqb (IP sm) (MasterHost s0)))
      as (i & a & sm & Hi & Ha & H1 & ->); [exact Hrun|].
    exists i, a, sm. repeat split; auto. right. now apply String.eqb_eq.
Qed.

(** X9: when the start-up sequence (classifier, sibling check, master
    locator, final check) of a fresh process runs to its end, [master]
    points to one of the nodes of [servers], that node is in state Master
    and is not one of [slaves]; [slaves] is not empty, and each of its
    entries is an entry of [servers] whose node is in state Slave. *)
Theorem start_up_topology (st st' : @St W) :
  heap st = [] -> slaves st = [] -> master st = nil_ptr ->
  bootstrap C cfg st = Ok tt st' ->
  exists a,
    master st' = Some a /\
    (Some a ∈ servers st') /\
    stateAt (heap st') (Some a) = Some STATE_MASTER /\
    (Some a ∉ slaves st') /\
    slaves st' <> [] /\
    Forall (fun p => p ∈ servers st' /\ stateAt (heap st') p = Some STATE_SLAVE)
           (slaves st').
Proof.
  intros Hh Hs Hm Hrun. unfold bootstrap in Hrun.
  destruct (classify_closed st) as (s1 & Hc & _ & Hm1 & _ & Hsv & Hhp & Hsl & _).
  rewrite Hh in Hsv, Hhp, Hsl. rewrite Hs in Hsl. cbn in Hsv, Hhp, Hsl.
  rewrite Hm in Hm1.
  set (prs := probes C (world st) (hostList st)) in *.
  assert (Hlen : length (heap s1) = length (hostList st)).
  { rewrite Hhp, length_map. apply probes_length. }
  assert (Hslave : forall b, b ∈ slaveAddrs 0 prs ->
            b < length (hostList st) /\
            exists sm, heap s1 !! b = Some sm /\ State sm = STATE_SLAVE).
  { intros b Hb. pose proof (slaveAddrs_bound _ _ _ Hb) as Hbd.
    unfold prs in Hbd. rewrite probes_length in Hbd. split; [lia|].
    destruct (slaveAddrs_spec _ _ _ Hb) as (pr & Hpr & _ & Hcl).
    rewrite Nat.sub_0_r in Hpr. exists (finalNode pr). split.
    - rewrite Hhp, list_lookup_fmap, Hpr. reflexivity.
    - now apply finalNode_slave. }
  assert (Hsound : listsSound s1).
  { split.
    - rewrite Hsv, Hlen. apply Forall_forall. intros p Hp.
      apply list_elem_of_fmap in Hp. destruct Hp as (b & -> & Hb).
      apply elem_of_seq in Hb. exists b. split; [reflexivity|lia].
    - rewrite Hsl, Hlen. apply Forall_forall. intros p Hp.
      apply list_elem_of_fmap in Hp. destruct Hp as (b & -> & Hb).
      exists b. split; [reflexivity|]. now apply Hslave. }
  rewrite (bind_ok _ _ _ _ _ Hc) in Hrun.
  destruct (nodes_exist (heap s1) (slaves s1)) as [sibs Hsibs]; [apply Hsound|].
  unfold bind at 1 in Hrun. rewrite (checkSiblings_run s1 sibs Hsibs) in Hrun.
  destruct (forallb _ sibs); [|discriminate].
  destruct (locate_total s1 st' Hsound Hm1 Hrun)
    as (Hne & i & a & sm & Hi & Ha & Hst & ->).
  assert (Hlt : a < length (heap s1)) by (eapply lookup_lt_Some; eauto).
  assert (Hnot : a ∉ slaveAddrs 0 prs).
  { intros Hin. destruct (Hslave a Hin) as (_ & sm' & Hsm' & Hst').
    rewrite Ha in Hsm'. inversion Hsm'; subst sm'.
    destruct states_distinct as (H1 & H2 & _).
    destruct Hst as [Hst|Hst]; congruence. }
  exists a. cbn. repeat split.
  - eapply list_elem_of_lookup_2. exact Hi.
  - unfold stateAt, nodeAt. now rewrite list_lookup_insert_eq by exact Hlt.
  - rewrite Hsl. intros Hin. apply list_elem_of_fmap in Hin.
    destruct Hin as (b & Hb & Hin). inversion Hb; subst b. now apply Hnot.
  - exact Hne.
  - rewrite Hsl. apply Forall_forall. intros p Hp.
    apply list_elem_of_fmap in Hp. destruct Hp as (b & -> & Hb).
    destruct (Hslave b Hb) as (Hbd & sm' & Hsm' & Hst'). split.
    + rewrite Hsv. apply list_elem_of_fmap. exists b. split; [reflexivity|].
      apply elem_of_seq. lia.
    + unfold stateAt, nodeAt. rewrite list_lookup_insert_ne.
      * rewrite Hsm'. cbn. now rewrite Hst'.
      * intros ->. now apply Hnot.
Qed.

(** X10: started with no slave pointer that dangles and [master] nil (or
    pointing to a node), [main] never follows a nil pointer, whatever the
    collaborators answer and whatever the inputs: [servers], [slaves] and
    [master] are only followed after they were set to nodes
    [newServerMonitor] handed back; a run that ends leaves all three
    pointing to nodes. *)
Theorem main_never_follows_nil (st : @St W) inputs :
  Forall (validIn (length (heap st))) (slaves st) ->
  master st = nil_ptr \/ validIn (length (heap st)) (master st) ->
  noNilPanic (main C cfg inputs st) /\
  forall s', main C cfg inputs st = Ok tt s' -> sound s'.
Proof.
  intros Hsl Hm. pose proof (triple_main inputs st (conj Hsl Hm)) as H.
  destruct (main C cfg inputs st) as [[] s1|msg s1|msg s1|s1]; cbn; split;
    try exact I; try discriminate; try exact H.
  intros s' E. now inversion E; subst.
Qed.

(** ** A switchover answer past the slave list *)

(** X11: when Ctrl-S is handled and the switchover answers a new master URL
    with an index at or past the end of [slaves], the handler panics with
    an index out of range.  In verbose mode the panic comes while the debug
    line is built, before anything is reconnected; otherwise it comes after
    the connection to the new master was made and [master] was replaced,
    so the process dies with [master] changed and [slaves] untouched. *)
Theorem switchover_index_past_end_panics (st : @St W) w' touch url key :
  sm_switchover C (world st) (heap st) (slaves st) (master st)
    = (w', touch, (url, key)) ->
  url <> EmptyString -> (Z.of_nat (length (slaves st)) <= key)%Z ->
  let st1 := afterCall (CallSwitchover (master st)) w' touch st in
  onCtrlS C cfg st =
    Panic PANIC_INDEX
      (if verbose cfg then st1
       else set_master (Some (length (heap st))) (afterConnect C url st1)) /\
  forall ch cmd rest,
    exists s', monitor C cfg (Term (mkTbEvent EventKey KeyCtrlS ch) :: rest) cmd st
                 = Panic PANIC_INDEX s' /\
               slaves s' = slaves st /\
               master s' = if verbose cfg then master st
                           else Some (length (heap st)).
Proof.
  intros Hcall Hurl Hkey st1.
  assert (Hlen1 : length (heap st1) = length (heap st))
    by (subst st1; cbn; apply length_imap).
  assert (Hrun : onCtrlS C cfg st =
    Panic PANIC_INDEX
      (if verbose cfg then st1
       else set_master (Some (length (heap st))) (afterConnect C url st1))).
  { unfold onCtrlS.
    rewrite (bind_ok _ _ _ _ _ (call_switchover_eq _ _ _ _ Hcall)).
    cbn [fst snd]. fold st1.
    apply String.eqb_neq in Hurl. rewrite Hurl.
    destruct (Z.leb_spec 0 key); [|lia]. cbn [negb andb].
    destruct (verbose cfg); cbn [when].
    - rewrite !bind_assoc_at, bind_get_at. unfold bind.
      rewrite index_out_of_range; [reflexivity|].
      right. subst st1. cbn. exact Hkey.
    - rewrite bind_ret_at.
      rewrite (bind_ok _ _ _ _ _ (call_newServerMonitor_eq _ _)).
      cbn [fst]. rewrite bind_modify_at, bind_get_at. unfold bind.
      rewrite index_out_of_range; [now rewrite Hlen1|].
      right. subst st1. cbn. exact Hkey. }
  split; [exact Hrun|].
  intros ch cmd rest. eexists. split.
  - cbn [monitor]. unfold iteration, handleInput. cbn [evType evKey].
    change (EventKey =? EventKey)%N with true.
    change (KeyCtrlS =? KeyCtrlS)%N with true. cbv iota.
    unfold bind. rewrite Hrun. reflexivity.
  - destruct (verbose cfg); subst st1; cbn; auto.
Qed.
End Properties.

(** * The properties on the scripted cluster *)

Import Cluster.

Lemma cluster_contract : NodeMonitorContract collab.
Proof.
  split.
  - intros w url. cbn. unfold connect.
    destruct (lookupHost (table w) url) as [h|]; [destruct (h_up h)|]; cbn;
      first [reflexivity | discriminate].
  - intros w sm. cbn. unfold readFacts.
    destruct (lookupHost (table w) (URL sm)); reflexivity.
Qed.

(** Hosts listed as h2, h1, h3: the master is the second entry. *)
Lemma locate_master_by_server_id_witness :
  (exists sm, heap (classified swapped healthy) !! 1 = Some sm /\
     bind (locateMaster cfgMonitor) (fun _ => finalCheck) (classified swapped healthy)
       = Ok tt (elected cfgMonitor (classified swapped healthy) 1 sm) /\
     stateAt (heap (elected cfgMonitor (classified swapped healthy) 1 sm)) (Some 1)
       = Some STATE_MASTER) /\
  bind (locateMaster cfgMonitor) (fun _ => finalCheck) (classified swapped masterDown)
    = Fatal MSG_NO_MASTER (classified swapped masterDown).
Proof.
  split.
  - eexists. split; [reflexivity|].
    refine ((fun H => conj (proj1 H) (proj2 (proj2 H)))
             (proj1 (locate_master_by_server_id cfgMonitor (classified swapped healthy)
                       (Some 0) [Some 2] _ _ _ _)
                [Some 0] 1 [Some 2] _ _ _ _ _)).
    + right. reflexivity.
    + reflexivity.
    + reflexivity.
    + reflexivity.
    + constructor; [|constructor]. eexists. split; [reflexivity|].
      intros [H _]. vm_compute in H. discriminate.
    + reflexivity.
    + split; reflexivity.
  - refine (proj2 (locate_master_by_server_id cfgMonitor (classified swapped masterDown)
                     (Some 0) [Some 2] _ _ _ _) _ _).
    + right. reflexivity.
    + reflexivity.
    + reflexivity.
    + reflexivity.
    + repeat constructor; eexists; (split; [reflexivity|]);
        intros [H _]; vm_compute in H; discriminate.
Defined.

(** The same host list with h1 down, in failover mode "check": h1 is found
    by its IP, the master host the first slave reports. *)
Lemma locate_master_by_host_witness :
  (exists sm, heap (classified swapped masterDown) !! 1 = Some sm /\
     bind (locateMaster cfgCheck) (fun _ => finalCheck) (classified swapped masterDown)
       = Ok tt (elected cfgCheck (classified swapped masterDown) 1 sm) /\
     stateAt (heap (elected cfgCheck (classified swapped masterDown) 1 sm)) (Some 1)
       = Some STATE_MASTER) /\
  bind (locateMaster cfgCheck) (fun _ => finalCheck) (classified swapped healthy)
    = Fatal MSG_NO_MASTER (classified swapped healthy).
Proof.
  split.
  - eexists. split; [reflexivity|].
    refine ((fun H => conj (proj1 H) (proj2 (proj2 H)))
             (proj1 (locate_master_by_host cfgCheck (classified swapped masterDown)
                       (Some 0) [Some 2] _ _ _ _ _)
                [Some 0] 1 [Some 2] _ _ _ _ _)).
    + reflexivity.
    + discriminate.
    + reflexivity.
    + reflexivity.
    + reflexivity.
    + constructor; [|constructor]. eexists. split; [reflexivity|].
      intros [H _]. vm_compute in H. discriminate.
    + reflexivity.
    + split; [reflexivity|]. right. reflexivity.
  - refine (proj2 (locate_master_by_host cfgCheck (classified swapped healthy)
                     (Some 0) [Some 2] _ _ _ _ _) _ _).
    + reflexivity.
    + discriminate.
    + reflexivity.
    + reflexivity.
    + reflexivity.
    + repeat constructor; eexists; (split; [reflexivity|]);
        intros [H _]; vm_compute in H; discriminate.
Defined.

(** Two slaves that report different masters, and two that agree. *)
Lemma siblings_disagreement_is_fatal_witness :
  (forall next : @M World unit,
     bind (checkSiblings collab) (fun _ => next) (classified swapped splitBrain)
     = Fatal MSG_MULTI_MASTER (classified swapped splitBrain)) /\
  (forall next : @M World unit,
     bind (checkSiblings collab) (fun _ => next) (classified swapped healthy)
     = next (classified swapped healthy)).
Proof.
  split.
  - refine (proj1 (siblings_disagreement_is_fatal collab (classified swapped splitBrain)
                     [ mkServerMonitor h2 "h2" "10.0.0.2" 101 100 "10.0.0.1" "Slave_Pos" STATE_SLAVE;
                       mkServerMonitor h3 "h3" "10.0.0.3" 102 999 "10.0.0.9" "Slave_Pos" STATE_SLAVE ]
                     _) _).
    + repeat constructor.
    + constructor. reflexivity.
  - refine (proj2 (siblings_disagreement_is_fatal collab (classified swapped healthy)
                     [ mkServerMonitor h2 "h2" "10.0.0.2" 101 100 "10.0.0.1" "Slave_Pos" STATE_SLAVE;
                       mkServerMonitor h3 "h3" "10.0.0.3" 102 100 "10.0.0.1" "Slave_Pos" STATE_SLAVE ]
                     _) _).
    + repeat constructor.
    + repeat constructor.
Defined.

(** h1 fails to connect, h2 and h3 are slaves. *)
Lemma classify_partition_witness :
  NodeMonitorContract collab /\
  slaves (boot [h1; h2; h3] (quiet masterDown)) = [] /\
  exists st',
    classify collab cfgMonitor (boot [h1; h2; h3] (quiet masterDown)) = Ok tt st' /\
    length (servers st') = 3 /\
    slaves st' = filter (fun p => stateAt (heap st') p = Some STATE_SLAVE) (servers st').
Proof.
  split; [exact cluster_contract|]. split; [reflexivity|].
  destruct (classify_partition collab cfgMonitor (boot [h1; h2; h3] (quiet masterDown))
              cluster_contract eq_refl) as (st' & Hrun & Hlen & _ & Hsl).
  exists st'. split; [exact Hrun|]. split; [exact Hlen|exact Hsl].
Defined.

(** Every host is down. *)
Lemma empty_slave_list_panics_witness :
  exists st',
    bootstrap collab cfgMonitor (boot [h1; h2; h3] (quiet allDown)) = Panic PANIC_INDEX st' /\
    slaves st' = [].
Proof.
  destruct (empty_slave_list_panics collab cfgMonitor (boot [h1; h2; h3] (quiet allDown)))
    as (st' & Hrun & Hsl & _ & _).
  - reflexivity.
  - intros pr Hin. vm_compute in Hin.
    repeat (apply elem_of_cons in Hin; destruct Hin as [->|Hin]; [left; reflexivity|]).
    inversion Hin.
  - exists st'. split; assumption.
Defined.

(** Non-interactive monitor mode; a tick shows that h1 has failed, and
    [failover()] answers h2, slave 0. *)
Lemma automatic_failover_restarts_monitor_witness :
  iteration collab cfgAuto Tick EmptyString (atLoopHead cfgAuto wOutage)
    = Ok "failover"%string
        (set_exit true (final (handleInput collab cfgAuto Tick EmptyString (atLoopHead cfgAuto wOutage)))) /\
  exists st_r,
    restartAfterFailover collab cfgAuto
      (set_exit true (final (handleInput collab cfgAuto Tick EmptyString (atLoopHead cfgAuto wOutage))))
      = Ok tt st_r /\
    master st_r = Some 3 /\
    slaves st_r = [Some 2] /\
    exit st_r = false /\
    monitor collab cfgAuto [Tick; Tick] EmptyString (atLoopHead cfgAuto wOutage)
      = MainLoop collab cfgAuto [Tick] st_r.
Proof.
  destruct (automatic_failover_restarts_monitor collab cfgAuto
              (atLoopHead cfgAuto wOutage)
              (final (handleInput collab cfgAuto Tick EmptyString (atLoopHead cfgAuto wOutage)))
              Tick [Tick] EmptyString EmptyString 0
              (mkServerMonitor h1 "h1" "10.0.0.1" 100 0 EmptyString EmptyString STATE_FAILED)
              (mkWorld healthy [] []) untouched h2 0%Z (Some 1))
    as (Hit & st_r & Hre & Hm & _ & Hsl & _ & Hex & _ & Hmon).
  - reflexivity.
  - vm_compute. reflexivity.
  - vm_compute. reflexivity.
  - vm_compute. reflexivity.
  - reflexivity.
  - vm_compute. reflexivity.
  - discriminate.
  - lia.
  - vm_compute. reflexivity.
  - split; [exact Hit|]. exists st_r.
    split; [exact Hre|].
    vm_compute in Hm. vm_compute in Hsl.
    split; [exact Hm|]. split; [exact Hsl|].
    split; [exact Hex|exact Hmon].
Defined.

(** Interactive switchover mode; Ctrl-S with an answer naming slave 0, and
    with an empty answer. *)
Lemma manual_switchover_frame_witness :
  (exists st2,
     onCtrlS collab cfgKeep (atLoopHead cfgKeep wPromote) = Ok tt st2 /\
     master st2 = Some 3 /\
     slaves st2 = [Some 4; Some 2] /\
     servers st2 = [Some 0; Some 1; Some 2] /\
     exit st2 = false /\
     handleInput collab cfgKeep ctrlS EmptyString (atLoopHead cfgKeep wPromote)
       = Ok EmptyString st2 /\
     monitor collab cfgKeep [ctrlS; Tick] EmptyString (atLoopHead cfgKeep wPromote)
       = monitor collab cfgKeep [Tick] EmptyString st2) /\
  onCtrlS collab cfgKeep (atLoopHead cfgKeep (quiet healthy))
    = Ok tt (afterCall (CallSwitchover (Some 0)) (quiet healthy) untouched
               (atLoopHead cfgKeep (quiet healthy))).
Proof.
  split.
  - pose proof (manual_switchover_frame collab cfgKeep (atLoopHead cfgKeep wPromote)
                  (quiet healthy) untouched h2 0%Z eq_refl) as (Hok & _ & Hloop).
    destruct (Hok ltac:(discriminate) ltac:(lia) 1
                (mkServerMonitor h2 "h2" "10.0.0.2" 101 100 "10.0.0.1" "Slave_Pos" STATE_SLAVE)
                eq_refl eq_refl)
      as (st2 & Hrun & Hm & Hnode & Hsl & _ & _ & _ & Hsv & _ & Hex & _).
    exists st2. split; [exact Hrun|]. split; [exact Hm|]. split; [exact Hsl|].
    split; [exact Hsv|]. split; [exact Hex|].
    destruct (Hloop st2 Hrun "a"%char EmptyString [Tick])
      as (Hh & _ & _ & _ & _ & _ & _ & Hgo).
    split; [exact Hh|].
    rewrite Hm in Hnode.
    exact (proj2 (Hgo Hex) 3 _ Hm Hnode (or_introl eq_refl)).
  - pose proof (manual_switchover_frame collab cfgKeep (atLoopHead cfgKeep (quiet healthy))
                  (quiet healthy) untouched EmptyString (-1)%Z eq_refl) as (_ & Hempty & _).
    apply Hempty. left. reflexivity.
Defined.

(** [failover()] answers index 5 with two slaves; [switchover()] answers a
    negative index. *)
Lemma failover_index_is_not_validated_witness :
  (exists st',
     restartAfterFailover collab cfgAuto (atLoopHead cfgAuto wPastEnd)
       = Panic PANIC_SLICE st' /\
     master st' = Some 3 /\ slaves st' = [Some 1; Some 2]) /\
  onCtrlS collab cfgAuto (atLoopHead cfgAuto wNegative)
    = Ok tt (afterCall (CallSwitchover (Some 0)) (quiet healthy) untouched
               (atLoopHead cfgAuto wNegative)).
Proof.
  split.
  - destruct (proj1 (failover_index_is_not_validated collab cfgAuto
                       (atLoopHead cfgAuto wPastEnd) (quiet healthy) untouched h2 5%Z
                       ltac:(discriminate) ltac:(right; vm_compute; discriminate))
                ltac:(vm_compute; reflexivity))
      as (st' & Hrun & Hm & Hsl).
    exists st'. vm_compute in Hm. vm_compute in Hsl.
    split; [exact Hrun|]. split; [exact Hm|exact Hsl].
  - apply (proj2 (failover_index_is_not_validated collab cfgAuto
                    (atLoopHead cfgAuto wNegative) (quiet healthy) untouched h2 (-1)%Z
                    ltac:(discriminate) ltac:(left; lia))
             ltac:(vm_compute; reflexivity) ltac:(lia)).
Defined.

(** C6: on a healthy three-host cluster, with hosts h1, h2, h3 and the
    preferred master "d" (not one of the hosts), [main] does end with the
    preferred-master diagnostic, but only after it has connected to and
    refreshed all three hosts; the error is not detected before any
    connection attempt.  The other flag validations are: the same command
    line with both modes set ends fatally with nothing on the trace. *)
Theorem preferred_master_error_after_connections :
  main collab cfgPref [] (initSt (quiet healthy))
    = Fatal MSG_PREF_MASTER (endOfRun cfgPref (quiet healthy)) /\
  prefMaster cfgPref <> EmptyString /\
  (prefMaster cfgPref ∉ Split (hosts cfgPref)) /\
  take 6 (trace (endOfRun cfgPref (quiet healthy)))
    = [Connect h1; Refresh h1; Connect h2; Refresh h2; Connect h3; Refresh h3] /\
  main collab cfgBothModes [] (initSt (quiet healthy))
    = Fatal "ERROR: Both switchover and failover modes are set."
            (endOfRun cfgBothModes (quiet healthy)) /\
  trace (endOfRun cfgBothModes (quiet healthy)) = [].
Proof.
  split; [vm_compute; reflexivity|].
  split; [discriminate|].
  split.
  - intros H. vm_compute in H.
    repeat (apply elem_of_cons in H; destruct H as [H|H]; [discriminate H|]).
    inversion H.
  - repeat split; vm_compute; reflexivity.
Qed.

(** The start-up line of failover mode "check". *)
Lemma check_is_monitor_from_dispatch_on_witness :
  snd (termbox_Init collab (world (classified swapped healthy))) = None /\
  enterMainLoop collab (failoverFlags cfgCheck "check") (classified swapped healthy)
  = Ok tt (emit (TlogAdd "Monitor started in failover mode")
             (emit TermboxInit
                (set_world (fst (termbox_Init collab (world (classified swapped healthy))))
                   (classified swapped healthy)))) /\
  dispatch collab (failoverFlags cfgCheck "check") [Tick] (classified swapped healthy)
  = dispatch collab (failoverFlags cfgCheck "monitor") [Tick] (classified swapped healthy).
Proof.
  assert (Hinit : snd (termbox_Init collab (world (classified swapped healthy))) = None)
    by (vm_compute; reflexivity).
  split; [exact Hinit|].
  pose proof (check_is_monitor_from_dispatch_on collab cfgCheck [Tick]
                (classified swapped healthy)) as (Hd & _ & _ & _ & Hlog & _).
  split; [exact (Hlog Hinit)|exact Hd].
Defined.

(** The claim fails here: with the master up, mode "monitor" finds it and
    waits in the loop, mode "check" looks among the failed nodes and gives
    up. *)
Lemma check_mode_locates_differently :
  main collab cfgMonitor [] (initSt (quiet healthy))
    = Blocked (endOfRun cfgMonitor (quiet healthy)) /\
  main collab cfgCheck [] (initSt (quiet healthy))
    = Fatal MSG_NO_MASTER (endOfRun cfgCheck (quiet healthy)) /\
  main collab cfgCheck [] (initSt (quiet healthy))
    <> main collab cfgMonitor [] (initSt (quiet healthy)).
Proof.
  split; [vm_compute; reflexivity|]. split; [vm_compute; reflexivity|].
  vm_compute. discriminate.
Qed.

(** * The further properties on the scripted cluster *)

(** Failover mode "monitor" alone is accepted; with a switchover mode set
    beside it the run ends before anything is printed or connected. *)
Lemma start_up_validation_witness :
  validateFlags collab cfgMonitor (initSt (quiet healthy))
    = Ok tt (configured collab cfgMonitor (announce cfgMonitor (initSt (quiet healthy)))) /\
  exists msg s',
    main collab cfgBothModes [Tick] (initSt (quiet healthy))
      = Fatal msg s' /\ heap s' = [] /\ deferred s' = [] /\ trace s' = [].
Proof.
  split.
  - apply (proj1 (start_up_validation collab cfgMonitor (initSt (quiet healthy)) [])).
    split; [discriminate|]. split; [discriminate|]. split; [discriminate|].
    left. split; [reflexivity|]. apply elem_of_cons. left. reflexivity.
  - destruct (proj2 (start_up_validation collab cfgBothModes
                       (initSt (quiet healthy)) [Tick]))
      as (msg & s' & Hrun & _ & _ & _ & _ & Hd & Hh & _ & Htr).
    + intros (_ & _ & _ & [[H _]|[H _]]); discriminate H.
    + exists msg, s'. split; [exact Hrun|]. split; [exact Hh|].
      split; [exact Hd|exact Htr].
Defined.

(** Three hosts, two commas. *)
Lemma host_list_split_witness :
  String.concat "," (hostList (final (validateFlags collab cfgMonitor (initSt (quiet healthy)))))
    = hosts cfgMonitor /\
  Forall (fun h => ","%char ∉ list_ascii_of_string h)
         (hostList (final (validateFlags collab cfgMonitor (initSt (quiet healthy))))) /\
  length (hostList (final (validateFlags collab cfgMonitor (initSt (quiet healthy)))))
    = S (length (filter (fun c => c = ","%char) (list_ascii_of_string (hosts cfgMonitor)))) /\
  exists s2,
    classify collab cfgMonitor (final (validateFlags collab cfgMonitor (initSt (quiet healthy))))
      = Ok tt s2 /\
    length (servers s2)
      = length (hostList (final (validateFlags collab cfgMonitor (initSt (quiet healthy))))).
Proof.
  apply (host_list_split collab cfgMonitor (initSt (quiet healthy))).
  vm_compute. reflexivity.
Defined.

(** The healthy cluster at the loop head: both slaves are asked about. *)
Lemma slave_mismatch_only_warns_witness :
  exists mm n2 n3,
    checkSlaves collab cfgMonitor (atLoopHead cfgMonitor (quiet healthy))
    = Ok tt (logged (concat (map (slaveReport collab cfgMonitor (quiet healthy) mm) [n2; n3]))
               (atLoopHead cfgMonitor (quiet healthy))).
Proof.
  eexists _, _, _.
  apply (slave_mismatch_only_warns collab cfgMonitor
           (atLoopHead cfgMonitor (quiet healthy)) 0).
  - vm_compute. reflexivity.
  - reflexivity.
  - constructor; [reflexivity|]. constructor; [reflexivity|]. constructor.
Defined.

(** A tick and the key Enter with the character s. *)
Lemma passive_inputs_keep_monitoring_witness :
  exists st',
    monitor collab cfgMonitor [Tick; Term (mkTbEvent EventKey 13 "s")] EmptyString
      (atLoopHead cfgMonitor (quiet healthy)) = Blocked st' /\
    servers st' = servers (atLoopHead cfgMonitor (quiet healthy)) /\
    slaves st' = slaves (atLoopHead cfgMonitor (quiet healthy)) /\
    master st' = master (atLoopHead cfgMonitor (quiet healthy)) /\
    hostList st' = hostList (atLoopHead cfgMonitor (quiet healthy)) /\
    exit st' = false /\
    length (heap st') = length (heap (atLoopHead cfgMonitor (quiet healthy))).
Proof.
  apply (passive_inputs_keep_monitoring collab cfgMonitor
           [Tick; Term (mkTbEvent EventKey 13 "s")]
           (atLoopHead cfgMonitor (quiet healthy)) EmptyString 0).
  - reflexivity.
  - constructor; [exact I|]. constructor; [|constructor].
    right. repeat split; discriminate.
  - vm_compute. reflexivity.
  - vm_compute. reflexivity.
  - vm_compute. lia.
Defined.

(** Ctrl-Q as the first input of a run on the healthy cluster: the
    connections to h3, h2 and h1 are closed when [main] returns. *)
Lemma quit_key_ends_the_run_witness :
  main collab cfgMonitor [Term (mkTbEvent EventKey KeyCtrlQ "a"); Tick]
    (initSt (quiet healthy))
  = Ok tt (runDeferred
             (emit TermboxClose
                (synced (mkTbEvent EventKey KeyCtrlQ "a")
                   (set_exit true (atLoopHead cfgMonitor (quiet healthy)))))) /\
  deferred (atLoopHead cfgMonitor (quiet healthy)) = [Some 2; Some 1; Some 0].
Proof.
  split; [|vm_compute; reflexivity].
  eapply (proj1 (proj2 (quit_key_ends_the_run collab cfgMonitor
            (atLoopHead cfgMonitor (quiet healthy))
            (mkTbEvent EventKey KeyCtrlQ "a") [Tick] EmptyString 0 _
            eq_refl eq_refl ltac:(discriminate) ltac:(vm_compute; reflexivity)
            eq_refl (or_introl eq_refl)))).
  vm_compute. reflexivity.
Defined.

Lemma failover_key_takes_the_exit_path_witness :
  monitor collab cfgMonitor [Term (mkTbEvent EventKey KeyCtrlF "a"); Tick] EmptyString
    (atLoopHead cfgMonitor (quiet healthy))
  = bind (restartAfterFailover collab cfgMonitor)
         (fun _ => MainLoop collab cfgMonitor [Tick])
         (synced (mkTbEvent EventKey KeyCtrlF "a")
            (set_exit true (atLoopHead cfgMonitor (quiet healthy)))).
Proof.
  eapply (failover_key_takes_the_exit_path collab cfgMonitor
            (atLoopHead cfgMonitor (quiet healthy))
            (mkTbEvent EventKey KeyCtrlF "a") [Tick] EmptyString 0).
  - reflexivity.
  - reflexivity.
  - vm_compute. reflexivity.
  - reflexivity.
Defined.

(** No promotion is scripted: the failover answers no URL. *)
Lemma failover_without_result_restarts_unchanged_witness :
  restartAfterFailover collab cfgAuto (atLoopHead cfgAuto (quiet healthy))
  = Ok tt (set_exit false
             (logged [Logf MSG_RESTART []; Sleep 5]
                (afterCall (CallFailover (master (atLoopHead cfgAuto (quiet healthy))))
                   (quiet healthy) untouched
                   (emit TermboxClose (atLoopHead cfgAuto (quiet healthy)))))).
Proof.
  apply (proj1 (failover_without_result_restarts_unchanged collab cfgAuto
                  (atLoopHead cfgAuto (quiet healthy)) (quiet healthy) untouched (-1)%Z
                  ltac:(vm_compute; reflexivity))).
Defined.

(** Failover mode "force" from the located topology. *)
Lemma direct_modes_return_at_once_witness :
  exists s',
    (forall inputs,
       dispatch collab (flags "force" EmptyString true EmptyString) inputs
         (atLoopHead cfgMonitor (quiet healthy)) = Ok tt s') /\
    master s' = master (atLoopHead cfgMonitor (quiet healthy)) /\
    slaves s' = slaves (atLoopHead cfgMonitor (quiet healthy)) /\
    servers s' = servers (atLoopHead cfgMonitor (quiet healthy)) /\
    exit s' = exit (atLoopHead cfgMonitor (quiet healthy)) /\
    length (heap s') = length (heap (atLoopHead cfgMonitor (quiet healthy))) /\
    (exists e,
       trace s' = trace (atLoopHead cfgMonitor (quiet healthy)) ++ [e] /\
       (e = CallFailover (master (atLoopHead cfgMonitor (quiet healthy))) \/
        e = CallSwitchover (master (atLoopHead cfgMonitor (quiet healthy))))).
Proof.
  apply (direct_modes_return_at_once collab (flags "force" EmptyString true EmptyString)
           (atLoopHead cfgMonitor (quiet healthy))).
  left. reflexivity.
Defined.

(** An outage followed by an automatic failover, from the process start. *)
Lemma main_never_follows_nil_witness :
  noNilPanic (main collab cfgAuto [Tick; Tick; Tick] (initSt wOutage)) /\
  forall s', main collab cfgAuto [Tick; Tick; Tick] (initSt wOutage) = Ok tt s' -> sound s'.
Proof.
  apply (main_never_follows_nil collab cfgAuto (initSt wOutage) [Tick; Tick; Tick]).
  - constructor.
  - left. reflexivity.
Defined.

Lemma start_up_topology_witness :
  exists a,
    master (final (bootstrap collab cfgMonitor (boot [h1; h2; h3] (quiet healthy)))) = Some a /\
    (Some a ∈ servers (final (bootstrap collab cfgMonitor (boot [h1; h2; h3] (quiet healthy))))) /\
    stateAt (heap (final (bootstrap collab cfgMonitor (boot [h1; h2; h3] (quiet healthy)))))
            (Some a) = Some STATE_MASTER /\
    (Some a ∉ slaves (final (bootstrap collab cfgMonitor (boot [h1; h2; h3] (quiet healthy))))) /\
    slaves (final (bootstrap collab cfgMonitor (boot [h1; h2; h3] (quiet healthy)))) <> [] /\
    Forall (fun p =>
              p ∈ servers (final (bootstrap collab cfgMonitor (boot [h1; h2; h3] (quiet healthy)))) /\
              stateAt (heap (final (bootstrap collab cfgMonitor (boot [h1; h2; h3] (quiet healthy)))))
                      p = Some STATE_SLAVE)
           (slaves (final (bootstrap collab cfgMonitor (boot [h1; h2; h3] (quiet healthy))))).
Proof.
  apply (start_up_topology collab cfgMonitor (boot [h1; h2; h3] (quiet healthy))).
  - reflexivity.
  - reflexivity.
  - reflexivity.
  - vm_compute. reflexivity.
Defined.

(** The switchover answers slave 5 of 2. *)
Lemma switchover_index_past_end_panics_witness :
  exists s',
    monitor collab cfgKeep [Term (mkTbEvent EventKey KeyCtrlS "a"); Tick] EmptyString
      (atLoopHead cfgKeep wPastEnd) = Panic PANIC_INDEX s' /\
    slaves s' = slaves (atLoopHead cfgKeep wPastEnd) /\
    master s' = if verbose cfgKeep then master (atLoopHead cfgKeep wPastEnd)
                else Some (length (heap (atLoopHead cfgKeep wPastEnd))).
Proof.
  apply (proj2 (switchover_index_past_end_panics collab cfgKeep
                  (atLoopHead cfgKeep wPastEnd) (quiet healthy) untouched h2 5%Z
                  ltac:(vm_compute; reflexivity) ltac:(discriminate)
                  ltac:(vm_compute; discriminate))
           "a"%char EmptyString [Tick]).
Defined.
